(** * devcontainer-go: descriptor merge, variable expansion and docker-run synthesis

    A shallow embedding of the configuration pipeline of
    [pkg/devcontainer] (devcontainer.go, manager.go) and the properties of
    its specification, proved or refuted on that embedding.

    Conventions used throughout:
    - a Go [string] is a [string] of bytes; an [error] is its message;
    - [interface{}] values decoded from JSON are the closed type [Any];
    - a [*T] pointer that is only read is an [option T] ([None] is nil);
    - a slice is a [list] (nil and empty slices are both []);
    - a [map[string]T] is a [gmap string T] (a nil map is the empty map);
    - functions of Go's standard library that depend on the host
      (environment lookup, file access, path cleaning) are section
      variables. *)

From Stdlib Require Import ZArith String Ascii List Lia DecimalString.
From Stdlib Require DecimalPos.
From stdpp Require Import gmap strings list fin_maps.

Local Open Scope string_scope.
Local Open Scope list_scope.

(** ** Go strings *)

Module GoStrings.

(** [strings.HasPrefix] *)
Definition HasPrefix (s p : string) : bool := String.prefix p s.

(** the bytes of [s] after its first [n] *)
Fixpoint drop_bytes (n : nat) (s : string) : string :=
  match n, s with
  | O, _ => s
  | S _, EmptyString => EmptyString
  | S k, String _ s' => drop_bytes k s'
  end.

(** [strings.TrimPrefix] *)
Definition TrimPrefix (s p : string) : string :=
  if HasPrefix s p then drop_bytes (String.length p) s else s.

(** [strings.HasSuffix] *)
Definition HasSuffix (s x : string) : bool :=
  let n := String.length s in
  let k := String.length x in
  if (k <=? n)%nat then String.eqb (drop_bytes (n - k) s) x else false.

(** [strings.ReplaceAll old new] for a non-empty [old]: the
    non-overlapping occurrences of [old] are replaced from left to right.
    [skip] counts the bytes of a replaced occurrence still to pass. *)
Fixpoint replace_from (old new : string) (skip : nat) (s : string) : string :=
  match s with
  | EmptyString => EmptyString
  | String c s' =>
      match skip with
      | S k => replace_from old new k s'
      | O =>
          if HasPrefix s old
          then new +:+ replace_from old new (String.length old - 1) s'
          else String c (replace_from old new 0 s')
      end
  end.

Definition ReplaceAll (s old new : string) : string :=
  replace_from old new 0 s.

(** [strings.Join] *)
Fixpoint Join (elems : list string) (sep : string) : string :=
  match elems with
  | [] => EmptyString
  | [x] => x
  | x :: rest => x +:+ sep +:+ Join rest sep
  end.

(** the longest prefix of [s] whose bytes satisfy [p], and what follows *)
Fixpoint span (p : ascii -> bool) (s : string) : string * string :=
  match s with
  | EmptyString => (EmptyString, EmptyString)
  | String c s' =>
      if p c then let '(a, b) := span p s' in (String c a, b)
      else (EmptyString, s)
  end.

(** [%d] of [fmt.Sprintf] *)
Definition Itoa (n : Z) : string := NilZero.string_of_int (Z.to_int n).

End GoStrings.
Import GoStrings.

(** ** Values of type [interface{}] *)

(** What [encoding/json] decodes into an [interface{}]: nil, bool, float64,
    string, [[]interface{}] and [map[string]interface{}].  The only use the
    package makes of a float64 [p] is [int(p)], so a number is carried as
    that integer. *)
#[warnings="-register-all"]
Inductive Any : Type :=
  | ANil
  | ABool (b : bool)
  | ANum (n : Z)
  | AStr (s : string)
  | AArr (l : list Any)
  | AMap (m : gmap string Any).

(** [v != nil] *)
Definition notNil (v : Any) : bool :=
  match v with ANil => false | _ => true end.

(** [m[k].(string)]: the value and whether the assertion holds *)
Definition getString (m : gmap string Any) (k : string) : option string :=
  match m !! k with
  | Some (AStr s) => Some s
  | _ => None
  end.

(** [m[k].(bool)] *)
Definition getBool (m : gmap string Any) (k : string) : option bool :=
  match m !! k with
  | Some (ABool b) => Some b
  | _ => None
  end.

(** ** Host-environment references *)

Section LocalEnv.

(** [os.LookupEnv] *)
Variable LookupEnv : string -> option string.

Definition nameByte (c : ascii) : bool :=
  negb (Ascii.eqb c "}") && negb (Ascii.eqb c ":").

Definition defaultByte (c : ascii) : bool := negb (Ascii.eqb c "}").

(** One match of [reLocalEnv], the expression
    dollar, brace, "localEnv:", a name of one or more bytes other than
    closing brace and colon, optionally a colon and a default of bytes other
    than closing brace, and a closing brace; anchored at the start of [s].
    It gives the name, the default (empty when the group is absent) and
    the length of the match.  Both classes are greedy and stop exactly at the byte the
    expression needs next, so there is nothing to backtrack. *)
Definition matchLocalEnv (s : string) : option (string * string * nat) :=
  if HasPrefix s "${localEnv:" then
    let '(name, r1) := span nameByte (drop_bytes 11 s) in
    if String.eqb name EmptyString then None
    else
      match r1 with
      | String "}" _ => Some (name, EmptyString, 11 + String.length name + 1)
      | String ":" r2 =>
          let '(def, r3) := span defaultByte r2 in
          match r3 with
          | String "}" _ =>
              Some (name, def,
                    11 + String.length name + 1 + String.length def + 1)
          | _ => None
          end
      | _ => None
      end
  else None.

(** The callback of [ReplaceAllStringFunc] in [resolveLocalEnvVars]: the
    replacement of the match [m] and the name it reports missing. *)
Definition resolveMatch (m name def : string) : string * list string :=
  match LookupEnv name with
  | Some val =>
      if negb (String.eqb val EmptyString) then (val, [])
      else if negb (String.eqb def EmptyString) then (def, [])
      else (m, [name])
  | None =>
      if negb (String.eqb def EmptyString) then (def, [])
      else (m, [name])
  end.

(** [ReplaceAllStringFunc] over the successive non-overlapping matches;
    [skip] counts the bytes of the current match still to pass. *)
Fixpoint resolve_from (skip : nat) (s : string) : string * list string :=
  match s with
  | EmptyString => (EmptyString, [])
  | String c s' =>
      match skip with
      | S k => resolve_from k s'
      | O =>
          match matchLocalEnv s with
          | Some (name, def, len) =>
              let '(repl, miss) :=
                resolveMatch (String.substring 0 len s) name def in
              let '(out, missing) := resolve_from (len - 1) s' in
              (repl +:+ out, miss ++ missing)
          | None =>
              let '(out, missing) := resolve_from 0 s' in
              (String c out, missing)
          end
      end
  end.

(** [resolveLocalEnvVars] *)
Definition resolveLocalEnvVars (input : string) : string * list string :=
  resolve_from 0 input.

(** The order in which a [range] loop visits the entries of a
    [map[string]string]; Go leaves it unspecified. *)
Variable rangeMap : gmap string string -> list (string * string).

(** [expandVariableString] *)
Definition expandVariableString (s : string) (vars : gmap string string) : string :=
  let result :=
    fold_left
      (fun result '(key, value) =>
         let result := ReplaceAll result ("${" +:+ key +:+ "}") value in
         ReplaceAll result ("$" +:+ key) value)
      (rangeMap vars) s in
  fst (resolveLocalEnvVars result).

End LocalEnv.

(** [uniqueStrings]: [seen] is the set of strings met so far, [out] the
    output slice. *)
Definition uniqueStrings (input : list string) : list string :=
  snd (fold_left
         (fun '(seen, out) s =>
            if decide (s ∈ (seen : gset string)) then (seen, out)
            else ({[ s ]} ∪ seen, out ++ [s]))
         input (∅, [])).

(** ** The document model *)

(** [ImageContainer] *)
Module ImageContainer.
Record t : Type := mk { Image : string }.
End ImageContainer.

(** [ComposeContainer] *)
Module ComposeContainer.
Record t : Type := mk { DockerComposeFile : Any; Service : string }.
End ComposeContainer.

(** [DevContainerCommonFeatures] *)
Module DevContainerCommonFeatures.
Record t : Type := mk {
  Fish : string;
  Gradle : string;
  Maven : string;
  AdditionalProperties : gmap string Any
}.
End DevContainerCommonFeatures.

(** [NonComposeBase] *)
Module NonComposeBase.
Record t : Type := mk {
  RunArgs : list string;
  WorkspaceFolder : option string;
  WorkspaceMount : option string;
  AppPort : Any
}.

Definition set_RunArgs (v : list string) (n : t) : t :=
  mk v (WorkspaceFolder n) (WorkspaceMount n) (AppPort n).
Definition set_WorkspaceFolder (v : option string) (n : t) : t :=
  mk (RunArgs n) v (WorkspaceMount n) (AppPort n).
Definition set_WorkspaceMount (v : option string) (n : t) : t :=
  mk (RunArgs n) (WorkspaceFolder n) v (AppPort n).
Definition set_AppPort (v : Any) (n : t) : t :=
  mk (RunArgs n) (WorkspaceFolder n) (WorkspaceMount n) v.

(** [&NonComposeBase{}] *)
Definition zero : t := mk [] None None ANil.
End NonComposeBase.

(** [DevContainer], with the fields of the embedded [DevContainerCommon]
    promoted as Go promotes them.  The two fields through which the package
    writes into shared objects have a type of their own: [E] for the
    [ContainerEnv] map and [N] for the [*NonComposeBase] pointer.  In the
    value view ([DevContainer.v]) they hold the map and the structure; in
    the store view (module [Store]) they hold addresses.  Fields that no
    function below reads or writes (build, remoteEnv, customizations, ...)
    are left out. *)
Module DevContainer.
#[local] Set Implicit Arguments.
#[local] Set Maximal Implicit Insertion.

Record t (E N : Type) : Type := mk {
  Image : string;
  WorkspaceFolder : string;
  WorkspaceMount : string;
  ContainerEnv : E;
  ContainerUser : option string;
  ForwardPorts : Any;
  AppPort : Any;
  OnCreateCommand : Any;
  UpdateContentCommand : Any;
  PostCreateCommand : Any;
  PostStartCommand : Any;
  PostAttachCommand : Any;
  InitializeCommand : Any;
  Mounts : list Any;
  CapAdd : list string;
  SecurityOpt : list string;
  Init : option bool;
  Privileged : option bool;
  Features : option DevContainerCommonFeatures.t;
  Name : option string;
  ImageContainer : option ImageContainer.t;
  DockerfileContainer : string;
  ComposeContainer : option ComposeContainer.t;
  DockerComposeFile : Any;
  Service : string;
  NonComposeBase : N
}.

Section Setters.
Context {E N : Type}.

Definition set_Image (v : string) (d : t E N) : t E N :=
  mk v (WorkspaceFolder d) (WorkspaceMount d) (ContainerEnv d)
  (ContainerUser d) (ForwardPorts d) (AppPort d) (OnCreateCommand d)
  (UpdateContentCommand d) (PostCreateCommand d) (PostStartCommand d)
  (PostAttachCommand d) (InitializeCommand d) (Mounts d) (CapAdd d)
  (SecurityOpt d) (Init d) (Privileged d) (Features d) (Name d)
  (ImageContainer d) (DockerfileContainer d) (ComposeContainer d)
  (DockerComposeFile d) (Service d) (NonComposeBase d).

Definition set_WorkspaceFolder (v : string) (d : t E N) : t E N :=
  mk (Image d) v (WorkspaceMount d) (ContainerEnv d) (ContainerUser d)
  (ForwardPorts d) (AppPort d) (OnCreateCommand d) (UpdateContentCommand
  d) (PostCreateCommand d) (PostStartCommand d) (PostAttachCommand d)
  (InitializeCommand d) (Mounts d) (CapAdd d) (SecurityOpt d) (Init d)
  (Privileged d) (Features d) (Name d) (ImageContainer d)
  (DockerfileContainer d) (ComposeContainer d) (DockerComposeFile d)
  (Service d) (NonComposeBase d).

Definition set_WorkspaceMount (v : string) (d : t E N) : t E N :=
  mk (Image d) (WorkspaceFolder d) v (ContainerEnv d) (ContainerUser d)
  (ForwardPorts d) (AppPort d) (OnCreateCommand d) (UpdateContentCommand
  d) (PostCreateCommand d) (PostStartCommand d) (PostAttachCommand d)
  (InitializeCommand d) (Mounts d) (CapAdd d) (SecurityOpt d) (Init d)
  (Privileged d) (Features d) (Name d) (ImageContainer d)
  (DockerfileContainer d) (ComposeContainer d) (DockerComposeFile d)
  (Service d) (NonComposeBase d).

Definition set_ContainerEnv (v : E) (d : t E N) : t E N :=
  mk (Image d) (WorkspaceFolder d) (WorkspaceMount d) v (ContainerUser d)
  (ForwardPorts d) (AppPort d) (OnCreateCommand d) (UpdateContentCommand
  d) (PostCreateCommand d) (PostStartCommand d) (PostAttachCommand d)
  (InitializeCommand d) (Mounts d) (CapAdd d) (SecurityOpt d) (Init d)
  (Privileged d) (Features d) (Name d) (ImageContainer d)
  (DockerfileContainer d) (ComposeContainer d) (DockerComposeFile d)
  (Service d) (NonComposeBase d).

Definition set_ForwardPorts (v : Any) (d : t E N) : t E N :=
  mk (Image d) (WorkspaceFolder d) (WorkspaceMount d) (ContainerEnv d)
  (ContainerUser d) v (AppPort d) (OnCreateCommand d)
  (UpdateContentCommand d) (PostCreateCommand d) (PostStartCommand d)
  (PostAttachCommand d) (InitializeCommand d) (Mounts d) (CapAdd d)
  (SecurityOpt d) (Init d) (Privileged d) (Features d) (Name d)
  (ImageContainer d) (DockerfileContainer d) (ComposeContainer d)
  (DockerComposeFile d) (Service d) (NonComposeBase d).

Definition set_OnCreateCommand (v : Any) (d : t E N) : t E N :=
  mk (Image d) (WorkspaceFolder d) (WorkspaceMount d) (ContainerEnv d)
  (ContainerUser d) (ForwardPorts d) (AppPort d) v (UpdateContentCommand
  d) (PostCreateCommand d) (PostStartCommand d) (PostAttachCommand d)
  (InitializeCommand d) (Mounts d) (CapAdd d) (SecurityOpt d) (Init d)
  (Privileged d) (Features d) (Name d) (ImageContainer d)
  (DockerfileContainer d) (ComposeContainer d) (DockerComposeFile d)
  (Service d) (NonComposeBase d).

Definition set_UpdateContentCommand (v : Any) (d : t E N) : t E N :=
  mk (Image d) (WorkspaceFolder d) (WorkspaceMount d) (ContainerEnv d)
  (ContainerUser d) (ForwardPorts d) (AppPort d) (OnCreateCommand d) v
  (PostCreateCommand d) (PostStartCommand d) (PostAttachCommand d)
  (InitializeCommand d) (Mounts d) (CapAdd d) (SecurityOpt d) (Init d)
  (Privileged d) (Features d) (Name d) (ImageContainer d)
  (DockerfileContainer d) (ComposeContainer d) (DockerComposeFile d)
  (Service d) (NonComposeBase d).

Definition set_PostCreateCommand (v : Any) (d : t E N) : t E N :=
  mk (Image d) (WorkspaceFolder d) (WorkspaceMount d) (ContainerEnv d)
  (ContainerUser d) (ForwardPorts d) (AppPort d) (OnCreateCommand d)
  (UpdateContentCommand d) v (PostStartCommand d) (PostAttachCommand d)
  (InitializeCommand d) (Mounts d) (CapAdd d) (SecurityOpt d) (Init d)
  (Privileged d) (Features d) (Name d) (ImageContainer d)
  (DockerfileContainer d) (ComposeContainer d) (DockerComposeFile d)
  (Service d) (NonComposeBase d).

Definition set_PostStartCommand (v : Any) (d : t E N) : t E N :=
  mk (Image d) (WorkspaceFolder d) (WorkspaceMount d) (ContainerEnv d)
  (ContainerUser d) (ForwardPorts d) (AppPort d) (OnCreateCommand d)
  (UpdateContentCommand d) (PostCreateCommand d) v (PostAttachCommand d)
  (InitializeCommand d) (Mounts d) (CapAdd d) (SecurityOpt d) (Init d)
  (Privileged d) (Features d) (Name d) (ImageContainer d)
  (DockerfileContainer d) (ComposeContainer d) (DockerComposeFile d)
  (Service d) (NonComposeBase d).

Definition set_PostAttachCommand (v : Any) (d : t E N) : t E N :=
  mk (Image d) (WorkspaceFolder d) (WorkspaceMount d) (ContainerEnv d)
  (ContainerUser d) (ForwardPorts d) (AppPort d) (OnCreateCommand d)
  (UpdateContentCommand d) (PostCreateCommand d) (PostStartCommand d) v
  (InitializeCommand d) (Mounts d) (CapAdd d) (SecurityOpt d) (Init d)
  (Privileged d) (Features d) (Name d) (ImageContainer d)
  (DockerfileContainer d) (ComposeContainer d) (DockerComposeFile d)
  (Service d) (NonComposeBase d).

Definition set_InitializeCommand (v : Any) (d : t E N) : t E N :=
  mk (Image d) (WorkspaceFolder d) (WorkspaceMount d) (ContainerEnv d)
  (ContainerUser d) (ForwardPorts d) (AppPort d) (OnCreateCommand d)
  (UpdateContentCommand d) (PostCreateCommand d) (PostStartCommand d)
  (PostAttachCommand d) v (Mounts d) (CapAdd d) (SecurityOpt d) (Init d)
  (Privileged d) (Features d) (Name d) (ImageContainer d)
  (DockerfileContainer d) (ComposeContainer d) (DockerComposeFile d)
  (Service d) (NonComposeBase d).

Definition set_Mounts (v : list Any) (d : t E N) : t E N :=
  mk (Image d) (WorkspaceFolder d) (WorkspaceMount d) (ContainerEnv d)
  (ContainerUser d) (ForwardPorts d) (AppPort d) (OnCreateCommand d)
  (UpdateContentCommand d) (PostCreateCommand d) (PostStartCommand d)
  (PostAttachCommand d) (InitializeCommand d) v (CapAdd d) (SecurityOpt d)
  (Init d) (Privileged d) (Features d) (Name d) (ImageContainer d)
  (DockerfileContainer d) (ComposeContainer d) (DockerComposeFile d)
  (Service d) (NonComposeBase d).

Definition set_CapAdd (v : list string) (d : t E N) : t E N :=
  mk (Image d) (WorkspaceFolder d) (WorkspaceMount d) (ContainerEnv d)
  (ContainerUser d) (ForwardPorts d) (AppPort d) (OnCreateCommand d)
  (UpdateContentCommand d) (PostCreateCommand d) (PostStartCommand d)
  (PostAttachCommand d) (InitializeCommand d) (Mounts d) v (SecurityOpt d)
  (Init d) (Privileged d) (Features d) (Name d) (ImageContainer d)
  (DockerfileContainer d) (ComposeContainer d) (DockerComposeFile d)
  (Service d) (NonComposeBase d).

Definition set_SecurityOpt (v : list string) (d : t E N) : t E N :=
  mk (Image d) (WorkspaceFolder d) (WorkspaceMount d) (ContainerEnv d)
  (ContainerUser d) (ForwardPorts d) (AppPort d) (OnCreateCommand d)
  (UpdateContentCommand d) (PostCreateCommand d) (PostStartCommand d)
  (PostAttachCommand d) (InitializeCommand d) (Mounts d) (CapAdd d) v
  (Init d) (Privileged d) (Features d) (Name d) (ImageContainer d)
  (DockerfileContainer d) (ComposeContainer d) (DockerComposeFile d)
  (Service d) (NonComposeBase d).

Definition set_Features (v : option DevContainerCommonFeatures.t) (d : t E N) : t E N :=
  mk (Image d) (WorkspaceFolder d) (WorkspaceMount d) (ContainerEnv d)
  (ContainerUser d) (ForwardPorts d) (AppPort d) (OnCreateCommand d)
  (UpdateContentCommand d) (PostCreateCommand d) (PostStartCommand d)
  (PostAttachCommand d) (InitializeCommand d) (Mounts d) (CapAdd d)
  (SecurityOpt d) (Init d) (Privileged d) v (Name d) (ImageContainer d)
  (DockerfileContainer d) (ComposeContainer d) (DockerComposeFile d)
  (Service d) (NonComposeBase d).

Definition set_Name (v : option string) (d : t E N) : t E N :=
  mk (Image d) (WorkspaceFolder d) (WorkspaceMount d) (ContainerEnv d)
  (ContainerUser d) (ForwardPorts d) (AppPort d) (OnCreateCommand d)
  (UpdateContentCommand d) (PostCreateCommand d) (PostStartCommand d)
  (PostAttachCommand d) (InitializeCommand d) (Mounts d) (CapAdd d)
  (SecurityOpt d) (Init d) (Privileged d) (Features d) v (ImageContainer
  d) (DockerfileContainer d) (ComposeContainer d) (DockerComposeFile d)
  (Service d) (NonComposeBase d).

Definition set_ImageContainer (v : option ImageContainer.t) (d : t E N) : t E N :=
  mk (Image d) (WorkspaceFolder d) (WorkspaceMount d) (ContainerEnv d)
  (ContainerUser d) (ForwardPorts d) (AppPort d) (OnCreateCommand d)
  (UpdateContentCommand d) (PostCreateCommand d) (PostStartCommand d)
  (PostAttachCommand d) (InitializeCommand d) (Mounts d) (CapAdd d)
  (SecurityOpt d) (Init d) (Privileged d) (Features d) (Name d) v
  (DockerfileContainer d) (ComposeContainer d) (DockerComposeFile d)
  (Service d) (NonComposeBase d).

Definition set_ComposeContainer (v : option ComposeContainer.t) (d : t E N) : t E N :=
  mk (Image d) (WorkspaceFolder d) (WorkspaceMount d) (ContainerEnv d)
  (ContainerUser d) (ForwardPorts d) (AppPort d) (OnCreateCommand d)
  (UpdateContentCommand d) (PostCreateCommand d) (PostStartCommand d)
  (PostAttachCommand d) (InitializeCommand d) (Mounts d) (CapAdd d)
  (SecurityOpt d) (Init d) (Privileged d) (Features d) (Name d)
  (ImageContainer d) (DockerfileContainer d) v (DockerComposeFile d)
  (Service d) (NonComposeBase d).

Definition set_NonComposeBase (v : N) (d : t E N) : t E N :=
  mk (Image d) (WorkspaceFolder d) (WorkspaceMount d) (ContainerEnv d)
  (ContainerUser d) (ForwardPorts d) (AppPort d) (OnCreateCommand d)
  (UpdateContentCommand d) (PostCreateCommand d) (PostStartCommand d)
  (PostAttachCommand d) (InitializeCommand d) (Mounts d) (CapAdd d)
  (SecurityOpt d) (Init d) (Privileged d) (Features d) (Name d)
  (ImageContainer d) (DockerfileContainer d) (ComposeContainer d)
  (DockerComposeFile d) (Service d) v.

Definition set_AppPort (v : Any) (d : t E N) : t E N :=
  mk (Image d) (WorkspaceFolder d) (WorkspaceMount d) (ContainerEnv d)
  (ContainerUser d) (ForwardPorts d) v (OnCreateCommand d)
  (UpdateContentCommand d) (PostCreateCommand d) (PostStartCommand d)
  (PostAttachCommand d) (InitializeCommand d) (Mounts d) (CapAdd d)
  (SecurityOpt d) (Init d) (Privileged d) (Features d) (Name d)
  (ImageContainer d) (DockerfileContainer d) (ComposeContainer d)
  (DockerComposeFile d) (Service d) (NonComposeBase d).

Definition set_DockerfileContainer (v : string) (d : t E N) : t E N :=
  mk (Image d) (WorkspaceFolder d) (WorkspaceMount d) (ContainerEnv d)
  (ContainerUser d) (ForwardPorts d) (AppPort d) (OnCreateCommand d)
  (UpdateContentCommand d) (PostCreateCommand d) (PostStartCommand d)
  (PostAttachCommand d) (InitializeCommand d) (Mounts d) (CapAdd d)
  (SecurityOpt d) (Init d) (Privileged d) (Features d) (Name d)
  (ImageContainer d) v (ComposeContainer d) (DockerComposeFile d) (Service
  d) (NonComposeBase d).

Definition set_Init (v : option bool) (d : t E N) : t E N :=
  mk (Image d) (WorkspaceFolder d) (WorkspaceMount d) (ContainerEnv d)
  (ContainerUser d) (ForwardPorts d) (AppPort d) (OnCreateCommand d)
  (UpdateContentCommand d) (PostCreateCommand d) (PostStartCommand d)
  (PostAttachCommand d) (InitializeCommand d) (Mounts d) (CapAdd d)
  (SecurityOpt d) v (Privileged d) (Features d) (Name d) (ImageContainer
  d) (DockerfileContainer d) (ComposeContainer d) (DockerComposeFile d)
  (Service d) (NonComposeBase d).

Definition set_Privileged (v : option bool) (d : t E N) : t E N :=
  mk (Image d) (WorkspaceFolder d) (WorkspaceMount d) (ContainerEnv d)
  (ContainerUser d) (ForwardPorts d) (AppPort d) (OnCreateCommand d)
  (UpdateContentCommand d) (PostCreateCommand d) (PostStartCommand d)
  (PostAttachCommand d) (InitializeCommand d) (Mounts d) (CapAdd d)
  (SecurityOpt d) (Init d) v (Features d) (Name d) (ImageContainer d)
  (DockerfileContainer d) (ComposeContainer d) (DockerComposeFile d)
  (Service d) (NonComposeBase d).

Definition set_ContainerUser (v : option string) (d : t E N) : t E N :=
  mk (Image d) (WorkspaceFolder d) (WorkspaceMount d) (ContainerEnv d) v
  (ForwardPorts d) (AppPort d) (OnCreateCommand d) (UpdateContentCommand
  d) (PostCreateCommand d) (PostStartCommand d) (PostAttachCommand d)
  (InitializeCommand d) (Mounts d) (CapAdd d) (SecurityOpt d) (Init d)
  (Privileged d) (Features d) (Name d) (ImageContainer d)
  (DockerfileContainer d) (ComposeContainer d) (DockerComposeFile d)
  (Service d) (NonComposeBase d).
End Setters.

(** the value view *)
Definition v : Type := t (gmap string string) (option NonComposeBase.t).

(** [&DevContainer{}] *)
Definition zero : v :=
  mk EmptyString EmptyString EmptyString ∅ None ANil ANil ANil ANil ANil
     ANil ANil ANil [] [] [] None None None None None EmptyString None
     ANil EmptyString None.
End DevContainer.

(** [DockerRunConfig] *)
Module DockerRunConfig.
Record t : Type := mk {
  Image : string;
  WorkspaceMount : string;
  WorkspaceFolder : string;
  Environment : gmap string string;
  Ports : list string;
  Mounts : list string;
  CapAdd : list string;
  Capabilities : list string;
  SecurityOpt : list string;
  SecurityOpts : list string;
  Init : bool;
  Privileged : bool;
  User : string;
  Name : string;
  Command : list string;
  RunArgs : list string
}.
End DockerRunConfig.

(** An [error] is its message. *)
Definition error : Type := string.

Import DevContainer.

(** ** The merge engine *)

(** [mergeFeatures] *)
Definition mergeFeatures (base override : option DevContainerCommonFeatures.t)
  : option DevContainerCommonFeatures.t :=
  match base, override with
  | None, _ => override
  | _, None => base
  | Some b, Some o =>
      let result :=
        DevContainerCommonFeatures.mk
          (DevContainerCommonFeatures.Fish b)
          (DevContainerCommonFeatures.Gradle b)
          (DevContainerCommonFeatures.Maven b)
          ∅ in
      let props :=
        map_fold (fun k v acc => <[k := v]> acc)
          (DevContainerCommonFeatures.AdditionalProperties result)
          (DevContainerCommonFeatures.AdditionalProperties b) in
      let fish :=
        if negb (String.eqb (DevContainerCommonFeatures.Fish o) EmptyString)
        then DevContainerCommonFeatures.Fish o
        else DevContainerCommonFeatures.Fish result in
      let gradle :=
        if negb (String.eqb (DevContainerCommonFeatures.Gradle o) EmptyString)
        then DevContainerCommonFeatures.Gradle o
        else DevContainerCommonFeatures.Gradle result in
      let maven :=
        if negb (String.eqb (DevContainerCommonFeatures.Maven o) EmptyString)
        then DevContainerCommonFeatures.Maven o
        else DevContainerCommonFeatures.Maven result in
      let props :=
        map_fold (fun k v acc => <[k := v]> acc) props
          (DevContainerCommonFeatures.AdditionalProperties o) in
      Some (DevContainerCommonFeatures.mk fish gradle maven props)
  end.

(** [if c(x) { x = f(x) }], the shape of every guarded assignment to a
    field of the structure [x] *)
Definition when {A : Type} (c : A -> bool) (f : A -> A) (x : A) : A :=
  if c x then f x else x.

(** The block of [MergeDevContainers] that merges [NonComposeBase] when
    both sides have one: [rn] is the structure [result.NonComposeBase]
    points to, [on] the override's. *)
Definition mergeNonComposeBase (on rn : NonComposeBase.t) : NonComposeBase.t :=
  let rn :=
    when (fun _ => bool_decide (is_Some (NonComposeBase.WorkspaceFolder on)))
      (NonComposeBase.set_WorkspaceFolder (NonComposeBase.WorkspaceFolder on)) rn in
  let rn :=
    when (fun _ => bool_decide (is_Some (NonComposeBase.WorkspaceMount on)))
      (NonComposeBase.set_WorkspaceMount (NonComposeBase.WorkspaceMount on)) rn in
  let rn :=
    when (fun _ => notNil (NonComposeBase.AppPort on))
      (NonComposeBase.set_AppPort (NonComposeBase.AppPort on)) rn in
  (* always, even if empty *)
  NonComposeBase.set_RunArgs (NonComposeBase.RunArgs on) rn.

(** the whole [NonComposeBase] block of [MergeDevContainers] *)
Definition mergeNonCompose (override result : DevContainer.v) : DevContainer.v :=
  match NonComposeBase override with
  | Some on =>
      match NonComposeBase result with
      | None => set_NonComposeBase (Some on) result
      | Some rn => set_NonComposeBase (Some (mergeNonComposeBase on rn)) result
      end
  | None => result
  end.

(** [MergeDevContainers], on values: the result as a caller reads it.
    The writes the function makes into objects of [base] are the subject of
    module [Store]. *)
Definition MergeDevContainers (base override : option DevContainer.v)
  : option DevContainer.v :=
  match base, override with
  | None, _ => override
  | _, None => base
  | Some base, Some override =>
      let result := base in
      (* basic fields *)
      let result :=
        when (fun _ => negb (String.eqb (Image override) EmptyString))
          (set_Image (Image override)) result in
      let result :=
        when (fun _ => bool_decide (is_Some (ImageContainer override)))
          (set_ImageContainer (ImageContainer override)) result in
      let result :=
        when (fun _ => bool_decide (is_Some (Name override)))
          (set_Name (Name override)) result in
      (* environment variables *)
      let result :=
        when (fun _ => (0 <? size (ContainerEnv override))%nat)
          (fun result =>
             set_ContainerEnv
               (map_fold (fun k v env => <[k := v]> env)
                  (ContainerEnv result) (ContainerEnv override))
               result)
          result in
      (* arrays are replaced *)
      let result :=
        when (fun _ => notNil (ForwardPorts override))
          (set_ForwardPorts (ForwardPorts override)) result in
      let result :=
        when (fun _ => (0 <? length (CapAdd override))%nat)
          (set_CapAdd (CapAdd override)) result in
      let result :=
        when (fun _ => (0 <? length (SecurityOpt override))%nat)
          (set_SecurityOpt (SecurityOpt override)) result in
      (* features *)
      let result :=
        when (fun _ => bool_decide (is_Some (Features base))
                       || bool_decide (is_Some (Features override)))
          (set_Features (mergeFeatures (Features base) (Features override)))
          result in
      (* mounts *)
      let result :=
        when (fun _ => (0 <? length (Mounts override))%nat)
          (set_Mounts (Mounts override)) result in
      (* NonComposeBase *)
      let result := mergeNonCompose override result in
      (* lifecycle commands *)
      let result :=
        when (fun _ => notNil (InitializeCommand override))
          (set_InitializeCommand (InitializeCommand override)) result in
      let result :=
        when (fun _ => notNil (OnCreateCommand override))
          (set_OnCreateCommand (OnCreateCommand override)) result in
      let result :=
        when (fun _ => notNil (UpdateContentCommand override))
          (set_UpdateContentCommand (UpdateContentCommand override)) result in
      let result :=
        when (fun _ => notNil (PostCreateCommand override))
          (set_PostCreateCommand (PostCreateCommand override)) result in
      let result :=
        when (fun _ => notNil (PostStartCommand override))
          (set_PostStartCommand (PostStartCommand override)) result in
      let result :=
        when (fun _ => notNil (PostAttachCommand override))
          (set_PostAttachCommand (PostAttachCommand override)) result in
      Some result
  end.

(** ** Variable expansion, normalisation and synthesis *)

(** [buildMountStringFromMap] *)
Definition buildMountStringFromMap (m : gmap string Any) : string :=
  let mountType := "bind" in
  let mountType :=
    match getString m "type" with Some t => t | None => mountType end in
  let result := "type=" +:+ mountType in
  let result :=
    match getString m "source" with
    | Some source => result +:+ ",source=" +:+ source
    | None => result
    end in
  let result :=
    match getString m "target" with
    | Some target => result +:+ ",target=" +:+ target
    | None => result
    end in
  let result :=
    match getBool m "readonly" with
    | Some true => result +:+ ",readonly"
    | _ => result
    end in
  result.

(** The inner [switch] of [parseAppPorts] and [parseForwardPorts]:
    what one element of a port array appends to [result]. *)
Definition appendPort (result : list string) (port : Any) : list string :=
  match port with
  | ANum p => result ++ [Itoa p +:+ ":" +:+ Itoa p]
  | AStr p => result ++ [p]
  | _ => result
  end.

(** [parseForwardPorts] *)
Definition parseForwardPorts (ports : Any) : list string :=
  match ports with
  | AArr v => fold_left appendPort v []
  | _ => []
  end.

(** [parseAppPorts] *)
Definition parseAppPorts (ports : Any) : list string :=
  match ports with
  | ANum v => [] ++ [Itoa v +:+ ":" +:+ Itoa v]
  | AStr v => [] ++ [v]
  | AArr v => fold_left appendPort v []
  | _ => []
  end.

(** One of the three de-duplicating loops of [BuildDockerRunCommand]: the
    state is [config.Ports] and the keys of [portSet] that are true. *)
Definition addPorts (st : list string * gset string) (ports : list string)
  : list string * gset string :=
  fold_left
    (fun '(cfgPorts, portSet) port =>
       if decide (port ∈ portSet) then (cfgPorts, portSet)
       else (cfgPorts ++ [port], {[ port ]} ∪ portSet))
    ports st.

Section Synthesis.

(** [os.LookupEnv], the visiting order of [range], [filepath.Base] and
    [filepath.Abs] (whose error the code discards) *)
Variable LookupEnv : string -> option string.
Variable rangeMap : gmap string string -> list (string * string).
Variable filepath_Base : string -> string.
Variable filepath_Abs : string -> string.

(** [GetStandardVariables] *)
Definition GetStandardVariables (workspaceFolder : string) : gmap string string :=
  let basename := filepath_Base workspaceFolder in
  <["localWorkspaceFolder" := workspaceFolder]>
    (<["localWorkspaceFolderBasename" := basename]>
       (<["containerWorkspaceFolder" := "/workspaces/" +:+ basename]>
          (<["containerWorkspaceFolderBasename" := basename]> ∅))).

Section Expand.
Variable vars : gmap string string.

Definition expandString (s : string) : string :=
  expandVariableString LookupEnv rangeMap s vars.

(** the closure [expandInterface] of [ExpandVariables] *)
Fixpoint expandInterface (cmd : Any) : Any :=
  match cmd with
  | AStr v => AStr (expandString v)
  | AArr v =>
      AArr (map (fun item =>
                   match item with
                   | AStr s => AStr (expandString s)
                   | _ => item
                   end) v)
  | AMap v => AMap (expandInterface <$> v)
  | _ => cmd
  end.

(** what [ExpandVariables] does to one entry of [dc.Mounts] *)
Definition expandMount (mount : Any) : Any :=
  match mount with
  | AStr m => AStr (expandString m)
  | AMap m =>
      let m :=
        match getString m "source" with
        | Some source => <["source" := AStr (expandString source)]> m
        | None => m
        end in
      let m :=
        match getString m "target" with
        | Some target => <["target" := AStr (expandString target)]> m
        | None => m
        end in
      AMap m
  | _ => mount
  end.

(** the [NonComposeBase] block of [ExpandVariables] *)
Definition expandNonComposeBase (dc : DevContainer.v) : DevContainer.v :=
  match NonComposeBase dc with
  | Some n =>
      let n :=
        match NonComposeBase.WorkspaceMount n with
        | Some w => NonComposeBase.set_WorkspaceMount (Some (expandString w)) n
        | None => n
        end in
      let n :=
        match NonComposeBase.WorkspaceFolder n with
        | Some w => NonComposeBase.set_WorkspaceFolder (Some (expandString w)) n
        | None => n
        end in
      set_NonComposeBase (Some n) dc
  | None => dc
  end.

(** [ExpandVariables]; the descriptor it has written to is returned *)
Definition ExpandVariables (dc : DevContainer.v) : DevContainer.v :=
  let dc :=
    when (fun dc => notNil (InitializeCommand dc))
      (fun dc => set_InitializeCommand (expandInterface (InitializeCommand dc)) dc)
      dc in
  let dc :=
    when (fun dc => notNil (OnCreateCommand dc))
      (fun dc => set_OnCreateCommand (expandInterface (OnCreateCommand dc)) dc)
      dc in
  let dc :=
    when (fun dc => notNil (UpdateContentCommand dc))
      (fun dc => set_UpdateContentCommand (expandInterface (UpdateContentCommand dc)) dc)
      dc in
  let dc :=
    when (fun dc => notNil (PostCreateCommand dc))
      (fun dc => set_PostCreateCommand (expandInterface (PostCreateCommand dc)) dc)
      dc in
  let dc :=
    when (fun dc => notNil (PostStartCommand dc))
      (fun dc => set_PostStartCommand (expandInterface (PostStartCommand dc)) dc)
      dc in
  let dc :=
    when (fun dc => notNil (PostAttachCommand dc))
      (fun dc => set_PostAttachCommand (expandInterface (PostAttachCommand dc)) dc)
      dc in
  let dc := set_Mounts (map expandMount (Mounts dc)) dc in
  let dc := expandNonComposeBase dc in
  let dc := set_ContainerEnv (expandString <$> ContainerEnv dc) dc in
  let dc :=
    when (fun dc => negb (String.eqb (WorkspaceFolder dc) EmptyString))
      (fun dc => set_WorkspaceFolder (expandString (WorkspaceFolder dc)) dc)
      dc in
  let dc :=
    when (fun dc => negb (String.eqb (WorkspaceMount dc) EmptyString))
      (fun dc => set_WorkspaceMount (expandString (WorkspaceMount dc)) dc)
      dc in
  dc.

End Expand.

(** The first loop of [BuildDockerRunCommand] on one entry of
    [dc.Mounts]: the entry it leaves in the slice and the names it adds to
    [missing]. *)
Definition resolveMount (mount : Any) : Any * list string :=
  match mount with
  | AStr s =>
      let '(resolved, miss) := resolveLocalEnvVars LookupEnv s in
      (AStr resolved, miss)
  | AMap m =>
      let '(m, miss1) :=
        match getString m "source" with
        | Some src =>
            let '(resolved, miss) := resolveLocalEnvVars LookupEnv src in
            (<["source" := AStr resolved]> m, miss)
        | None => (m, [])
        end in
      let '(m, miss2) :=
        match getString m "target" with
        | Some tgt =>
            let '(resolved, miss) := resolveLocalEnvVars LookupEnv tgt in
            (<["target" := AStr resolved]> m, miss)
        | None => (m, [])
        end in
      (AMap m, miss1 ++ miss2)
  | _ => (mount, [])
  end.

(** the whole loop: the mounts after it and [missing] *)
Definition resolveMounts (mounts : list Any) : list Any * list string :=
  fold_left
    (fun '(done, missing) mount =>
       let '(mount, miss) := resolveMount mount in
       (done ++ [mount], missing ++ miss))
    mounts ([], []).

(** the loop of [BuildDockerRunCommand] that fills [config.Mounts] *)
Definition mountStrings (mounts : list Any) : list string :=
  fold_left
    (fun cfgMounts mount =>
       match mount with
       | AStr m => cfgMounts ++ [m]
       | AMap m =>
           let mountStr := buildMountStringFromMap m in
           if negb (String.eqb mountStr EmptyString)
           then cfgMounts ++ [mountStr] else cfgMounts
       | _ => cfgMounts
       end)
    mounts [].

(** [BuildDockerRunCommand] *)
Definition BuildDockerRunCommand (dc : DevContainer.v) (workspaceFolder : string)
  : DockerRunConfig.t + error :=
  let vars := GetStandardVariables workspaceFolder in
  let dc := ExpandVariables vars dc in
  let '(mounts, missing) := resolveMounts (Mounts dc) in
  let dc := set_Mounts mounts dc in
  if (0 <? length missing)%nat then
    inr ("unresolved localEnv variables in devcontainer mounts: "
         +:+ Join (uniqueStrings missing) ", ")
  else
    let cfgWorkspaceFolder := WorkspaceFolder dc in
    (* the image *)
    match
      match ImageContainer dc with
      | Some ic => Some (ImageContainer.Image ic)
      | None =>
          if negb (String.eqb (Image dc) EmptyString) then Some (Image dc)
          else None
      end
    with
    | None => inr "no image specified"
    | Some cfgImage =>
        (* workspace folder *)
        let cfgWorkspaceFolder :=
          match NonComposeBase dc ≫= NonComposeBase.WorkspaceFolder with
          | Some w => w
          | None =>
              if String.eqb cfgWorkspaceFolder EmptyString
              then "/workspaces/" +:+ filepath_Base workspaceFolder
              else cfgWorkspaceFolder
          end in
        (* workspace mount *)
        let cfgWorkspaceMount :=
          match NonComposeBase dc ≫= NonComposeBase.WorkspaceMount with
          | Some w => w
          | None =>
              if negb (String.eqb (WorkspaceMount dc) EmptyString)
              then WorkspaceMount dc
              else
                let absPath := filepath_Abs workspaceFolder in
                "type=bind,source=" +:+ absPath +:+ ",target="
                +:+ cfgWorkspaceFolder
          end in
        (* environment *)
        let cfgEnvironment :=
          map_fold (fun k v env => <[k := v]> env) ∅ (ContainerEnv dc) in
        (* ports, de-duplicated *)
        let st : list string * gset string := ([], ∅) in
        let st :=
          if notNil (AppPort dc) then addPorts st (parseAppPorts (AppPort dc))
          else st in
        let st :=
          match NonComposeBase dc with
          | Some n =>
              if notNil (NonComposeBase.AppPort n)
              then addPorts st (parseAppPorts (NonComposeBase.AppPort n))
              else st
          | None => st
          end in
        let st :=
          if notNil (ForwardPorts dc)
          then addPorts st (parseForwardPorts (ForwardPorts dc))
          else st in
        (* mounts *)
        let cfgMounts := mountStrings (Mounts dc) in
        let cfgInit := match Init dc with Some b => b | None => false end in
        let cfgPrivileged :=
          match Privileged dc with Some b => b | None => false end in
        let cfgUser :=
          match ContainerUser dc with
          | Some u => if negb (String.eqb u EmptyString) then u else EmptyString
          | None => EmptyString
          end in
        let cfgName :=
          match Name dc with
          | Some n => if negb (String.eqb n EmptyString) then n else EmptyString
          | None => EmptyString
          end in
        let cfgRunArgs :=
          match NonComposeBase dc with
          | Some n => NonComposeBase.RunArgs n
          | None => []
          end in
        inl (DockerRunConfig.mk cfgImage cfgWorkspaceMount cfgWorkspaceFolder
               cfgEnvironment (fst st) cfgMounts
               (CapAdd dc) (CapAdd dc) (SecurityOpt dc) (SecurityOpt dc)
               cfgInit cfgPrivileged cfgUser cfgName [] cfgRunArgs)
    end.

(** [ToDockerRunArgs] *)
Definition ToDockerRunArgs (c : DockerRunConfig.t) : list string :=
  let args := ["run"; "--rm"; "-it"] in
  let args :=
    if negb (String.eqb (DockerRunConfig.Name c) EmptyString)
    then args ++ ["--name"; DockerRunConfig.Name c] else args in
  let args :=
    if negb (String.eqb (DockerRunConfig.WorkspaceMount c) EmptyString)
       && negb (String.eqb (DockerRunConfig.WorkspaceMount c) "none")
    then args ++ ["-v"; DockerRunConfig.WorkspaceMount c] else args in
  let args :=
    if negb (String.eqb (DockerRunConfig.WorkspaceFolder c) EmptyString)
    then args ++ ["-w"; DockerRunConfig.WorkspaceFolder c] else args in
  let args :=
    fold_left (fun args '(k, v) => args ++ ["-e"; k +:+ "=" +:+ v])
      (rangeMap (DockerRunConfig.Environment c)) args in
  let args :=
    fold_left (fun args port => args ++ ["-p"; port])
      (DockerRunConfig.Ports c) args in
  let args := args ++ DockerRunConfig.RunArgs c in
  let args :=
    fold_left (fun args mountStr => args ++ ["--mount"; mountStr])
      (DockerRunConfig.Mounts c) args in
  let caps := DockerRunConfig.CapAdd c in
  let caps :=
    if (length caps =? 0)%nat && (0 <? length (DockerRunConfig.Capabilities c))%nat
    then DockerRunConfig.Capabilities c else caps in
  let args :=
    fold_left (fun args cap => args ++ ["--cap-add"; cap]) caps args in
  let opts := DockerRunConfig.SecurityOpt c in
  let opts :=
    if (length opts =? 0)%nat && (0 <? length (DockerRunConfig.SecurityOpts c))%nat
    then DockerRunConfig.SecurityOpts c else opts in
  let args :=
    fold_left (fun args opt => args ++ ["--security-opt"; opt]) opts args in
  let args := if DockerRunConfig.Init c then args ++ ["--init"] else args in
  let args :=
    if DockerRunConfig.Privileged c then args ++ ["--privileged"] else args in
  let args :=
    if negb (String.eqb (DockerRunConfig.User c) EmptyString)
    then args ++ ["-u"; DockerRunConfig.User c] else args in
  let args := args ++ [DockerRunConfig.Image c] in
  let args := args ++ DockerRunConfig.Command c in
  args.

End Synthesis.

(** ** Mount injection *)

(** Modelled from the spec: the type [api.Mount] of package [pkg/api],
    which is not among the sources.  An externally injected mount carries a
    type, a source, a target and a read-only flag (the fields [Type],
    [Source], [Target] and [ReadOnly] that [applyCustomMounts] reads). *)
Module ApiMount.
Record t : Type := mk {
  Type_ : string;
  Source : string;
  Target : string;
  ReadOnly : bool
}.
End ApiMount.

(** the object [applyCustomMounts] builds for one custom mount *)
Definition customObject (mount : ApiMount.t) : Any :=
  AMap (<["type" := AStr (ApiMount.Type_ mount)]>
          (<["source" := AStr (ApiMount.Source mount)]>
             (<["target" := AStr (ApiMount.Target mount)]>
                (<["readonly" := ABool (ApiMount.ReadOnly mount)]> ∅)))).

(** the targets recorded in the map [targets] *)
Definition customTargets (custom : list Any) : gset string :=
  fold_left
    (fun targets cm =>
       match cm with
       | AMap m =>
           match getString m "target" with
           | Some tgt =>
               if negb (String.eqb tgt EmptyString) then {[ tgt ]} ∪ targets
               else targets
           | None => targets
           end
       | _ => targets
       end)
    custom ∅.

(** the loop over the existing mounts *)
Definition keepExisting (targets : gset string) (existing : list Any) : list Any :=
  fold_left
    (fun merged em =>
       match em with
       | AMap mobj =>
           match getString mobj "target" with
           | Some tgt =>
               if negb (String.eqb tgt EmptyString) && bool_decide (tgt ∈ targets)
               then merged (* continue *)
               else merged ++ [em]
           | None => merged ++ [em]
           end
       | _ => merged ++ [em]
       end)
    existing [].

(** [Manager.applyCustomMounts]; it writes to [dc] and always returns a
    nil error, so the model returns the descriptor written. *)
Definition applyCustomMounts (customMounts : list ApiMount.t) (dc : DevContainer.v)
  : DevContainer.v :=
  let custom :=
    fold_left (fun custom mount => custom ++ [customObject mount]) customMounts [] in
  let targets := customTargets custom in
  let merged := keepExisting targets (Mounts dc) in
  let merged := merged ++ custom in
  let dc := set_Mounts merged dc in
  let dc := set_WorkspaceMount "none" dc in
  let dc :=
    when (fun dc => String.eqb (WorkspaceFolder dc) EmptyString)
      (set_WorkspaceFolder "/workspace") dc in
  dc.

(** ** Loading, inheritance and the manager *)

(** the result of a run bounded by a recursion depth *)
Inductive run (A : Type) : Type :=
  | Returns (a : A)
  | OutOfFuel.
Arguments Returns {A} a.
Arguments OutOfFuel {A}.

(** [Manager]; the docker client is represented by the two calls
    [Create] makes on it. *)
Module Manager.
Record t : Type := mk {
  devContainer : option DevContainer.v;
  customMounts : list ApiMount.t
}.
End Manager.

Section Loading.

(** The host: [os.ReadFile], the two uses of [json.Unmarshal] (into a
    [DevContainer] and into a [map[string]interface{}]), [filepath.Join]
    and [filepath.Dir]. *)
Variable ReadFile : string -> string + error.
Variable Unmarshal_DevContainer : string -> DevContainer.v + error.
Variable Unmarshal_raw : string -> gmap string Any + error.
Variable filepath_Join : list string -> string.
Variable filepath_Dir : string -> string.

(** [filepath.IsAbs] of a Unix build *)
Definition filepath_IsAbs (path : string) : bool := HasPrefix path "/".

(** the block of [LoadDevContainer] that reads [runArgs] from the raw
    document *)
Definition loadRunArgs (raw : gmap string Any) (dc : DevContainer.v) : DevContainer.v :=
  match raw !! "runArgs" with
  | Some (AArr runArgs) =>
      let n :=
        match NonComposeBase dc with
        | None => NonComposeBase.zero
        | Some n => n
        end in
      let args :=
        fold_left
          (fun args arg =>
             match arg with
             | AStr s => args ++ [s]
             | _ => args
             end)
          runArgs [] in
      set_NonComposeBase (Some (NonComposeBase.set_RunArgs args n)) dc
  | _ => dc
  end.

(** [LoadDevContainer] *)
Definition LoadDevContainer (path : string) : DevContainer.v + error :=
  match ReadFile path with
  | inr err => inr ("failed to read devcontainer.json: " +:+ err)
  | inl data =>
      match Unmarshal_DevContainer data with
      | inr err => inr ("failed to parse devcontainer.json: " +:+ err)
      | inl dc =>
          match Unmarshal_raw data with
          | inl raw =>
              let dc := loadRunArgs raw dc in
              let dc :=
                when (fun dc => negb (String.eqb (Image dc) EmptyString))
                  (fun dc => set_ImageContainer (Some (ImageContainer.mk (Image dc))) dc)
                  dc in
              let dc :=
                when (fun dc => notNil (DockerComposeFile dc))
                  (fun dc =>
                     set_ComposeContainer
                       (Some (ComposeContainer.mk (DockerComposeFile dc) (Service dc)))
                       dc)
                  dc in
              inl dc
          | inr _ => inl dc
          end
      end
  end.

(** the path of the base configuration an [extends] value names *)
Definition baseConfigPath (path extendsPath : string) : string :=
  if HasPrefix extendsPath "file://" then
    let baseDir := TrimPrefix extendsPath "file://" in
    filepath_Join [baseDir; ".devcontainer"; "devcontainer.json"]
  else if HasSuffix extendsPath ".json" then
    if filepath_IsAbs extendsPath then extendsPath
    else filepath_Join [filepath_Dir path; extendsPath]
  else
    let baseDir := filepath_Join [filepath_Dir path; extendsPath] in
    filepath_Join [baseDir; ".devcontainer"; "devcontainer.json"].

(** [LoadDevContainerWithExtends]; [depth] bounds the depth of the
    recursion, and [OutOfFuel] is a call that has not returned within it.
    The parameter [resolver] is never used and is left out. *)
Fixpoint LoadDevContainerWithExtends (depth : nat) (path : string)
  : run (option DevContainer.v + error) :=
  match depth with
  | O => OutOfFuel
  | S depth =>
      match ReadFile path with
      | inr err => Returns (inr ("failed to read devcontainer.json: " +:+ err))
      | inl data =>
          match Unmarshal_raw data with
          | inr err => Returns (inr ("failed to parse devcontainer.json: " +:+ err))
          | inl raw =>
              match LoadDevContainer path with
              | inr err => Returns (inr err)
              | inl dc =>
                  match raw !! "extends" with
                  | Some (AStr extendsPath) =>
                      match LoadDevContainerWithExtends depth
                              (baseConfigPath path extendsPath) with
                      | OutOfFuel => OutOfFuel
                      | Returns (inr err) =>
                          Returns (inr ("failed to load extends config: " +:+ err))
                      | Returns (inl baseConfig) =>
                          Returns (inl (MergeDevContainers baseConfig (Some dc)))
                      end
                  | _ => Returns (inl (Some dc))
                  end
              end
          end
      end
  end.

(** the rest of the host: the environment, the order of [range],
    [filepath.Base], [filepath.Abs], and the two calls on the docker
    client ([ValidateImage] gives the error, if any) *)
Variable LookupEnv : string -> option string.
Variable rangeMap : gmap string string -> list (string * string).
Variable filepath_Base : string -> string.
Variable filepath_Abs : string -> string.
Variable ValidateImage : string -> option error.
Variable CreateContainer : DockerRunConfig.t -> string + error.

(** the configuration [Create] falls back on *)
Definition defaultDevContainer : DevContainer.v :=
  set_WorkspaceFolder "/workspace"
    (set_ImageContainer (Some (ImageContainer.mk "alpine:latest"))
       DevContainer.zero).

(** [Manager.Create] *)
Definition Create (m : Manager.t) (nodePath : string) : string + error :=
  let dc :=
    match Manager.devContainer m with
    | Some dc => dc
    | None =>
        let devcontainerPath :=
          filepath_Join [nodePath; ".devcontainer"; "devcontainer.json"] in
        match LoadDevContainer devcontainerPath with
        | inl dc => dc
        | inr _ => defaultDevContainer
        end
    end in
  let dc :=
    if (0 <? length (Manager.customMounts m))%nat
    then applyCustomMounts (Manager.customMounts m) dc
    else dc in
  match BuildDockerRunCommand LookupEnv rangeMap filepath_Base filepath_Abs
          dc nodePath with
  | inr err => inr ("failed to build docker config: " +:+ err)
  | inl config =>
      match ValidateImage (DockerRunConfig.Image config) with
      | Some err => inr ("invalid image: " +:+ err)
      | None =>
          match CreateContainer config with
          | inr err => inr ("failed to create container: " +:+ err)
          | inl containerID => inl containerID
          end
      end
  end.

End Loading.

(** ** The merge engine on a store *)

(** [MergeDevContainers] once more, now with the memory it works on: a
    descriptor is reached through a pointer, and its environment map and its
    [NonComposeBase] structure are objects of their own that several
    descriptors can share.  This is the view in which one sees what the
    function writes to its inputs. *)
Module Store.

Definition loc : Type := positive.

(** a [DevContainer] structure in memory: [ContainerEnv] holds nil or the
    address of a map, [NonComposeBase] nil or the address of a structure *)
Abbreviation obj := (DevContainer.t (option loc) (option loc)).

Record t : Type := mk {
  descriptors : gmap loc obj;
  envs : gmap loc (gmap string string);
  nonCompose : gmap loc NonComposeBase.t
}.

Definition set_descriptors (v : gmap loc obj) (σ : t) : t :=
  mk v (envs σ) (nonCompose σ).
Definition set_envs (v : gmap loc (gmap string string)) (σ : t) : t :=
  mk (descriptors σ) v (nonCompose σ).
Definition set_nonCompose (v : gmap loc NonComposeBase.t) (σ : t) : t :=
  mk (descriptors σ) (envs σ) v.

(** the map a map field denotes; a nil map reads as the empty map *)
Definition envAt (σ : t) (p : option loc) : option (gmap string string) :=
  match p with
  | None => Some ∅
  | Some l => envs σ !! l
  end.

(** The environment block of [MergeDevContainers].  [result] is the local
    copy of the structure of [base]: its [ContainerEnv] field is the address
    it copied, so the assignments [result.ContainerEnv[k] = v] go to the map
    of [base] when [base] has one. *)
Definition mergeEnv (override : obj) (st : t * obj) : option (t * obj) :=
  let '(σ, result) := st in
  oenv ← envAt σ (ContainerEnv override);
  if (0 <? size oenv)%nat then
    let '(σ, result) :=
      match ContainerEnv result with
      | None =>
          (* result.ContainerEnv = make(map[string]string) *)
          let l := fresh (dom (envs σ)) in
          (set_envs (<[l := ∅]> (envs σ)) σ, set_ContainerEnv (Some l) result)
      | Some _ => (σ, result)
      end in
    l ← ContainerEnv result;
    renv ← envs σ !! l;
    Some (set_envs
            (<[l := map_fold (fun k v env => <[k := v]> env) renv oenv]> (envs σ))
            σ,
          result)
  else Some (σ, result).

(** The [NonComposeBase] block.  When [result] already points to a
    structure, the one of [base], the fields are assigned in that
    structure. *)
Definition mergeNonCompose (override : obj) (st : t * obj) : option (t * obj) :=
  let '(σ, result) := st in
  match NonComposeBase override with
  | Some ol =>
      match NonComposeBase result with
      | None => Some (σ, set_NonComposeBase (Some ol) result)
      | Some rl =>
          on ← nonCompose σ !! ol;
          rn ← nonCompose σ !! rl;
          Some (set_nonCompose
                  (<[rl := mergeNonComposeBase on rn]> (nonCompose σ)) σ,
                result)
      end
  | None => Some (σ, result)
  end.

(** [MergeDevContainers]: the store after the call and the pointer
    returned ([None] for the whole is a dangling pointer, which Go
    excludes). *)
Definition MergeDevContainers (σ : t) (base override : option loc)
  : option (t * option loc) :=
  match base, override with
  | None, _ => Some (σ, override)
  | _, None => Some (σ, base)
  | Some bl, Some ol =>
      base ← descriptors σ !! bl;
      override ← descriptors σ !! ol;
      (* result := *base *)
      let result := base in
      let result :=
        when (fun _ => negb (String.eqb (Image override) EmptyString))
          (set_Image (Image override)) result in
      let result :=
        when (fun _ => bool_decide (is_Some (ImageContainer override)))
          (set_ImageContainer (ImageContainer override)) result in
      let result :=
        when (fun _ => bool_decide (is_Some (Name override)))
          (set_Name (Name override)) result in
      '(σ, result) ← mergeEnv override (σ, result);
      let result :=
        when (fun _ => notNil (ForwardPorts override))
          (set_ForwardPorts (ForwardPorts override)) result in
      let result :=
        when (fun _ => (0 <? length (CapAdd override))%nat)
          (set_CapAdd (CapAdd override)) result in
      let result :=
        when (fun _ => (0 <? length (SecurityOpt override))%nat)
          (set_SecurityOpt (SecurityOpt override)) result in
      let result :=
        when (fun _ => bool_decide (is_Some (Features base))
                       || bool_decide (is_Some (Features override)))
          (set_Features (mergeFeatures (Features base) (Features override)))
          result in
      let result :=
        when (fun _ => (0 <? length (Mounts override))%nat)
          (set_Mounts (Mounts override)) result in
      '(σ, result) ← mergeNonCompose override (σ, result);
      let result :=
        when (fun _ => notNil (InitializeCommand override))
          (set_InitializeCommand (InitializeCommand override)) result in
      let result :=
        when (fun _ => notNil (OnCreateCommand override))
          (set_OnCreateCommand (OnCreateCommand override)) result in
      let result :=
        when (fun _ => notNil (UpdateContentCommand override))
          (set_UpdateContentCommand (UpdateContentCommand override)) result in
      let result :=
        when (fun _ => notNil (PostCreateCommand override))
          (set_PostCreateCommand (PostCreateCommand override)) result in
      let result :=
        when (fun _ => notNil (PostStartCommand override))
          (set_PostStartCommand (PostStartCommand override)) result in
      let result :=
        when (fun _ => notNil (PostAttachCommand override))
          (set_PostAttachCommand (PostAttachCommand override)) result in
      (* return &result *)
      let rl := fresh (dom (descriptors σ)) in
      Some (set_descriptors (<[rl := result]> (descriptors σ)) σ, Some rl)
  end.

(** the structure a [*NonComposeBase] field denotes *)
Definition nonComposeAt (σ : t) (p : option loc) : option (option NonComposeBase.t) :=
  match p with
  | None => Some None
  | Some nl => Some <$> nonCompose σ !! nl
  end.

(** the descriptor a pointer denotes in a store, as a value *)
Definition read (σ : t) (l : loc) : option DevContainer.v :=
  d ← descriptors σ !! l;
  env ← envAt σ (ContainerEnv d);
  n ← nonComposeAt σ (NonComposeBase d);
  Some (DevContainer.mk (Image d) (WorkspaceFolder d) (WorkspaceMount d) env
          (ContainerUser d) (ForwardPorts d) (AppPort d) (OnCreateCommand d)
          (UpdateContentCommand d) (PostCreateCommand d) (PostStartCommand d)
          (PostAttachCommand d) (InitializeCommand d) (Mounts d) (CapAdd d)
          (SecurityOpt d) (Init d) (Privileged d) (Features d) (Name d)
          (ImageContainer d) (DockerfileContainer d) (ComposeContainer d)
          (DockerComposeFile d) (Service d) n).

(** a store with a base at address 1 and an override at address 2, each
    with an environment map (at 10 and 11) and a [NonComposeBase] (at 20 and
    21) of its own *)
Definition emptyObj : obj :=
  DevContainer.mk EmptyString EmptyString EmptyString None None ANil ANil ANil
    ANil ANil ANil ANil ANil [] [] [] None None None None None EmptyString
    None ANil EmptyString None.

Definition sample : t :=
  mk (<[1%positive :=
          set_NonComposeBase (Some 20%positive)
            (set_ContainerEnv (Some 10%positive) (set_Image "node:16" emptyObj))]>
        (<[2%positive :=
             set_NonComposeBase (Some 21%positive)
               (set_ContainerEnv (Some 11%positive) (set_Image "node:18" emptyObj))]>
           ∅))
     (<[10%positive := <["A" := "1"]> (<["B" := "base"]> ∅)]>
        (<[11%positive := <["A" := "2"]> ∅]> ∅))
     (<[20%positive :=
          NonComposeBase.mk ["--network"; "host"] (Some "/base") None ANil]>
        (<[21%positive := NonComposeBase.mk [] (Some "/leaf") None ANil]> ∅)).

End Store.

(** * Notions of the specification *)

(** The list [l] without the repetitions of an earlier element: each
    element stays where it first occurs. *)
Fixpoint firstOccurrences (l : list string) : list string :=
  match l with
  | [] => []
  | x :: l' => x :: filter (fun y => y <> x) (firstOccurrences l')
  end.

(** The loop shared by [uniqueStrings] and the port loops of
    [BuildDockerRunCommand]: a set of the strings already emitted and the
    slice emitted so far. *)
Definition emitOnce (st : list string * gset string) (s : string)
  : list string * gset string :=
  if decide (s ∈ st.2) then st else (st.1 ++ [s], {[ s ]} ∪ st.2).

(** a flag repeated before each value of a list field *)
Definition flagEach (flag : string) (values : list string) : list string :=
  flat_map (fun v => [flag; v]) values.

(** a group of arguments that is emitted or left out as a whole *)
Definition optionalGroup (present : bool) (group : list string) : list string :=
  if present then group else [].

(** the first list unless it is empty, then the second: how
    [ToDockerRunArgs] chooses between a field and its alias *)
Definition orAlias (field alias : list string) : list string :=
  match field with [] => alias | _ => field end.

(** one candidate port, normalised: a bare number [N] is [N:N], a string
    is itself, anything else is no port *)
Definition normalizePort (p : Any) : option string :=
  match p with
  | ANum n => Some (Itoa n +:+ ":" +:+ Itoa n)
  | AStr s => Some s
  | _ => None
  end.

(** the ports an app-port field declares: one entry or an array of them *)
Definition declaredPorts (v : Any) : list string :=
  match v with
  | AArr l => omap normalizePort l
  | _ => option_list (normalizePort v)
  end.

(** the ports a forward-ports field declares: an array of entries *)
Definition forwardedPorts (v : Any) : list string :=
  match v with
  | AArr l => omap normalizePort l
  | _ => []
  end.

(** the candidates in their precedence: declared app-ports, the
    non-compose app-port, the forwarded ports *)
Definition portCandidates (dc : DevContainer.v) : list string :=
  declaredPorts (AppPort dc)
  ++ declaredPorts (match NonComposeBase dc with
                    | Some n => NonComposeBase.AppPort n
                    | None => ANil
                    end)
  ++ forwardedPorts (ForwardPorts dc).

(** what one resolved entry of the mount list contributes to the plan *)
Definition mountEntry (mount : Any) : list string :=
  match mount with
  | AStr m => [m]
  | AMap m => [buildMountStringFromMap m]
  | _ => []
  end.

Section Resolution.
Variable LookupEnv : string -> option string.

(** the names the mount loop of [BuildDockerRunCommand] reports missing,
    in the order it meets them *)
Definition missingNames (mounts : list Any) : list string :=
  flat_map (fun m => (resolveMount LookupEnv m).2) mounts.

(** the mount list that loop leaves behind *)
Definition resolvedMounts (mounts : list Any) : list Any :=
  map (fun m => (resolveMount LookupEnv m).1) mounts.
End Resolution.

(** the image the synthesizer selects, if any: the populated image
    selector *)
Definition selectedImage (dc : DevContainer.v) : option string :=
  match ImageContainer dc with
  | Some ic => Some (ImageContainer.Image ic)
  | None => if negb (String.eqb (Image dc) EmptyString) then Some (Image dc) else None
  end.

(** the canonical text of a mount of kind [k], optional source [src],
    target [t] and read-only flag [ro]:
    type=k[,source=src],target=t[,readonly] *)
Definition canonicalMount (k : string) (src : option string) (t : string)
    (ro : bool) : string :=
  "type=" +:+ k
  +:+ match src with Some s => ",source=" +:+ s | None => EmptyString end
  +:+ ",target=" +:+ t
  +:+ (if ro then ",readonly" else EmptyString).

(** the pieces of [s] between the occurrences of the byte [c]
    ([strings.Split] with a one-byte separator) *)
Fixpoint splitOn (c : ascii) (s : string) : list string :=
  match s with
  | EmptyString => [EmptyString]
  | String a s' =>
      if Ascii.eqb a c then EmptyString :: splitOn c s'
      else
        match splitOn c s' with
        | [] => [String a EmptyString]
        | piece :: pieces => String a piece :: pieces
        end
  end.

(** [strings.SplitN(part, "=", 2)] when it has two pieces *)
Fixpoint cutAtEquals (part : string) : option (string * string) :=
  match part with
  | EmptyString => None
  | String a s' =>
      if Ascii.eqb a "=" then Some (EmptyString, s')
      else
        match cutAtEquals s' with
        | Some (k, v) => Some (String a k, v)
        | None => None
        end
  end.

(** The target a textual mount names, as [CreateContainer] reads it in
    docker.go: the text is split at commas, each piece at its first equals
    sign, and the last piece with key [target] gives the target (empty when
    there is none). *)
Definition targetOfMountString (mountStr : string) : string :=
  fold_left
    (fun target part =>
       if String.eqb part "readonly" || String.eqb part "ro" || String.eqb part "rw"
       then target
       else
         match cutAtEquals part with
         | Some (k, v) => if String.eqb k "target" then v else target
         | None => target
         end)
    (splitOn "," mountStr) EmptyString.

(** a declared mount that injection removes: a structured mount whose
    [target] entry is a non-empty string equal to the target of an injected
    mount *)
Definition overridden (customMounts : list ApiMount.t) (em : Any) : bool :=
  match em with
  | AMap m =>
      match getString m "target" with
      | Some tgt =>
          negb (String.eqb tgt EmptyString)
          && bool_decide (tgt ∈ map ApiMount.Target customMounts)
      | None => false
      end
  | _ => false
  end.

(** a string of the descriptor as the plan carries it: after the
    expansion of the workspace variables and the resolution of the host
    references *)
Definition finalString (LookupEnv : string -> option string)
    (rangeMap : gmap string string -> list (string * string))
    (vars : gmap string string) (s : string) : string :=
  (resolveLocalEnvVars LookupEnv (expandString LookupEnv rangeMap vars s)).1.

(** whether the byte [c] occurs in [s] *)
Fixpoint hasByte (c : ascii) (s : string) : bool :=
  match s with
  | EmptyString => false
  | String a s' => Ascii.eqb a c || hasByte c s'
  end.

(** ** The extends chain *)

Section Chain.

Variable ReadFile : string -> string + error.
Variable Unmarshal_DevContainer : string -> DevContainer.v + error.
Variable Unmarshal_raw : string -> gmap string Any + error.
Variable filepath_Join : list string -> string.
Variable filepath_Dir : string -> string.

(** the document the document at [path] extends, when it loads and names
    one: the path [LoadDevContainerWithExtends] calls itself on *)
Definition extendsTarget (path : string) : option string :=
  match ReadFile path with
  | inr _ => None
  | inl data =>
      match Unmarshal_raw data with
      | inr _ => None
      | inl raw =>
          match LoadDevContainer ReadFile Unmarshal_DevContainer Unmarshal_raw path with
          | inr _ => None
          | inl _ =>
              match raw !! "extends" with
              | Some (AStr extendsPath) =>
                  Some (baseConfigPath filepath_Join filepath_Dir path extendsPath)
              | _ => None
              end
          end
      end
  end.

(** the chain from [path] ends after [n] links *)
Inductive chainEnds : string -> nat -> Prop :=
  | chain_last (path : string) :
      extendsTarget path = None -> chainEnds path 0
  | chain_link (path next : string) (n : nat) :
      extendsTarget path = Some next -> chainEnds next n -> chainEnds path (S n).

(** the document [k] links up the chain from [path], if the chain is that
    long *)
Fixpoint chainAt (k : nat) (path : string) : option string :=
  match k with
  | O => Some path
  | S k => extendsTarget path ≫= chainAt k
  end.

End Chain.

(** a descriptor without its two reference fields: what the value view
    and the store view of one descriptor have in common *)
Definition erase {E N : Type} (d : DevContainer.t E N) : DevContainer.t () () :=
  DevContainer.mk (Image d) (WorkspaceFolder d) (WorkspaceMount d) tt
    (ContainerUser d) (ForwardPorts d) (AppPort d) (OnCreateCommand d)
    (UpdateContentCommand d) (PostCreateCommand d) (PostStartCommand d)
    (PostAttachCommand d) (InitializeCommand d) (Mounts d) (CapAdd d)
    (SecurityOpt d) (Init d) (Privileged d) (Features d) (Name d)
    (ImageContainer d) (DockerfileContainer d) (ComposeContainer d)
    (DockerComposeFile d) (Service d) tt.

(** ** A concrete host and concrete descriptors *)

Module Sample.

(** a host whose environment defines [HOME] only *)
Definition LookupEnv (name : string) : option string :=
  if String.eqb name "HOME" then Some "/home/u" else None.

(** [range] visiting the entries in key order *)
Definition rangeMap (m : gmap string string) : list (string * string) :=
  map_to_list m.

(** [filepath.Base] and [filepath.Abs] at the workspace root
    [/home/u/app] *)
Definition filepath_Base (path : string) : string := "app".
Definition filepath_Abs (path : string) : string := path.

Abbreviation Build :=
  (BuildDockerRunCommand LookupEnv rangeMap filepath_Base filepath_Abs).

Definition workspace : string := "/home/u/app".

Definition withImage (image : string) : DevContainer.v :=
  set_ImageContainer (Some (ImageContainer.mk image))
    (set_Image image DevContainer.zero).

(** app-ports [5000], forward-ports [5000, 8080] *)
Definition ports : DevContainer.v :=
  set_AppPort (AArr [ANum 5000])
    (set_ForwardPorts (AArr [ANum 5000; ANum 8080]) (withImage "node:18")).

(** the plan built for [ports] *)
Definition portsPlan : DockerRunConfig.t :=
  DockerRunConfig.mk "node:18"
    "type=bind,source=/home/u/app,target=/workspaces/app" "/workspaces/app"
    ∅ ["5000:5000"; "8080:8080"] [] [] [] [] [] false false
    EmptyString EmptyString [] [].

(** only a dockerfile selector *)
Definition dockerfileOnly : DevContainer.v :=
  set_DockerfileContainer "Dockerfile" DevContainer.zero.

(** only a compose selector *)
Definition composeOnly : DevContainer.v :=
  set_ComposeContainer (Some (ComposeContainer.mk (AStr "compose.yml") "app"))
    DevContainer.zero.



(** a textual mount and a structured mount on /data, another mount
    between them, and an injected mount on /data *)
Definition declaredData : DevContainer.v :=
  set_Mounts
    [AStr "type=bind,source=/old,target=/data";
     AMap (<["type" := AStr "volume"]>
             (<["source" := AStr "cache"]> (<["target" := AStr "/cache"]> ∅)));
     AMap (<["type" := AStr "bind"]>
             (<["source" := AStr "/older"]> (<["target" := AStr "/data"]> ∅)))]
    (withImage "alpine:3").

Definition injectedData : ApiMount.t := ApiMount.mk "bind" "/new" "/data" false.



(** a base and an override that both set the workspace folder, the init
    and privileged flags, the user and the compose selector *)
Definition mergeBase : DevContainer.v :=
  set_WorkspaceFolder "/base"
    (set_Init (Some false)
       (set_Privileged (Some false)
          (set_ContainerUser (Some "root")
             (set_ComposeContainer
                (Some (ComposeContainer.mk (AStr "base.yml") "db"))
                (set_CapAdd ["SYS_PTRACE"] (withImage "node:16")))))).

Definition mergeOverride : DevContainer.v :=
  set_WorkspaceFolder "/leaf"
    (set_Init (Some true)
       (set_Privileged (Some true)
          (set_ContainerUser (Some "dev")
             (set_ComposeContainer
                (Some (ComposeContainer.mk (AStr "leaf.yml") "app"))
                (set_CapAdd ["NET_ADMIN"; "SYS_TIME"] (withImage "node:18")))))).

(** a host without any file, whose docker client accepts every image *)
Definition ReadFile (path : string) : string + error :=
  inr ("open " +:+ path +:+ ": no such file or directory").
Definition Unmarshal_DevContainer (data : string) : DevContainer.v + error :=
  inr "unexpected end of JSON input".
Definition Unmarshal_raw (data : string) : gmap string Any + error :=
  inr "unexpected end of JSON input".
Definition filepath_Join (elem : list string) : string := Join elem "/".
Definition filepath_Dir (path : string) : string := ".".
Definition ValidateImage (imageName : string) : option error := None.
Definition CreateContainer (config : DockerRunConfig.t) : string + error :=
  inl ("container-of-" +:+ DockerRunConfig.Image config).

Definition freshManager : Manager.t := Manager.mk None [].

(** a host with two documents: a leaf that extends the directory /base,
    and the document of that directory, which extends nothing *)
Definition leafPath : string := "/leaf/devcontainer.json".
Definition basePath : string := "/base/.devcontainer/devcontainer.json".

Definition chainReadFile (path : string) : string + error :=
  if String.eqb path leafPath then inl "leaf"
  else if String.eqb path basePath then inl "base"
  else ReadFile path.

Definition chainUnmarshal_raw (data : string) : gmap string Any + error :=
  if String.eqb data "leaf" then inl (<["extends" := AStr "file:///base"]> ∅)
  else inl ∅.

Definition chainUnmarshal_DevContainer (data : string) : DevContainer.v + error :=
  if String.eqb data "leaf"
  then inl (set_ContainerEnv (<["OVERRIDE_ME" := "leaf"]> ∅) DevContainer.zero)
  else inl (set_ContainerEnv
              (<["OVERRIDE_ME" := "base"]> (<["BASE_VAR" := "x"]> ∅))
              (set_Image "ubuntu:22.04" DevContainer.zero)).

(** a host with one document, which extends its own directory *)
Definition cyclePath : string := "/loop/.devcontainer/devcontainer.json".

Definition cycleReadFile (path : string) : string + error :=
  if String.eqb path cyclePath then inl "loop" else ReadFile path.

Definition cycleUnmarshal_raw (data : string) : gmap string Any + error :=
  inl (<["extends" := AStr "file:///loop"]> ∅).

Definition cycleUnmarshal_DevContainer (data : string) : DevContainer.v + error :=
  inl (withImage "alpine:3").

End Sample.

(** * Further functions of the package *)

(** ** More of Go's library *)

(** the line feed and the double quote of Go's string literals *)
Definition LF : string := String (ascii_of_nat 10) EmptyString.
Definition DQ : string := String (ascii_of_nat 34) EmptyString.

(** [strings.Contains] *)
Fixpoint Contains (s substr : string) : bool :=
  HasPrefix s substr
  || match s with
     | EmptyString => false
     | String _ s' => Contains s' substr
     end.

(** [strings.Count] for a non-empty [substr]: the number of its
    non-overlapping occurrences, counted from the left.  [skip] counts the
    bytes of a counted occurrence still to pass. *)
Fixpoint count_from (substr : string) (skip : nat) (s : string) : nat :=
  match s with
  | EmptyString => 0
  | String _ s' =>
      match skip with
      | S k => count_from substr k s'
      | O =>
          if HasPrefix s substr
          then S (count_from substr (String.length substr - 1) s')
          else count_from substr 0 s'
      end
  end.

Definition Count (s substr : string) : nat := count_from substr 0 s.

(** the value of a decimal digit byte *)
Definition digitValue (c : ascii) : option Z :=
  let n := Z.of_N (N_of_ascii c) in
  if (48 <=? n)%Z && (n <=? 57)%Z then Some (n - 48)%Z else None.

(** the value of a string of decimal digits, continuing from [acc] *)
Fixpoint digitsValue (acc : Z) (s : string) : option Z :=
  match s with
  | EmptyString => Some acc
  | String c s' =>
      match digitValue c with
      | Some d => digitsValue (acc * 10 + d) s'
      | None => None
      end
  end.

(** [strconv.Atoi] where [int] has 64 bits: an optional sign, then one or
    more decimal digits, and a value that fits; [None] is a non-nil
    error. *)
Definition Atoi (s : string) : option Z :=
  let '(neg, digits) :=
    match s with
    | String "-" r => (true, r)
    | String "+" r => (false, r)
    | _ => (false, s)
    end in
  match digits with
  | EmptyString => None
  | _ =>
      match digitsValue 0 digits with
      | Some n =>
          let n := if neg then (- n)%Z else n in
          if (- 2 ^ 63 <=? n)%Z && (n <=? 2 ^ 63 - 1)%Z then Some n else None
      | None => None
      end
  end.

(** the first error a loop over [l] returns, if [check] gives one *)
Fixpoint firstError {A : Type} (check : A -> option error) (l : list A)
  : option error :=
  match l with
  | [] => None
  | x :: l' =>
      match check x with
      | Some err => Some err
      | None => firstError check l'
      end
  end.

(** ** Validation of a plan *)

(** the body of the loop of [Validate] over [c.Mounts] *)
Definition validateMount (mount : string) : option error :=
  if negb (Contains mount "type=") then Some "mount missing type="
  else if negb (Contains mount "target=") then Some "mount missing target="
  else None.

(** the body of the loop of [Validate] over [c.Ports] *)
Definition validatePort (port : string) : option error :=
  let colonCount := Count port ":" in
  if (colonCount =? 0)%nat then
    match Atoi port with
    | None => Some ("invalid port format: " +:+ port)
    | Some _ => None
    end
  else if (1 <? colonCount)%nat then Some ("invalid port format: " +:+ port)
  else None.

(** [DockerRunConfig.Validate]: the error, if any *)
Definition Validate (c : DockerRunConfig.t) : option error :=
  if String.eqb (DockerRunConfig.Image c) EmptyString
  then Some "image is required"
  else
    match firstError validateMount (DockerRunConfig.Mounts c) with
    | Some err => Some err
    | None => firstError validatePort (DockerRunConfig.Ports c)
    end.

(** ** Docker command lines *)

(** the map [flagsWithValues] of [ValidateDockerCommand]: its keys, all
    mapped to true *)
Definition validatedFlagsWithValues : gset string :=
  list_to_set
    ["-e"; "--env"; "-p"; "--publish"; "-v"; "--volume"; "-w"; "--workdir";
     "-u"; "--user"; "--name"; "--mount"; "--cap-add"; "--security-opt";
     "--entrypoint"; "--network"].

(** the map [flagsWithValues] of [ExtractDockerImage] *)
Definition extractedFlagsWithValues : gset string :=
  list_to_set
    ["-e"; "--env"; "-p"; "--publish"; "-v"; "--volume"; "-w"; "--workdir";
     "-u"; "--user"; "--name"; "--mount"; "--cap-add"; "--security-opt";
     "--entrypoint"; "--network"; "--hostname"; "--domainname";
     "--mac-address"; "--ip"; "--ip6"; "--link"; "--label"; "--log-driver";
     "--log-opt"; "--memory"; "--memory-swap"; "--memory-reservation";
     "--cpus"; "--cpuset-cpus"; "--device"; "--group-add"; "--pid"; "--ipc";
     "--restart"; "--ulimit"; "--storage-opt"; "--tmpfs"; "--health-cmd";
     "--health-interval"; "--health-retries"; "--health-timeout";
     "--health-start-period"].

(** The loop of [ValidateDockerCommand] from index [i] on: [args] is
    [args[i:]].  It returns an error, or [hasImage] as the loop leaves it. *)
Fixpoint validateFrom (skipNext : bool) (args : list string) : bool + error :=
  match args with
  | [] => inl false
  | arg :: rest =>
      if skipNext then validateFrom false rest
      else if HasPrefix arg "-" then
        if bool_decide (arg ∈ validatedFlagsWithValues) then
          match rest with
          | [] => inr ("flag " +:+ arg +:+ " requires an argument")
          | nextArg :: _ =>
              if HasPrefix nextArg "-"
              then inr ("flag " +:+ arg +:+ " requires an argument")
              else validateFrom true rest
          end
        else validateFrom false rest
      else inl true (* break *)
  end.

(** [ValidateDockerCommand]: the error, if any *)
Definition ValidateDockerCommand (args : list string) : option error :=
  match args with
  | [] => None
  | arg0 :: rest =>
      if negb (String.eqb arg0 "run") then None
      else
        match validateFrom false rest with
        | inr err => Some err
        | inl hasImage =>
            if negb hasImage then Some "no image specified" else None
        end
  end.

(** the loop of [ExtractDockerImage] from index [i] on *)
Fixpoint extractFrom (skipNext : bool) (args : list string) : string + error :=
  match args with
  | [] => inr "image not found in docker command"
  | arg :: rest =>
      if skipNext then extractFrom false rest
      else if HasPrefix arg "-" then
        extractFrom (bool_decide (arg ∈ extractedFlagsWithValues)) rest
      else inl arg
  end.

(** [ExtractDockerImage]: the loop starts at index 1 *)
Definition ExtractDockerImage (args : list string) : string + error :=
  extractFrom false (tail args).

(** [DryRunDockerCommand]: the error, if any *)
Definition DryRunDockerCommand (args : list string) : option error :=
  match ValidateDockerCommand args with
  | Some err => Some err
  | None =>
      match args with
      | [] => None
      | arg0 :: _ =>
          if negb (String.eqb arg0 "run") then None
          else
            match ExtractDockerImage args with
            | inr err => Some err
            | inl image =>
                if Contains image "this-image-definitely-does-not-exist"
                then Some ("invalid image name: " +:+ image)
                else if negb (Contains image ":") && negb (Contains image "/")
                then
                  if negb (String.eqb image "alpine")
                     && negb (String.eqb image "ubuntu")
                     && negb (String.eqb image "busybox")
                     && negb (String.eqb image "nginx")
                     && negb (String.eqb image "node")
                     && negb (String.eqb image "python")
                     && negb (String.eqb image "golang")
                     && negb (String.eqb image "hello-world")
                  then Some ("potentially invalid image name: " +:+ image)
                  else None
                else None
            end
      end
  end.

(** ** Mount strings *)

(** [Mount] *)
Module Mount.
Record t : Type := mk {
  Type_ : string;
  Source : string;
  Target : string;
  ReadOnly : bool
}.
End Mount.

(** [buildMountStringFromMount] *)
Definition buildMountStringFromMount (mount : Mount.t) : string :=
  let result := "type=" +:+ Mount.Type_ mount in
  let result :=
    if negb (String.eqb (Mount.Source mount) EmptyString)
    then result +:+ ",source=" +:+ Mount.Source mount else result in
  let result := result +:+ ",target=" +:+ Mount.Target mount in
  let result :=
    if Mount.ReadOnly mount then result +:+ ",readonly" else result in
  result.

(** [parseMounts] *)
Definition parseMounts (mounts : Any) : list Mount.t :=
  match mounts with
  | AArr v =>
      fold_left
        (fun result mount =>
           match mount with
           | AMap m =>
               let mountObj := Mount.mk EmptyString EmptyString EmptyString false in
               let mountObj :=
                 match getString m "type" with
                 | Some t =>
                     Mount.mk t (Mount.Source mountObj) (Mount.Target mountObj)
                       (Mount.ReadOnly mountObj)
                 | None => mountObj
                 end in
               let mountObj :=
                 match getString m "source" with
                 | Some s =>
                     Mount.mk (Mount.Type_ mountObj) s (Mount.Target mountObj)
                       (Mount.ReadOnly mountObj)
                 | None => mountObj
                 end in
               let mountObj :=
                 match getString m "target" with
                 | Some t =>
                     Mount.mk (Mount.Type_ mountObj) (Mount.Source mountObj) t
                       (Mount.ReadOnly mountObj)
                 | None => mountObj
                 end in
               let mountObj :=
                 match getBool m "readOnly" with
                 | Some r =>
                     Mount.mk (Mount.Type_ mountObj) (Mount.Source mountObj)
                       (Mount.Target mountObj) r
                 | None => mountObj
                 end in
               result ++ [mountObj]
           | _ => result
           end)
        v []
  | _ => []
  end.

(** ** The mounts handed to the engine *)

(** [mount.Mount] of the docker client library, with the fields
    [CreateContainer] sets; a [mount.Type] is a string, and [TypeBind],
    [TypeVolume] and [TypeTmpfs] are "bind", "volume" and "tmpfs". *)
Module DockerMount.
Record t : Type := mk {
  Type_ : string;
  Source : string;
  Target : string;
  ReadOnly : bool
}.
End DockerMount.

(** One step of the loop of [CreateContainer] over the pieces of a mount
    string: the state is [mountParts] and [mountReadOnly]. *)
Definition mountPart (st : gmap string string * bool) (part : string)
  : gmap string string * bool :=
  let '(mountParts, mountReadOnly) := st in
  if String.eqb part "readonly" || String.eqb part "ro" then (mountParts, true)
  else if String.eqb part "rw" then (mountParts, false)
  else
    match cutAtEquals part with
    | Some (k, v) => (<[k := v]> mountParts, mountReadOnly)
    | None => (mountParts, mountReadOnly)
    end.

(** the same step in the loop over the pieces of the workspace mount,
    which has no case for "rw" *)
Definition workspaceMountPart (st : gmap string string * bool) (part : string)
  : gmap string string * bool :=
  let '(mountParts, mountReadOnly) := st in
  if String.eqb part "readonly" || String.eqb part "ro" then (mountParts, true)
  else
    match cutAtEquals part with
    | Some (k, v) => (<[k := v]> mountParts, mountReadOnly)
    | None => (mountParts, mountReadOnly)
    end.

(** the [mount.Mount] built from [mountParts] and [mountReadOnly] *)
Definition dockerMountOf (st : gmap string string * bool) : DockerMount.t :=
  let '(mountParts, mountReadOnly) := st in
  let mountType := "bind" in
  let mountType :=
    let t := default EmptyString (mountParts !! "type") in
    if String.eqb t "volume" then "volume"
    else if String.eqb t "tmpfs" then "tmpfs"
    else mountType in
  DockerMount.mk mountType
    (default EmptyString (mountParts !! "source"))
    (default EmptyString (mountParts !! "target"))
    mountReadOnly.

(** the [mount.Mount] the loop of [CreateContainer] over [config.Mounts]
    builds from one mount string *)
Definition mountOfString (mountStr : string) : DockerMount.t :=
  dockerMountOf (fold_left mountPart (splitOn "," mountStr) (∅, false)).

(** One turn of that loop: [acc] is the error returned, or
    [hostConfig.Mounts] so far. *)
Definition addHostMount (acc : list DockerMount.t + error) (mountStr : string)
  : list DockerMount.t + error :=
  match acc with
  | inr err => inr err
  | inl hostMounts =>
      let dockerMount := mountOfString mountStr in
      if String.eqb (DockerMount.Target dockerMount) EmptyString
      then inr ("mount target is empty for mount string: " +:+ mountStr)
      else inl (hostMounts ++ [dockerMount])
  end.

(** The part of [DockerClient.CreateContainer] that fills
    [hostConfig.Mounts], up to the call of the engine: the mounts of the
    plan, then the workspace mount. *)
Definition hostConfigMounts (config : DockerRunConfig.t)
  : list DockerMount.t + error :=
  match fold_left addHostMount (DockerRunConfig.Mounts config) (inl []) with
  | inr err => inr err
  | inl hostMounts =>
      if negb (String.eqb (DockerRunConfig.WorkspaceMount config) EmptyString)
         && negb (String.eqb (DockerRunConfig.WorkspaceMount config) "none")
      then
        inl (hostMounts
             ++ [dockerMountOf
                   (fold_left workspaceMountPart
                      (splitOn "," (DockerRunConfig.WorkspaceMount config))
                      (∅, false))])
      else inl hostMounts
  end.

(** ** Lifecycle commands *)

(** [LifecycleCommand] *)
Module LifecycleCommand.
#[warnings="-register-all"]
Inductive t : Type :=
  mk (Type_ : string) (Command : string) (Args : list string)
     (Commands : gmap string t) (Object : gmap string Any).

Definition Type_ (lc : t) : string := let '(mk x _ _ _ _) := lc in x.
Definition Command (lc : t) : string := let '(mk _ x _ _ _) := lc in x.
Definition Args (lc : t) : list string := let '(mk _ _ x _ _) := lc in x.
Definition Commands (lc : t) : gmap string t := let '(mk _ _ _ x _) := lc in x.
Definition Object (lc : t) : gmap string Any := let '(mk _ _ _ _ x) := lc in x.
End LifecycleCommand.

(** [%T] of [fmt] for a decoded value *)
Definition typeName (v : Any) : string :=
  match v with
  | ANil => "<nil>"
  | ABool _ => "bool"
  | ANum _ => "float64"
  | AStr _ => "string"
  | AArr _ => "[]interface {}"
  | AMap _ => "map[string]interface {}"
  end.

(** the loop of [ParseLifecycleCommand] over the elements of an array *)
Fixpoint parseArgs (args : list string) (v : list Any) : list string + error :=
  match v with
  | [] => inl args
  | AStr s :: rest => parseArgs (args ++ [s]) rest
  | item :: _ => inr ("array element must be string, got " +:+ typeName item)
  end.

(** [ParseLifecycleCommand]: [inl None] is the pair of nils returned for a
    nil command *)
Fixpoint ParseLifecycleCommand (cmd : Any) : option LifecycleCommand.t + error :=
  match cmd with
  | ANil => inl None
  | AStr v => inl (Some (LifecycleCommand.mk "string" v [] ∅ ∅))
  | AArr v =>
      match parseArgs [] v with
      | inl args => inl (Some (LifecycleCommand.mk "array" EmptyString args ∅ ∅))
      | inr err => inr err
      end
  | AMap v =>
      let commands :=
        omap (fun cmdValue =>
                match ParseLifecycleCommand cmdValue with
                | inl (Some nestedCmd) => Some nestedCmd
                | _ => None
                end) v in
      inl (Some (LifecycleCommand.mk "object" EmptyString [] commands v))
  | _ => inr ("unsupported command type: " +:+ typeName cmd)
  end.

(** [LifecycleCommand.ToShellCommand] *)
Definition ToShellCommand (lc : option LifecycleCommand.t) : string :=
  match lc with
  | None => EmptyString
  | Some lc =>
      if String.eqb (LifecycleCommand.Type_ lc) "string"
      then LifecycleCommand.Command lc
      else if String.eqb (LifecycleCommand.Type_ lc) "array" then
        if (length (LifecycleCommand.Args lc) =? 0)%nat then EmptyString
        else
          let quotedArgs :=
            map (fun arg =>
                   if Contains arg " " then DQ +:+ arg +:+ DQ else arg)
              (LifecycleCommand.Args lc) in
          Join quotedArgs " "
      else if String.eqb (LifecycleCommand.Type_ lc) "object"
      then "# Multiple commands:"
      else EmptyString
  end.

(** one of the six blocks of [ProcessLifecycleCommands] *)
Definition processCommand (name : string) (cmd : Any)
    (commands : gmap string LifecycleCommand.t) : gmap string LifecycleCommand.t :=
  if notNil cmd then
    match ParseLifecycleCommand cmd with
    | inl (Some cmd) => <[name := cmd]> commands
    | _ => commands
    end
  else commands.

(** [ProcessLifecycleCommands] *)
Definition ProcessLifecycleCommands (dc : DevContainer.v)
  : gmap string LifecycleCommand.t + error :=
  let commands := ∅ in
  let commands := processCommand "initializeCommand" (InitializeCommand dc) commands in
  let commands := processCommand "onCreateCommand" (OnCreateCommand dc) commands in
  let commands :=
    processCommand "updateContentCommand" (UpdateContentCommand dc) commands in
  let commands := processCommand "postCreateCommand" (PostCreateCommand dc) commands in
  let commands := processCommand "postStartCommand" (PostStartCommand dc) commands in
  let commands := processCommand "postAttachCommand" (PostAttachCommand dc) commands in
  inl commands.

(** What [GetLifecycleScript] writes for the command [name]: [ending]
    follows the shell command. *)
Definition writeCommand (commands : gmap string LifecycleCommand.t)
    (ending : string) (script name : string) : string :=
  match commands !! name with
  | Some cmd =>
      let script := script +:+ ("# " +:+ name +:+ LF) in
      let shellCmd := ToShellCommand (Some cmd) in
      if negb (String.eqb shellCmd EmptyString)
      then script +:+ (shellCmd +:+ ending) else script
  | None => script
  end.

(** [GetLifecycleScript] *)
Definition GetLifecycleScript (dc : DevContainer.v) (phase : string)
  : string + error :=
  match ProcessLifecycleCommands dc with
  | inr err => inr err
  | inl commands =>
      let script := "#!/bin/sh" +:+ LF +:+ "set -e" +:+ LF +:+ LF in
      if String.eqb phase "create" then
        let order :=
          ["initializeCommand"; "onCreateCommand"; "updateContentCommand";
           "postCreateCommand"] in
        inl (fold_left (writeCommand commands LF) order script)
      else if String.eqb phase "start" then
        inl (writeCommand commands LF script "postStartCommand")
      else if String.eqb phase "attach" then
        inl (writeCommand commands LF script "postAttachCommand")
      else if String.eqb phase EmptyString then
        let order :=
          ["initializeCommand"; "onCreateCommand"; "updateContentCommand";
           "postCreateCommand"; "postStartCommand"; "postAttachCommand"] in
        inl (fold_left (writeCommand commands (LF +:+ LF)) order script)
      else inr ("unknown phase: " +:+ phase)
  end.

(** ** Host requirements *)

(** [DevContainerCommonHostRequirements] *)
Module DevContainerCommonHostRequirements.
Record t : Type := mk {
  CPUs : string;
  Memory : string;
  Storage : string;
  Gpu : string
}.
End DevContainerCommonHostRequirements.

(** [HostRequirementsCheck]: the error, if any *)
Definition HostRequirementsCheck (req : option DevContainerCommonHostRequirements.t)
  : option error :=
  match req with
  | None => None
  | Some req =>
      if negb (String.eqb (DevContainerCommonHostRequirements.CPUs req) EmptyString)
      then
        match Atoi (DevContainerCommonHostRequirements.CPUs req) with
        | Some cpus =>
            if (cpus <=? 0)%Z
            then Some ("invalid CPU count: "
                       +:+ DevContainerCommonHostRequirements.CPUs req)
            else None
        | None =>
            Some ("invalid CPU count: "
                  +:+ DevContainerCommonHostRequirements.CPUs req)
        end
      else None
  end.

(** ** Remote environments *)

(** [mergeRemoteEnv].  Here a nil map and an empty map differ, so a
    [map[string]*string] is an [option] of a map to [option string]. *)
Definition mergeRemoteEnv (base override : option (gmap string (option string)))
  : option (gmap string (option string)) :=
  match base, override with
  | None, None => None
  | _, _ =>
      let result : gmap string (option string) := ∅ in
      let result :=
        map_fold (fun k v result => <[k := v]> result) result (default ∅ base) in
      let result :=
        map_fold (fun k v result => <[k := v]> result) result (default ∅ override) in
      Some result
  end.

(** ** Shapes of a descriptor *)

(** a port field that holds numbers only: nothing, one number, or an
    array of numbers *)
Definition numericPorts (v : Any) : Prop :=
  match v with
  | ANil | ANum _ => True
  | AArr l => Forall (fun p => exists n, p = ANum n) l
  | _ => False
  end.

(** a structured mount with a textual target *)
Definition structuredMount (mount : Any) : Prop :=
  exists m t, mount = AMap m /\ getString m "target" = Some t.

(** a run-arg that is a flag carrying its own value, if any: it starts
    with a dash and is not one of the flags that take the next argument *)
Definition selfContainedFlag (arg : string) : Prop :=
  HasPrefix arg "-" = true /\ arg ∉ extractedFlagsWithValues.

(** no dash in front *)
Definition noDash (s : string) : Prop := HasPrefix s "-" = false.

(** a plan none of whose values starts with a dash *)
Definition dashFree
    (rangeMap : gmap string string -> list (string * string))
    (c : DockerRunConfig.t) : Prop :=
  noDash (DockerRunConfig.Name c)
  /\ noDash (DockerRunConfig.WorkspaceMount c)
  /\ noDash (DockerRunConfig.WorkspaceFolder c)
  /\ Forall (fun '(k, _) => noDash k) (rangeMap (DockerRunConfig.Environment c))
  /\ Forall noDash (DockerRunConfig.Ports c)
  /\ Forall noDash (DockerRunConfig.Mounts c)
  /\ Forall noDash (DockerRunConfig.CapAdd c)
  /\ Forall noDash (DockerRunConfig.Capabilities c)
  /\ Forall noDash (DockerRunConfig.SecurityOpt c)
  /\ Forall noDash (DockerRunConfig.SecurityOpts c)
  /\ noDash (DockerRunConfig.User c)
  /\ noDash (DockerRunConfig.Image c).

(** a stretch of arguments the loop of [ExtractDockerImage] passes over,
    leaving [skipNext] false *)
Definition passedOver (seg : list string) : Prop :=
  forall rest, extractFrom false (seg ++ rest) = extractFrom false rest.

(** a stretch of arguments the loop of [ValidateDockerCommand] passes
    over, leaving [skipNext] false *)
Definition accepted (seg : list string) : Prop :=
  forall rest, validateFrom false (seg ++ rest) = validateFrom false rest.

(** the first lines of every lifecycle script *)
Definition scriptHeader : string := "#!/bin/sh" +:+ LF +:+ "set -e" +:+ LF +:+ LF.

(** an argument of an array command as [ToShellCommand] writes it *)
Definition quoted (arg : string) : string :=
  if Contains arg " " then DQ +:+ arg +:+ DQ else arg.

(** the command [ProcessLifecycleCommands] records for a value *)
Definition recorded (cmd : Any) : option LifecycleCommand.t :=
  match ParseLifecycleCommand cmd with
  | inl (Some c) => Some c
  | _ => None
  end.

(** a command value that is neither nil, a string, an array of strings
    nor an object *)
Definition malformed (cmd : Any) : Prop :=
  match cmd with
  | ABool _ | ANum _ => True
  | AArr v => Exists (fun item => forall s, item <> AStr s) v
  | _ => False
  end.

(** the line a shell command takes in a script, none when it is empty *)
Definition scriptLine (shellCmd : string) : string :=
  if String.eqb shellCmd EmptyString then EmptyString else shellCmd +:+ LF.

(** what a script holds for the command [name] of value [cmd]: a comment
    with the name and the line of the shell command, or nothing when no
    command is recorded *)
Definition scriptSection (name : string) (cmd : Any) : string :=
  match recorded cmd with
  | Some c => "# " +:+ name +:+ LF +:+ scriptLine (ToShellCommand (Some c))
  | None => EmptyString
  end.

(** ** Host references *)

(** every byte of [s] satisfies [p] *)
Fixpoint allBytes (p : ascii -> bool) (s : string) : bool :=
  match s with
  | EmptyString => true
  | String c s' => p c && allBytes p s'
  end.

(** the text of a reference to the host variable [name], with or without
    a default *)
Definition reference (name : string) (def : option string) : string :=
  "${localEnv:" +:+ name
  +:+ match def with Some d => ":" +:+ d | None => EmptyString end
  +:+ "}".

(** ** More concrete descriptors and plans *)

Module Example.

(** a service with a structured mount, numeric ports, an environment
    entry that names a workspace variable, and a run-arg *)
Definition service : DevContainer.v :=
  set_Mounts
    [AMap (<["type" := AStr "volume"]>
             (<["source" := AStr "cache"]> (<["target" := AStr "/cache"]> ∅)))]
    (set_AppPort (ANum 3000)
       (set_ForwardPorts (AArr [ANum 8080])
          (set_ContainerEnv (<["ROOT" := "${containerWorkspaceFolder}"]> ∅)
             (set_NonComposeBase
                (Some (NonComposeBase.mk ["--network=host"] None None ANil))
                (Sample.withImage "node:18"))))).

(** the plan built for [service] on the sample host *)
Definition servicePlan : DockerRunConfig.t :=
  DockerRunConfig.mk "node:18"
    "type=bind,source=/home/u/app,target=/workspaces/app" "/workspaces/app"
    (<["ROOT" := "/workspaces/app"]> ∅) ["3000:3000"; "8080:8080"]
    ["type=volume,source=cache,target=/cache"]
    [] [] [] [] false false EmptyString EmptyString [] ["--network=host"].

(** the plan built for [Sample.declaredData] after [Sample.injectedData]
    is injected *)
Definition injectedPlan : DockerRunConfig.t :=
  DockerRunConfig.mk "alpine:3" "none" "/workspace" ∅ []
    ["type=bind,source=/old,target=/data";
     "type=volume,source=cache,target=/cache";
     "type=bind,source=/new,target=/data"]
    [] [] [] [] false false EmptyString EmptyString [] [].

(** a plan whose second mount string names no target *)
Definition targetlessPlan : DockerRunConfig.t :=
  DockerRunConfig.mk "alpine:3" "none" "/workspace" ∅ []
    ["type=bind,source=/a,target=/a"; "type=bind,source=/b"; "type=tmpfs"]
    [] [] [] [] false false EmptyString EmptyString [] [].

(** the two descriptors of [Store.sample], as values *)
Definition storedBase : DevContainer.v :=
  set_NonComposeBase
    (Some (NonComposeBase.mk ["--network"; "host"] (Some "/base") None ANil))
    (set_ContainerEnv (<["A" := "1"]> (<["B" := "base"]> ∅))
       (set_Image "node:16" DevContainer.zero)).

Definition storedOverride : DevContainer.v :=
  set_NonComposeBase (Some (NonComposeBase.mk [] (Some "/leaf") None ANil))
    (set_ContainerEnv (<["A" := "2"]> ∅) (set_Image "node:18" DevContainer.zero)).

(** the base document of the sample chain, as [LoadDevContainer] gives it *)
Definition loadedBase : DevContainer.v :=
  set_ImageContainer (Some (ImageContainer.mk "ubuntu:22.04"))
    (set_ContainerEnv (<["OVERRIDE_ME" := "base"]> (<["BASE_VAR" := "x"]> ∅))
       (set_Image "ubuntu:22.04" DevContainer.zero)).

(** a structured volume mount *)
Definition cacheMount : gmap string Any :=
  <["type" := AStr "volume"]>
    (<["source" := AStr "cache"]>
       (<["target" := AStr "/cache"]> (<["readonly" := ABool true]> ∅))).

End Example.

(** * Properties *)

(** ** Loops that append *)

Lemma fold_left_append {A B : Type} (g : B -> list A) (l : list B) (acc : list A) :
  fold_left (fun acc x => acc ++ g x) l acc = acc ++ flat_map g l.
Proof.
  revert acc. induction l as [|x l IH]; intros acc; simpl.
  - by rewrite app_nil_r.
  - by rewrite IH, app_assoc.
Qed.

Lemma flat_map_singleton {A B : Type} (f : A -> B) (l : list A) :
  flat_map (fun x => [f x]) l = map f l.
Proof. induction l as [|x l IH]; simpl; [done | by rewrite IH]. Qed.

Lemma fold_left_ext_in {A B : Type} (f g : A -> B -> A) (l : list B) (a : A) :
  (forall a x, f a x = g a x) -> fold_left f l a = fold_left g l a.
Proof.
  intros E. revert a. induction l as [|x l IH]; intros a; simpl; [done|].
  by rewrite E, IH.
Qed.

(** A projection reads through a guarded assignment to another field. *)
Lemma proj_when {A B : Type} (F : A -> B) (c : A -> bool) (f : A -> A) (x : A) :
  (forall y, F (f y) = F y) -> F (when c f x) = F x.
Proof. intros H. unfold when. destruct (c x); [apply H | reflexivity]. Qed.

(** ** First occurrences *)

Lemma firstOccurrences_elem (x : string) (l : list string) :
  x ∈ firstOccurrences l <-> x ∈ l.
Proof.
  induction l as [|y l IH]; simpl; [done|].
  rewrite !elem_of_cons, list_elem_of_filter, IH.
  destruct (decide (x = y)); naive_solver.
Qed.

Lemma firstOccurrences_NoDup (l : list string) : NoDup (firstOccurrences l).
Proof.
  induction l as [|y l IH]; simpl; [constructor|].
  constructor.
  - rewrite list_elem_of_filter. naive_solver.
  - by apply NoDup_filter.
Qed.

Lemma firstOccurrences_sublist (l : list string) : sublist (firstOccurrences l) l.
Proof.
  induction l as [|y l IH]; simpl; [done|].
  apply sublist_skip. etrans; [apply sublist_filter|done].
Qed.

Lemma filter_not_in_nil (l : list string) :
  filter (fun y => y ∉ @nil string) l = l.
Proof.
  induction l as [|y l IH]; [done|].
  rewrite filter_cons, decide_True by set_solver. by rewrite IH.
Qed.

Lemma filter_not_in_snoc (out : list string) (x : string) (l : list string) :
  filter (fun y => y ∉ out ++ [x]) l
  = filter (fun y => y ∉ out) (filter (fun y => y <> x) l).
Proof.
  induction l as [|y l IH]; [done|].
  rewrite (filter_cons (fun y => y <> x)).
  destruct (decide (y <> x)) as [Hne|Heq].
  - rewrite !filter_cons. rewrite IH.
    destruct (decide (y ∉ out ++ [x])) as [H1|H1], (decide (y ∉ out)) as [H2|H2];
      try done; exfalso; set_solver.
  - rewrite filter_cons. rewrite decide_False by set_solver. done.
Qed.

Lemma emitOnce_fold (l out : list string) (seen : gset string) :
  seen = list_to_set out ->
  fold_left emitOnce l (out, seen)
  = (out ++ filter (fun y => y ∉ out) (firstOccurrences l),
     list_to_set (out ++ filter (fun y => y ∉ out) (firstOccurrences l))).
Proof.
  revert out seen. induction l as [|x l IH]; intros out seen ->; simpl.
  - by rewrite app_nil_r.
  - unfold emitOnce at 2. simpl.
    destruct (decide (x ∈ (list_to_set out : gset string))) as [Hin|Hnin].
    + rewrite IH by done. rewrite elem_of_list_to_set in Hin.
      rewrite filter_cons, decide_False by (intros H; by apply H).
      assert (filter (fun y => y ∉ out) (filter (fun y => y <> x) (firstOccurrences l))
              = filter (fun y => y ∉ out) (firstOccurrences l)) as ->; [|done].
      rewrite list_filter_filter. apply list_filter_iff. intros y. set_solver.
    + rewrite elem_of_list_to_set in Hnin.
      rewrite IH by (rewrite list_to_set_app_L; set_solver).
      rewrite filter_cons, decide_True by done.
      rewrite filter_not_in_snoc, <- app_assoc. done.
Qed.

Lemma uniqueStrings_fold (l out : list string) (seen : gset string) :
  fold_left
    (fun '(seen, out) s =>
       if decide (s ∈ (seen : gset string)) then (seen, out)
       else ({[ s ]} ∪ seen, out ++ [s]))
    l (seen, out)
  = prod_swap (fold_left emitOnce l (out, seen)).
Proof.
  revert out seen. induction l as [|x l IH]; intros out seen; [done|].
  cbn [fold_left]. unfold emitOnce at 2. cbn [fst snd].
  destruct (decide (x ∈ seen)); apply IH.
Qed.

Lemma uniqueStrings_spec (l : list string) : uniqueStrings l = firstOccurrences l.
Proof.
  unfold uniqueStrings.
  rewrite uniqueStrings_fold, emitOnce_fold by done. simpl.
  apply filter_not_in_nil.
Qed.

Lemma addPorts_spec (l out : list string) (seen : gset string) :
  addPorts (out, seen) l = fold_left emitOnce l (out, seen).
Proof.
  unfold addPorts. revert out seen.
  induction l as [|x l IH]; intros out seen; simpl; [done|].
  unfold emitOnce at 2. simpl. destruct (decide (x ∈ seen)); apply IH.
Qed.

(** ** The argument vector *)

Lemma fold_left_append_pair {A K V : Type} (g : K -> V -> list A)
    (l : list (K * V)) (acc : list A) :
  fold_left (fun acc '(k, v) => acc ++ g k v) l acc
  = acc ++ flat_map (fun '(k, v) => g k v) l.
Proof.
  revert acc. induction l as [|[k v] l IH]; intros acc; simpl.
  - by rewrite app_nil_r.
  - by rewrite IH, app_assoc.
Qed.

Lemma append_optional (b : bool) (args group : list string) :
  (if b then args ++ group else args) = args ++ optionalGroup b group.
Proof. destruct b; simpl; by rewrite ?app_nil_r. Qed.

Lemma alias_choice (field alias : list string) :
  (if (length field =? 0)%nat && (0 <? length alias)%nat then alias else field)
  = orAlias field alias.
Proof. by destruct field, alias. Qed.

(** C7.  [ToDockerRunArgs] emits, in this order: the base flags, the
    name, the workspace mount, the working directory, one [-e] per
    environment entry visited, the port flags, the extra run-args, the mount
    flags, the capability flags, the security-opt flags, the init flag, the
    privileged flag, the user flag, the image and the command tokens; each
    optional group is left out when its field is empty or false. *)
Theorem ToDockerRunArgs_fixed_order
    (rangeMap : gmap string string -> list (string * string))
    (c : DockerRunConfig.t) :
  ToDockerRunArgs rangeMap c
  = ["run"; "--rm"; "-it"]
    ++ optionalGroup (negb (String.eqb (DockerRunConfig.Name c) EmptyString))
         ["--name"; DockerRunConfig.Name c]
    ++ optionalGroup
         (negb (String.eqb (DockerRunConfig.WorkspaceMount c) EmptyString)
          && negb (String.eqb (DockerRunConfig.WorkspaceMount c) "none"))
         ["-v"; DockerRunConfig.WorkspaceMount c]
    ++ optionalGroup (negb (String.eqb (DockerRunConfig.WorkspaceFolder c) EmptyString))
         ["-w"; DockerRunConfig.WorkspaceFolder c]
    ++ flat_map (fun '(k, v) => ["-e"; k +:+ "=" +:+ v])
         (rangeMap (DockerRunConfig.Environment c))
    ++ flagEach "-p" (DockerRunConfig.Ports c)
    ++ DockerRunConfig.RunArgs c
    ++ flagEach "--mount" (DockerRunConfig.Mounts c)
    ++ flagEach "--cap-add"
         (orAlias (DockerRunConfig.CapAdd c) (DockerRunConfig.Capabilities c))
    ++ flagEach "--security-opt"
         (orAlias (DockerRunConfig.SecurityOpt c) (DockerRunConfig.SecurityOpts c))
    ++ optionalGroup (DockerRunConfig.Init c) ["--init"]
    ++ optionalGroup (DockerRunConfig.Privileged c) ["--privileged"]
    ++ optionalGroup (negb (String.eqb (DockerRunConfig.User c) EmptyString))
         ["-u"; DockerRunConfig.User c]
    ++ [DockerRunConfig.Image c]
    ++ DockerRunConfig.Command c.
Proof.
  unfold ToDockerRunArgs, flagEach. cbv zeta.
  rewrite !alias_choice.
  repeat first
    [ rewrite append_optional
    | rewrite fold_left_append
    | rewrite fold_left_append_pair ].
  by rewrite <- !app_assoc.
Qed.

(** ** Variable expansion leaves the other fields alone *)

Section ExpandFacts.

Variable LookupEnv : string -> option string.
Variable rangeMap : gmap string string -> list (string * string).
Variable vars : gmap string string.

#[local] Abbreviation Expand := (ExpandVariables LookupEnv rangeMap vars).

Lemma proj_expandNonComposeBase {B : Type} (F : DevContainer.v -> B) dc :
  (forall v d, F (set_NonComposeBase v d) = F d) ->
  F (expandNonComposeBase LookupEnv rangeMap vars dc) = F dc.
Proof.
  intros H. unfold expandNonComposeBase.
  destruct (NonComposeBase dc); [apply H | reflexivity].
Qed.

(** A field that none of the assignments of [ExpandVariables] targets is
    read unchanged after it. *)
Lemma ExpandVariables_frame {B : Type} (F : DevContainer.v -> B) dc :
  (forall v d, F (set_InitializeCommand v d) = F d) ->
  (forall v d, F (set_OnCreateCommand v d) = F d) ->
  (forall v d, F (set_UpdateContentCommand v d) = F d) ->
  (forall v d, F (set_PostCreateCommand v d) = F d) ->
  (forall v d, F (set_PostStartCommand v d) = F d) ->
  (forall v d, F (set_PostAttachCommand v d) = F d) ->
  (forall v d, F (set_Mounts v d) = F d) ->
  (forall v d, F (set_NonComposeBase v d) = F d) ->
  (forall v d, F (set_ContainerEnv v d) = F d) ->
  (forall v d, F (set_WorkspaceFolder v d) = F d) ->
  (forall v d, F (set_WorkspaceMount v d) = F d) ->
  F (Expand dc) = F dc.
Proof.
  intros H1 H2 H3 H4 H5 H6 H7 H8 H9 H10 H11.
  unfold ExpandVariables. cbv zeta.
  rewrite (proj_when F) by (intros; apply H11).
  rewrite (proj_when F) by (intros; apply H10).
  rewrite H9.
  rewrite (proj_expandNonComposeBase F) by done.
  rewrite H7.
  by repeat (rewrite (proj_when F); [|by intros]).
Qed.

Lemma ExpandVariables_Mounts dc :
  Mounts (Expand dc) = map (expandMount LookupEnv rangeMap vars) (Mounts dc).
Proof.
  unfold ExpandVariables. cbv zeta.
  rewrite !(proj_when Mounts) by done.
  cbn [Mounts set_ContainerEnv].
  rewrite (proj_expandNonComposeBase Mounts) by done.
  cbn [Mounts set_Mounts].
  rewrite ?(proj_when Mounts) by done. reflexivity.
Qed.


(** the fields of [NonComposeBase] that are not strings to expand *)
Lemma expandNonComposeBase_frame {B : Type} (G : NonComposeBase.t -> B) dc :
  (forall v n, G (NonComposeBase.set_WorkspaceMount v n) = G n) ->
  (forall v n, G (NonComposeBase.set_WorkspaceFolder v n) = G n) ->
  G <$> NonComposeBase (expandNonComposeBase LookupEnv rangeMap vars dc)
  = G <$> NonComposeBase dc.
Proof.
  intros H1 H2. unfold expandNonComposeBase.
  destruct (NonComposeBase dc) as [n|] eqn:E; [|by rewrite E].
  cbn [NonComposeBase set_NonComposeBase fmap option_fmap option_map].
  f_equal.
  destruct (NonComposeBase.WorkspaceMount n);
    repeat case_match; by rewrite ?H2, ?H1.
Qed.

Lemma ExpandVariables_NonComposeBase {B : Type} (G : NonComposeBase.t -> B) dc :
  (forall v n, G (NonComposeBase.set_WorkspaceMount v n) = G n) ->
  (forall v n, G (NonComposeBase.set_WorkspaceFolder v n) = G n) ->
  G <$> NonComposeBase (Expand dc) = G <$> NonComposeBase dc.
Proof.
  intros H1 H2. unfold ExpandVariables. cbv zeta.
  rewrite !(proj_when NonComposeBase) by done.
  cbn [NonComposeBase set_ContainerEnv].
  rewrite expandNonComposeBase_frame by done.
  cbn [NonComposeBase set_Mounts].
  rewrite ?(proj_when NonComposeBase) by done. reflexivity.
Qed.

End ExpandFacts.

(** ** The synthesizer, step by step *)

Lemma buildMountStringFromMap_nonempty (m : gmap string Any) :
  String.eqb (buildMountStringFromMap m) EmptyString = false.
Proof.
  unfold buildMountStringFromMap. cbv zeta.
  repeat case_match; reflexivity.
Qed.

Lemma appendPort_spec (acc : list string) (ports : list Any) :
  fold_left appendPort ports acc = acc ++ omap normalizePort ports.
Proof.
  revert acc.
  induction ports as [|p ports IH]; intros acc; simpl.
  - by rewrite app_nil_r.
  - rewrite IH. destruct p; simpl; by rewrite <- ?app_assoc.
Qed.

Lemma parseAppPorts_spec (v : Any) : parseAppPorts v = declaredPorts v.
Proof. destruct v; try reflexivity. simpl. by rewrite (appendPort_spec []). Qed.

Lemma parseForwardPorts_spec (v : Any) : parseForwardPorts v = forwardedPorts v.
Proof. destruct v; try reflexivity. simpl. by rewrite (appendPort_spec []). Qed.

Lemma addPorts_guarded (v : Any) (st : list string * gset string) (ports : Any -> list string) :
  ports ANil = [] ->
  (if notNil v then addPorts st (ports v) else st) = fold_left emitOnce (ports v) st.
Proof.
  intros H. destruct st as [out seen]. destruct v; simpl; rewrite ?H; try apply addPorts_spec.
  done.
Qed.

Section BuildFacts.

Variable LookupEnv : string -> option string.
Variable rangeMap : gmap string string -> list (string * string).
Variable filepath_Base : string -> string.
Variable filepath_Abs : string -> string.

#[local] Abbreviation Build :=
  (BuildDockerRunCommand LookupEnv rangeMap filepath_Base filepath_Abs).
#[local] Abbreviation Expanded dc ws :=
  (ExpandVariables LookupEnv rangeMap (GetStandardVariables filepath_Base ws) dc).

Lemma resolveMounts_spec (mounts : list Any) :
  resolveMounts LookupEnv mounts
  = (resolvedMounts LookupEnv mounts, missingNames LookupEnv mounts).
Proof.
  unfold resolveMounts, resolvedMounts, missingNames.
  assert (G : forall done missing,
             fold_left
               (fun '(done, missing) mount =>
                  let '(mount, miss) := resolveMount LookupEnv mount in
                  (done ++ [mount], missing ++ miss))
               mounts (done, missing)
             = (done ++ map (fun m => (resolveMount LookupEnv m).1) mounts,
                missing ++ flat_map (fun m => (resolveMount LookupEnv m).2) mounts)).
  { induction mounts as [|m mounts IH]; intros done missing; simpl.
    - by rewrite !app_nil_r.
    - destruct (resolveMount LookupEnv m) as [m' miss]. simpl.
      rewrite IH. by rewrite <- !app_assoc. }
  apply G.
Qed.

Lemma mountStrings_spec (mounts : list Any) :
  mountStrings mounts = flat_map mountEntry mounts.
Proof.
  unfold mountStrings.
  rewrite <- (app_nil_l (flat_map mountEntry mounts)).
  rewrite <- fold_left_append. apply fold_left_ext_in.
  intros acc [| | | |l|m]; simpl; rewrite ?app_nil_r; try done.
  by rewrite buildMountStringFromMap_nonempty.
Qed.

Lemma Expanded_frame {B : Type} (F : DevContainer.v -> B) dc ws :
  (forall v d, F (set_InitializeCommand v d) = F d) ->
  (forall v d, F (set_OnCreateCommand v d) = F d) ->
  (forall v d, F (set_UpdateContentCommand v d) = F d) ->
  (forall v d, F (set_PostCreateCommand v d) = F d) ->
  (forall v d, F (set_PostStartCommand v d) = F d) ->
  (forall v d, F (set_PostAttachCommand v d) = F d) ->
  (forall v d, F (set_Mounts v d) = F d) ->
  (forall v d, F (set_NonComposeBase v d) = F d) ->
  (forall v d, F (set_ContainerEnv v d) = F d) ->
  (forall v d, F (set_WorkspaceFolder v d) = F d) ->
  (forall v d, F (set_WorkspaceMount v d) = F d) ->
  F (Expanded dc ws) = F dc.
Proof. apply ExpandVariables_frame. Qed.

Lemma addPorts_nonCompose (ncb : option NonComposeBase.t) (st : list string * gset string) :
  match ncb with
  | Some n =>
      if notNil (NonComposeBase.AppPort n)
      then addPorts st (parseAppPorts (NonComposeBase.AppPort n))
      else st
  | None => st
  end
  = fold_left emitOnce
      (parseAppPorts (default ANil (NonComposeBase.AppPort <$> ncb))) st.
Proof.
  destruct ncb as [n|]; simpl; [|done].
  by apply (addPorts_guarded _ _ parseAppPorts).
Qed.

Lemma map_fold_insert_id (m : gmap string string) :
  map_fold (fun k v env => <[k := v]> env) ∅ m = m.
Proof.
  induction m as [|k v m Hk Hfold IH] using map_first_key_ind; [done|].
  rewrite map_fold_insert_first_key by done. by rewrite IH.
Qed.

(** What [BuildDockerRunCommand] returns, case by case. *)
Lemma Build_cases dc ws :
  match Build dc ws with
  | inr err =>
      (missingNames LookupEnv (Mounts (Expanded dc ws)) <> []
       /\ err = "unresolved localEnv variables in devcontainer mounts: "
                +:+ Join (firstOccurrences
                            (missingNames LookupEnv (Mounts (Expanded dc ws)))) ", ")
      \/ (missingNames LookupEnv (Mounts (Expanded dc ws)) = []
          /\ selectedImage dc = None
          /\ err = "no image specified")
  | inl cfg =>
      missingNames LookupEnv (Mounts (Expanded dc ws)) = []
      /\ selectedImage dc = Some (DockerRunConfig.Image cfg)
      /\ DockerRunConfig.Ports cfg = firstOccurrences (portCandidates dc)
      /\ DockerRunConfig.Mounts cfg
         = flat_map mountEntry (resolvedMounts LookupEnv (Mounts (Expanded dc ws)))
      /\ DockerRunConfig.WorkspaceFolder cfg
         = match NonComposeBase (Expanded dc ws) ≫= NonComposeBase.WorkspaceFolder with
           | Some w => w
           | None =>
               if String.eqb (WorkspaceFolder (Expanded dc ws)) EmptyString
               then "/workspaces/" +:+ filepath_Base ws
               else WorkspaceFolder (Expanded dc ws)
           end
      /\ DockerRunConfig.Environment cfg = ContainerEnv (Expanded dc ws)
  end.
Proof.
  unfold BuildDockerRunCommand.
  rewrite resolveMounts_spec. cbv zeta. cbn iota.
  set (dcx := Expanded dc ws).
  set (missing := missingNames LookupEnv (Mounts dcx)).
  destruct (0 <? length missing)%nat eqn:Hm.
  { left. split; [by destruct missing|]. by rewrite uniqueStrings_spec. }
  assert (missing = []) as Hnil
      by (destruct missing; [reflexivity|simpl in Hm; discriminate]).
  cbn [ImageContainer Image NonComposeBase WorkspaceMount WorkspaceFolder
       ContainerEnv ForwardPorts AppPort Mounts Init Privileged ContainerUser
       Name CapAdd SecurityOpt set_Mounts].
  assert (HI : match ImageContainer dcx with
               | Some ic => Some (ImageContainer.Image ic)
               | None => if negb (Image dcx =? "") then Some (Image dcx) else None
               end = selectedImage dc).
  { unfold selectedImage, dcx.
    by rewrite (Expanded_frame ImageContainer), (Expanded_frame Image). }
  rewrite HI. destruct (selectedImage dc) as [img|]; [|right; done].
  cbn [DockerRunConfig.Image DockerRunConfig.Ports DockerRunConfig.Mounts
       DockerRunConfig.WorkspaceFolder DockerRunConfig.Environment].
  split; [done|]. split; [done|]. split; [|split; [|split]].
  - rewrite (addPorts_guarded (AppPort dcx) _ parseAppPorts) by done.
    rewrite addPorts_nonCompose.
    rewrite (addPorts_guarded (ForwardPorts dcx) _ parseForwardPorts) by done.
    rewrite <- !fold_left_app, emitOnce_fold by done.
    cbn [fst app]. rewrite filter_not_in_nil. f_equal.
    unfold portCandidates, dcx.
    rewrite parseAppPorts_spec, parseAppPorts_spec, parseForwardPorts_spec.
    rewrite (Expanded_frame AppPort), (Expanded_frame ForwardPorts) by done.
    rewrite (ExpandVariables_NonComposeBase _ _ _ NonComposeBase.AppPort) by done.
    by destruct (NonComposeBase dc).
  - by rewrite mountStrings_spec.
  - done.
  - apply map_fold_insert_id.
Qed.

End BuildFacts.

(** ** Ports *)

(** C5.  The port list of the plan is the list of candidates (declared
    app-ports, then the non-compose app-port, then the forwarded ports, each
    normalised) in which only the first occurrence of each string is kept;
    app-ports [5000] with forward-ports [5000, 8080] give 5000:5000 and
    8080:8080. *)
Theorem ports_first_occurrence_wins
    (LookupEnv : string -> option string)
    (rangeMap : gmap string string -> list (string * string))
    (filepath_Base filepath_Abs : string -> string)
    (dc : DevContainer.v) (workspaceFolder : string) (cfg : DockerRunConfig.t) :
  BuildDockerRunCommand LookupEnv rangeMap filepath_Base filepath_Abs
    dc workspaceFolder = inl cfg ->
  DockerRunConfig.Ports cfg = firstOccurrences (portCandidates dc)
  /\ NoDup (DockerRunConfig.Ports cfg)
  /\ (forall p, p ∈ DockerRunConfig.Ports cfg <-> p ∈ portCandidates dc)
  /\ sublist (DockerRunConfig.Ports cfg) (portCandidates dc)
  /\ (AppPort dc = AArr [ANum 5000] ->
      NonComposeBase dc = None ->
      ForwardPorts dc = AArr [ANum 5000; ANum 8080] ->
      DockerRunConfig.Ports cfg = ["5000:5000"; "8080:8080"]).
Proof.
  intros HB.
  pose proof (Build_cases LookupEnv rangeMap filepath_Base filepath_Abs
                dc workspaceFolder) as HC.
  rewrite HB in HC. destruct HC as (_ & _ & HP & _).
  rewrite HP. split; [done|]. split; [apply firstOccurrences_NoDup|].
  split; [intros p; apply firstOccurrences_elem|].
  split; [apply firstOccurrences_sublist|].
  intros H1 H2 H3. unfold portCandidates. rewrite H1, H2, H3.
  vm_compute. reflexivity.
Qed.

Lemma ports_first_occurrence_wins_witness :
  Sample.Build Sample.ports Sample.workspace = inl Sample.portsPlan
  /\ DockerRunConfig.Ports Sample.portsPlan = ["5000:5000"; "8080:8080"].
Proof.
  assert (HB : Sample.Build Sample.ports Sample.workspace = inl Sample.portsPlan)
    by (vm_compute; reflexivity).
  split; [exact HB|].
  destruct (ports_first_occurrence_wins _ _ _ _ _ _ _ HB) as (_ & _ & _ & _ & H).
  exact (H eq_refl eq_refl eq_refl).
Defined.

(** ** Unresolved host-environment references *)

Section MissingFacts.

Variable LookupEnv : string -> option string.




End MissingFacts.




(** ** Container selectors *)

(** C9, as the code has it.  A descriptor without an image selector, be
    its dockerfile or compose selector populated or not, fails with the
    error of a missing image once its mounts are resolved. *)
Theorem no_image_selector_is_no_image_specified
    (LookupEnv : string -> option string)
    (rangeMap : gmap string string -> list (string * string))
    (filepath_Base filepath_Abs : string -> string)
    (dc : DevContainer.v) (workspaceFolder : string) :
  ImageContainer dc = None ->
  Image dc = EmptyString ->
  missingNames LookupEnv
    (Mounts (ExpandVariables LookupEnv rangeMap
               (GetStandardVariables filepath_Base workspaceFolder) dc)) = [] ->
  BuildDockerRunCommand LookupEnv rangeMap filepath_Base filepath_Abs
    dc workspaceFolder
  = inr "no image specified".
Proof.
  intros H1 H2 Hm.
  pose proof (Build_cases LookupEnv rangeMap filepath_Base filepath_Abs
                dc workspaceFolder) as HC.
  destruct (BuildDockerRunCommand _ _ _ _ _ _) as [cfg|err].
  - destruct HC as (_ & Himg & _). unfold selectedImage in Himg.
    rewrite H1, H2 in Himg. discriminate Himg.
  - destruct HC as [[Hne _]|(_ & _ & ->)]; done.
Qed.

Lemma no_image_selector_is_no_image_specified_witness :
  Sample.Build Sample.dockerfileOnly Sample.workspace = inr "no image specified".
Proof.
  apply no_image_selector_is_no_image_specified; reflexivity.
Defined.

(** C9 as stated fails: a dockerfile-only and a compose-only descriptor
    get the very error of a descriptor with no selector at all. *)
Lemma unsupported_selector_error_not_distinct :
  Sample.Build Sample.dockerfileOnly Sample.workspace
  = Sample.Build DevContainer.zero Sample.workspace
  /\ Sample.Build Sample.composeOnly Sample.workspace
     = Sample.Build DevContainer.zero Sample.workspace
  /\ Sample.Build DevContainer.zero Sample.workspace = inr "no image specified".
Proof. vm_compute. repeat split; reflexivity. Qed.

(** ** Mount injection *)

Lemma customObject_target (mount : ApiMount.t) :
  exists m, customObject mount = AMap m
            /\ getString m "target" = Some (ApiMount.Target mount).
Proof.
  eexists. split; [reflexivity|]. unfold getString.
  by rewrite !lookup_insert_ne, lookup_insert_eq by done.
Qed.

Lemma customTargets_spec (customMounts : list ApiMount.t) (tgt : string) :
  tgt ∈ customTargets (map customObject customMounts)
  <-> tgt <> EmptyString /\ tgt ∈ map ApiMount.Target customMounts.
Proof.
  unfold customTargets.
  assert (G : forall (acc : gset string),
             tgt ∈ fold_left
                     (fun targets cm =>
                        match cm with
                        | AMap m =>
                            match getString m "target" with
                            | Some tgt =>
                                if negb (String.eqb tgt EmptyString)
                                then {[ tgt ]} ∪ targets else targets
                            | None => targets
                            end
                        | _ => targets
                        end)
                     (map customObject customMounts) acc
             <-> tgt ∈ acc
                 \/ (tgt <> EmptyString /\ tgt ∈ map ApiMount.Target customMounts)).
  { induction customMounts as [|c cs IH]; intros acc; simpl.
    - rewrite elem_of_nil. naive_solver.
    - destruct (customObject_target c) as (m & Hm & Ht).
      unfold customObject in Hm. injection Hm as <-. rewrite Ht, IH.
      rewrite elem_of_cons.
      destruct (String.eqb (ApiMount.Target c) EmptyString) eqn:E; simpl.
      + apply String.eqb_eq in E. naive_solver.
      + apply String.eqb_neq in E. set_solver. }
  rewrite G. set_solver.
Qed.

Lemma keepExisting_from (targets : gset string) (existing acc : list Any) :
  fold_left
    (fun merged em =>
       match em with
       | AMap mobj =>
           match getString mobj "target" with
           | Some tgt =>
               if negb (String.eqb tgt EmptyString) && bool_decide (tgt ∈ targets)
               then merged
               else merged ++ [em]
           | None => merged ++ [em]
           end
       | _ => merged ++ [em]
       end)
    existing acc
  = acc ++ filter (fun em =>
                     match em with
                     | AMap m =>
                         match getString m "target" with
                         | Some tgt =>
                             negb (String.eqb tgt EmptyString)
                             && bool_decide (tgt ∈ targets)
                         | None => false
                         end
                     | _ => false
                     end = false) existing.
Proof.
  revert acc. induction existing as [|em ems IH]; intros acc.
  - by rewrite app_nil_r.
  - cbn [fold_left]. rewrite IH, filter_cons. clear IH.
    destruct em as [| | | | |m]; simpl; rewrite <- ?app_assoc; try done.
    destruct (getString m "target") as [tgt|]; simpl; rewrite <- ?app_assoc; [|done].
    destruct (negb (String.eqb tgt EmptyString) && bool_decide (tgt ∈ targets));
      simpl; by rewrite <- ?app_assoc.
Qed.

Lemma applyCustomMounts_Mounts (customMounts : list ApiMount.t) (dc : DevContainer.v) :
  Mounts (applyCustomMounts customMounts dc)
  = filter (fun em => overridden customMounts em = false) (Mounts dc)
    ++ map customObject customMounts.
Proof.
  unfold applyCustomMounts. cbv zeta.
  rewrite (proj_when Mounts) by done. cbn [Mounts set_Mounts set_WorkspaceMount].
  rewrite (fold_left_append (fun mount => [customObject mount])), app_nil_l.
  rewrite flat_map_singleton.
  f_equal. unfold keepExisting. rewrite keepExisting_from, app_nil_l.
  apply list_filter_iff.
  intros [| | | | |m]; simpl; try done.
  destruct (getString m "target") as [tgt|]; [|done].
  destruct (String.eqb tgt EmptyString) eqn:E; simpl; [done|].
  apply String.eqb_neq in E.
  rewrite !bool_decide_eq_false, customTargets_spec. naive_solver.
Qed.

(** C3, as the code has it.  Injection removes the declared structured
    mounts whose target entry is a non-empty string equal to the target of an
    injected mount, and only those: textual mounts are never removed.  The
    declared mounts that remain keep their order and the injected mounts
    follow them, so a structured entry of the result on an injected target is
    an injected one. *)
Theorem injection_overrides_structured_mounts
    (customMounts : list ApiMount.t) (dc : DevContainer.v) :
  Mounts (applyCustomMounts customMounts dc)
  = filter (fun em => overridden customMounts em = false) (Mounts dc)
    ++ map customObject customMounts
  /\ sublist (filter (fun em => overridden customMounts em = false) (Mounts dc))
       (Mounts dc)
  /\ (forall s, AStr s ∈ Mounts dc ->
               AStr s ∈ Mounts (applyCustomMounts customMounts dc))
  /\ (forall m tgt,
        AMap m ∈ Mounts (applyCustomMounts customMounts dc) ->
        getString m "target" = Some tgt ->
        tgt <> EmptyString ->
        tgt ∈ map ApiMount.Target customMounts ->
        AMap m ∈ map customObject customMounts).
Proof.
  rewrite applyCustomMounts_Mounts.
  split; [done|]. split; [apply sublist_filter|]. split.
  - intros s Hs. apply elem_of_app. left. by apply list_elem_of_filter.
  - intros m tgt [Hin|Hin]%elem_of_app Ht Hne Htgt; [|done].
    apply list_elem_of_filter in Hin as [Hov _]. simpl in Hov. rewrite Ht in Hov.
    apply String.eqb_neq in Hne. rewrite Hne in Hov. simpl in Hov.
    by apply bool_decide_eq_false in Hov.
Qed.

Lemma injection_overrides_structured_mounts_witness :
  AStr "type=bind,source=/old,target=/data"
    ∈ Mounts (applyCustomMounts [Sample.injectedData] Sample.declaredData)
  /\ Mounts (applyCustomMounts [Sample.injectedData] Sample.declaredData)
     = [AStr "type=bind,source=/old,target=/data";
        AMap (<["type" := AStr "volume"]>
                (<["source" := AStr "cache"]> (<["target" := AStr "/cache"]> ∅)));
        customObject Sample.injectedData].
Proof.
  destruct (injection_overrides_structured_mounts
              [Sample.injectedData] Sample.declaredData) as (HM & _ & HS & _).
  split.
  - apply HS. vm_compute. apply list_elem_of_here.
  - rewrite HM. vm_compute. reflexivity.
Defined.

(** C3 as stated fails: a declared textual mount whose target is the
    target of an injected mount is kept, so the target has two entries. *)
Lemma injection_keeps_textual_mount_on_injected_target :
  Mounts (applyCustomMounts [Sample.injectedData]
            (set_Mounts [AStr "type=bind,source=/old,target=/data"]
               DevContainer.zero))
  = [AStr "type=bind,source=/old,target=/data"; customObject Sample.injectedData]
  /\ targetOfMountString "type=bind,source=/old,target=/data"
     = ApiMount.Target Sample.injectedData.
Proof. vm_compute. split; reflexivity. Qed.

(** ** Canonical mounts *)

Lemma append_assoc (a b c : string) : (a +:+ b) +:+ c = a +:+ (b +:+ c).
Proof.
  induction a as [|x a IH]; [reflexivity|].
  change (String x ((a +:+ b) +:+ c) = String x (a +:+ (b +:+ c))).
  by rewrite IH.
Qed.

Lemma append_empty_r (a : string) : a +:+ EmptyString = a.
Proof.
  induction a as [|x a IH]; [reflexivity|].
  change (String x (a +:+ EmptyString) = String x a). by rewrite IH.
Qed.

Lemma buildMountStringFromMap_canonical (m : gmap string Any) (t : string) :
  getString m "target" = Some t ->
  buildMountStringFromMap m
  = canonicalMount (default "bind" (getString m "type")) (getString m "source") t
      (default false (getBool m "readonly")).
Proof.
  intros Ht. unfold buildMountStringFromMap, canonicalMount. cbv zeta.
  rewrite Ht.
  destruct (getString m "type") as [k|], (getString m "source") as [src|],
    (getBool m "readonly") as [[]|]; cbn [default];
    rewrite ?append_assoc, ?append_empty_r; reflexivity.
Qed.

Lemma getString_insert (m : gmap string Any) (k k' v : string) :
  getString (<[k := AStr v]> m) k'
  = if decide (k = k') then Some v else getString m k'.
Proof.
  unfold getString. rewrite lookup_insert. by destruct (decide (k = k')).
Qed.

Lemma getBool_insert_ne (m : gmap string Any) (k k' v : string) :
  k <> k' -> getBool (<[k := AStr v]> m) k' = getBool m k'.
Proof. intros H. unfold getBool. by rewrite lookup_insert_ne. Qed.

(** rewriting the source and the target of a structured mount with [f]
    and [g], as [ExpandVariables] and the mount loop of
    [BuildDockerRunCommand] both do *)
Lemma rewritten_mount (f g : string -> string) (m : gmap string Any) :
  let m1 := match getString m "source" with
            | Some src => <["source" := AStr (f src)]> m
            | None => m
            end in
  let m2 := match getString m1 "target" with
            | Some tgt => <["target" := AStr (g tgt)]> m1
            | None => m1
            end in
  getString m2 "type" = getString m "type"
  /\ getString m2 "source" = f <$> getString m "source"
  /\ getString m2 "target" = g <$> getString m "target"
  /\ getBool m2 "readonly" = getBool m "readonly".
Proof.
  intros m1 m2.
  assert (H1 : getString m1 "type" = getString m "type"
               /\ getString m1 "source" = f <$> getString m "source"
               /\ getString m1 "target" = getString m "target"
               /\ getBool m1 "readonly" = getBool m "readonly").
  { subst m1. destruct (getString m "source") as [src|] eqn:E.
    - rewrite !getString_insert, getBool_insert_ne by done.
      repeat (rewrite decide_False by done). rewrite decide_True by done. done.
    - by rewrite E. }
  destruct H1 as (A & B & C & D). subst m2.
  destruct (getString m1 "target") as [tgt|] eqn:E.
  - rewrite !getString_insert, getBool_insert_ne by done.
    repeat (rewrite decide_False by done). rewrite decide_True by done.
    rewrite A, B, D, <- C. done.
  - rewrite A, B, D, <- C, E. done.
Qed.

Section MountFacts.

Variable LookupEnv : string -> option string.
Variable rangeMap : gmap string string -> list (string * string).
Variable vars : gmap string string.

Lemma resolveMount_map (m : gmap string Any) :
  (resolveMount LookupEnv (AMap m)).1
  = AMap (let m1 := match getString m "source" with
                    | Some src =>
                        <["source" := AStr (resolveLocalEnvVars LookupEnv src).1]> m
                    | None => m
                    end in
          match getString m1 "target" with
          | Some tgt => <["target" := AStr (resolveLocalEnvVars LookupEnv tgt).1]> m1
          | None => m1
          end).
Proof.
  unfold resolveMount. cbv zeta.
  destruct (getString m "source") as [src|].
  - destruct (resolveLocalEnvVars LookupEnv src) as [r1 miss1]. cbn [fst].
    destruct (getString _ "target") as [tgt|]; [|done].
    by destruct (resolveLocalEnvVars LookupEnv tgt).
  - destruct (getString m "target") as [tgt|]; [|done].
    by destruct (resolveLocalEnvVars LookupEnv tgt).
Qed.

(** a declared structured mount with a target, once expanded and
    resolved, is rendered in the canonical form *)
Lemma structured_mount_entry (m : gmap string Any) (t : string) :
  getString m "target" = Some t ->
  mountEntry (resolveMount LookupEnv (expandMount LookupEnv rangeMap vars (AMap m))).1
  = [canonicalMount (default "bind" (getString m "type"))
       (finalString LookupEnv rangeMap vars <$> getString m "source")
       (finalString LookupEnv rangeMap vars t)
       (default false (getBool m "readonly"))].
Proof.
  intros Ht. cbn [expandMount]. rewrite resolveMount_map. cbn [mountEntry].
  pose proof (rewritten_mount (expandString LookupEnv rangeMap vars)
                (expandString LookupEnv rangeMap vars) m) as H1.
  cbv zeta in H1. destruct H1 as (A1 & B1 & C1 & D1).
  match goal with
  | |- context [resolveMount_map] => idtac
  | |- [buildMountStringFromMap ?m2] = _ =>
      match m2 with
      | context [getString ?m1 "source"] =>
          pose proof (rewritten_mount (fun s => (resolveLocalEnvVars LookupEnv s).1)
                        (fun s => (resolveLocalEnvVars LookupEnv s).1) m1) as H2
      end
  end.
  cbv zeta in H2. destruct H2 as (A2 & B2 & C2 & D2).
  rewrite C1, Ht in C2. cbn in C2.
  rewrite (buildMountStringFromMap_canonical _ _ C2).
  rewrite A2, B2, D2, A1, B1, D1. unfold finalString.
  by destruct (getString m "source").
Qed.


End MountFacts.




(** ** The merge engine *)

Section MergeFacts.

Variables base override : DevContainer.v.

#[local] Abbreviation merged := (MergeDevContainers (Some base) (Some override)).

Lemma proj_mergeNonCompose {B : Type} (F : DevContainer.v -> B) (o r : DevContainer.v) :
  (forall v d, F (set_NonComposeBase v d) = F d) ->
  F (mergeNonCompose o r) = F r.
Proof.
  intros H. unfold mergeNonCompose.
  destruct (NonComposeBase o); [|done]. by destruct (NonComposeBase r).
Qed.

Ltac through F :=
  repeat first
    [ rewrite (proj_when F) by done
    | rewrite (proj_mergeNonCompose F) by done ].

Ltac merged_field F :=
  unfold MergeDevContainers; cbv zeta;
  cbn [fmap option_fmap option_map]; f_equal;
  through F; unfold when at 1;
  match goal with |- F (if ?c then _ else _) = _ => destruct c end;
  [reflexivity | through F; reflexivity].

(** A field that the merge does not assign keeps the value of [base]. *)
Lemma Merge_frame {B : Type} (F : DevContainer.v -> B) :
  (forall v d, F (set_Image v d) = F d) ->
  (forall v d, F (set_ImageContainer v d) = F d) ->
  (forall v d, F (set_Name v d) = F d) ->
  (forall v d, F (set_ContainerEnv v d) = F d) ->
  (forall v d, F (set_ForwardPorts v d) = F d) ->
  (forall v d, F (set_CapAdd v d) = F d) ->
  (forall v d, F (set_SecurityOpt v d) = F d) ->
  (forall v d, F (set_Features v d) = F d) ->
  (forall v d, F (set_Mounts v d) = F d) ->
  (forall v d, F (set_NonComposeBase v d) = F d) ->
  (forall v d, F (set_InitializeCommand v d) = F d) ->
  (forall v d, F (set_OnCreateCommand v d) = F d) ->
  (forall v d, F (set_UpdateContentCommand v d) = F d) ->
  (forall v d, F (set_PostCreateCommand v d) = F d) ->
  (forall v d, F (set_PostStartCommand v d) = F d) ->
  (forall v d, F (set_PostAttachCommand v d) = F d) ->
  F <$> merged = Some (F base).
Proof.
  intros. unfold MergeDevContainers. cbv zeta.
  cbn [fmap option_fmap option_map]. f_equal.
  by through F.
Qed.

Lemma Merge_Image :
  Image <$> merged
  = Some (if negb (String.eqb (Image override) EmptyString)
          then Image override else Image base).
Proof. merged_field (@Image (gmap string string) (option NonComposeBase.t)). Qed.

Lemma Merge_ImageContainer :
  ImageContainer <$> merged
  = Some (if bool_decide (is_Some (ImageContainer override))
          then ImageContainer override else ImageContainer base).
Proof. merged_field (@ImageContainer (gmap string string) (option NonComposeBase.t)). Qed.

Lemma Merge_Name :
  Name <$> merged
  = Some (if bool_decide (is_Some (Name override))
          then Name override else Name base).
Proof. merged_field (@Name (gmap string string) (option NonComposeBase.t)). Qed.

Lemma Merge_ForwardPorts :
  ForwardPorts <$> merged
  = Some (if notNil (ForwardPorts override)
          then ForwardPorts override else ForwardPorts base).
Proof. merged_field (@ForwardPorts (gmap string string) (option NonComposeBase.t)). Qed.

Lemma Merge_CapAdd :
  CapAdd <$> merged
  = Some (if (0 <? length (CapAdd override))%nat
          then CapAdd override else CapAdd base).
Proof. merged_field (@CapAdd (gmap string string) (option NonComposeBase.t)). Qed.

Lemma Merge_SecurityOpt :
  SecurityOpt <$> merged
  = Some (if (0 <? length (SecurityOpt override))%nat
          then SecurityOpt override else SecurityOpt base).
Proof. merged_field (@SecurityOpt (gmap string string) (option NonComposeBase.t)). Qed.

Lemma Merge_Mounts :
  Mounts <$> merged
  = Some (if (0 <? length (Mounts override))%nat
          then Mounts override else Mounts base).
Proof. merged_field (@Mounts (gmap string string) (option NonComposeBase.t)). Qed.

Lemma Merge_NonComposeBase :
  NonComposeBase <$> merged
  = Some (match NonComposeBase override with
          | Some on =>
              match NonComposeBase base with
              | None => Some on
              | Some bn => Some (mergeNonComposeBase on bn)
              end
          | None => NonComposeBase base
          end).
Proof.
  unfold MergeDevContainers. cbv zeta.
  cbn [fmap option_fmap option_map]. f_equal.
  rewrite !(proj_when NonComposeBase) by done.
  unfold mergeNonCompose.
  rewrite !(proj_when NonComposeBase) by done.
  destruct (NonComposeBase override); [|by rewrite !(proj_when NonComposeBase) by done].
  by destruct (NonComposeBase base).
Qed.

End MergeFacts.

(** C1, as the code has it.  Merging two descriptors gives a result in
    which the override's value wins for the scalar fields the merge handles
    (image, image selector, name, and the workspace folder and mount of
    [NonComposeBase]) when the override sets them, and in which a list field
    the merge handles (capabilities, security options, mounts, forwarded
    ports, run-args) that the override sets is the override's list exactly.
    The other scalar fields (workspace folder and mount of the descriptor
    itself, user, init and privileged flags, app-port, dockerfile and compose
    selectors) are not merged: the result keeps the value of the base. *)
Theorem merge_override_precedence (base override : DevContainer.v) :
  exists result,
    MergeDevContainers (Some base) (Some override) = Some result
    /\ (Image override <> EmptyString -> Image result = Image override)
    /\ (is_Some (ImageContainer override) ->
        ImageContainer result = ImageContainer override)
    /\ (is_Some (Name override) -> Name result = Name override)
    /\ (forall on,
          NonComposeBase override = Some on ->
          exists rn,
            NonComposeBase result = Some rn
            /\ NonComposeBase.RunArgs rn = NonComposeBase.RunArgs on
            /\ (is_Some (NonComposeBase.WorkspaceFolder on) ->
                NonComposeBase.WorkspaceFolder rn = NonComposeBase.WorkspaceFolder on)
            /\ (is_Some (NonComposeBase.WorkspaceMount on) ->
                NonComposeBase.WorkspaceMount rn = NonComposeBase.WorkspaceMount on))
    /\ (CapAdd override <> [] -> CapAdd result = CapAdd override)
    /\ (SecurityOpt override <> [] -> SecurityOpt result = SecurityOpt override)
    /\ (Mounts override <> [] -> Mounts result = Mounts override)
    /\ (ForwardPorts override <> ANil ->
        ForwardPorts result = ForwardPorts override)
    /\ WorkspaceFolder result = WorkspaceFolder base
    /\ WorkspaceMount result = WorkspaceMount base
    /\ ContainerUser result = ContainerUser base
    /\ Init result = Init base
    /\ Privileged result = Privileged base
    /\ AppPort result = AppPort base
    /\ DockerfileContainer result = DockerfileContainer base
    /\ ComposeContainer result = ComposeContainer base.
Proof.
  pose proof (Merge_Image base override) as HImage.
  pose proof (Merge_ImageContainer base override) as HIC.
  pose proof (Merge_Name base override) as HName.
  pose proof (Merge_NonComposeBase base override) as HN.
  pose proof (Merge_CapAdd base override) as HCap.
  pose proof (Merge_SecurityOpt base override) as HSec.
  pose proof (Merge_Mounts base override) as HMounts.
  pose proof (Merge_ForwardPorts base override) as HFP.
  pose proof (Merge_frame base override WorkspaceFolder) as HWF.
  pose proof (Merge_frame base override WorkspaceMount) as HWM.
  pose proof (Merge_frame base override ContainerUser) as HCU.
  pose proof (Merge_frame base override Init) as HInit.
  pose proof (Merge_frame base override Privileged) as HPriv.
  pose proof (Merge_frame base override AppPort) as HAP.
  pose proof (Merge_frame base override DockerfileContainer) as HDC.
  pose proof (Merge_frame base override ComposeContainer) as HCC.
  repeat match goal with
         | H : (forall v d, _ = _) -> _ |- _ => specialize (H ltac:(done))
         end.
  destruct (MergeDevContainers (Some base) (Some override)) as [result|];
    [|discriminate HImage].
  cbn [fmap option_fmap option_map] in *.
  exists result. split; [reflexivity|].
  injection HImage as ->. injection HIC as ->. injection HName as ->.
  injection HN as ->. injection HCap as ->. injection HSec as ->.
  injection HMounts as ->. injection HFP as ->.
  injection HWF as ->. injection HWM as ->. injection HCU as ->.
  injection HInit as ->. injection HPriv as ->. injection HAP as ->.
  injection HDC as ->. injection HCC as ->.
  repeat split.
  - intros H. apply String.eqb_neq in H. by rewrite H.
  - intros H. by rewrite bool_decide_eq_true_2.
  - intros H. by rewrite bool_decide_eq_true_2.
  - intros on ->. destruct (NonComposeBase base) as [bn|]; eexists;
      (split; [reflexivity|]).
    + unfold mergeNonComposeBase, when. cbv zeta.
      split; [reflexivity|]. split.
      * intros H. rewrite (bool_decide_eq_true_2 _ H).
        by repeat case_match.
      * intros H. rewrite (bool_decide_eq_true_2 _ H).
        by repeat case_match.
    + done.
  - intros H. by destruct (CapAdd override).
  - intros H. by destruct (SecurityOpt override).
  - intros H. by destruct (Mounts override).
  - intros H. by destruct (ForwardPorts override).
Qed.

Lemma merge_override_precedence_witness :
  exists result,
    MergeDevContainers (Some Sample.mergeBase) (Some Sample.mergeOverride)
    = Some result
    /\ Image result = "node:18"
    /\ CapAdd result = ["NET_ADMIN"; "SYS_TIME"].
Proof.
  destruct (merge_override_precedence Sample.mergeBase Sample.mergeOverride)
    as (r & Hr & HI & _ & _ & _ & HC & _).
  exists r. split; [exact Hr|]. split.
  - refine (HI _). vm_compute. discriminate.
  - refine (HC _). vm_compute. discriminate.
Defined.

(** C1 as stated fails: the workspace folder (a string), the init flag
    (a bool), the user (a string pointer) and the compose selector (a selector
    pointer) are set in both descriptors, and the result has the values of the
    base. *)
Lemma merge_keeps_base_for_unmerged_scalars :
  WorkspaceFolder <$> MergeDevContainers (Some Sample.mergeBase)
                        (Some Sample.mergeOverride)
  = Some "/base"
  /\ Init <$> MergeDevContainers (Some Sample.mergeBase) (Some Sample.mergeOverride)
     = Some (Some false)
  /\ ContainerUser <$> MergeDevContainers (Some Sample.mergeBase)
                         (Some Sample.mergeOverride)
     = Some (Some "root")
  /\ ComposeContainer <$> MergeDevContainers (Some Sample.mergeBase)
                            (Some Sample.mergeOverride)
     = Some (Some (ComposeContainer.mk (AStr "base.yml") "db"))
  /\ WorkspaceFolder Sample.mergeOverride = "/leaf"
  /\ Init Sample.mergeOverride = Some true
  /\ ContainerUser Sample.mergeOverride = Some "dev"
  /\ ComposeContainer Sample.mergeOverride
     = Some (ComposeContainer.mk (AStr "leaf.yml") "app").
Proof. vm_compute. repeat split; reflexivity. Qed.

(** ** Strings without variables *)

Lemma HasPrefix_other_head (c d : ascii) (s old : string) :
  Ascii.eqb c d = false -> HasPrefix (String c s) (String d old) = false.
Proof.
  intros H. unfold HasPrefix. simpl.
  destruct (ascii_dec d c) as [->|]; [|done]. by rewrite Ascii.eqb_refl in H.
Qed.

Lemma replace_from_no_dollar (s old new : string) :
  hasByte "$" s = false ->
  replace_from (String "$" old) new 0 s = s.
Proof.
  induction s as [|c s IH]; [done|]. cbn [hasByte replace_from].
  intros [Hc Hs]%orb_false_elim.
  rewrite HasPrefix_other_head by done. by rewrite IH.
Qed.

Lemma resolve_from_no_dollar (LookupEnv : string -> option string) (s : string) :
  hasByte "$" s = false -> resolve_from LookupEnv 0 s = (s, []).
Proof.
  induction s as [|c s IH]; [done|]. cbn [hasByte resolve_from].
  intros [Hc Hs]%orb_false_elim.
  unfold matchLocalEnv. rewrite HasPrefix_other_head by done.
  by rewrite IH.
Qed.

(** A string without a dollar sign is its own expansion. *)
Lemma expandVariableString_no_dollar
    (LookupEnv : string -> option string)
    (rangeMap : gmap string string -> list (string * string))
    (vars : gmap string string) (s : string) :
  hasByte "$" s = false ->
  expandVariableString LookupEnv rangeMap s vars = s.
Proof.
  intros H. unfold expandVariableString.
  match goal with
  | |- context [fold_left ?f ?l s] => assert (E : fold_left f l s = s)
  end.
  { induction (rangeMap vars) as [|[k v] l IH]; [done|]. cbn [fold_left].
    cbv zeta. unfold ReplaceAll.
    change ("${" +:+ k +:+ "}") with (String "$" ("{" +:+ k +:+ "}")).
    change ("$" +:+ k) with (String "$" k).
    rewrite (replace_from_no_dollar s) by done.
    rewrite (replace_from_no_dollar s) by done. exact IH. }
  rewrite E. cbv zeta. unfold resolveLocalEnvVars.
  by rewrite resolve_from_no_dollar.
Qed.

Lemma ExpandVariables_WorkspaceFolder
    (LookupEnv : string -> option string)
    (rangeMap : gmap string string -> list (string * string))
    (vars : gmap string string) (dc : DevContainer.v) :
  WorkspaceFolder (ExpandVariables LookupEnv rangeMap vars dc)
  = if negb (String.eqb (WorkspaceFolder dc) EmptyString)
    then expandString LookupEnv rangeMap vars (WorkspaceFolder dc)
    else WorkspaceFolder dc.
Proof.
  unfold ExpandVariables. cbv zeta.
  rewrite (proj_when WorkspaceFolder) by done.
  unfold when at 1. cbn [WorkspaceFolder set_ContainerEnv set_WorkspaceFolder].
  rewrite (proj_expandNonComposeBase _ _ _ WorkspaceFolder) by done.
  cbn [WorkspaceFolder set_Mounts].
  rewrite ?(proj_when WorkspaceFolder) by done.
  destruct (negb (String.eqb (WorkspaceFolder dc) EmptyString)); [done|].
  cbn [WorkspaceFolder set_ContainerEnv].
  rewrite (proj_expandNonComposeBase _ _ _ WorkspaceFolder) by done.
  cbn [WorkspaceFolder set_Mounts].
  rewrite ?(proj_when WorkspaceFolder) by done. reflexivity.
Qed.

(** ** The manager *)

Section CreateFacts.

Variable ReadFile : string -> string + error.
Variable Unmarshal_DevContainer : string -> DevContainer.v + error.
Variable Unmarshal_raw : string -> gmap string Any + error.
Variable filepath_Join : list string -> string.
Variable LookupEnv : string -> option string.
Variable rangeMap : gmap string string -> list (string * string).
Variable filepath_Base : string -> string.
Variable filepath_Abs : string -> string.
Variable ValidateImage : string -> option error.
Variable CreateContainer : DockerRunConfig.t -> string + error.

(** The default configuration builds, with its image and its workspace
    folder. *)
Lemma default_builds (nodePath : string) :
  exists config,
    BuildDockerRunCommand LookupEnv rangeMap filepath_Base filepath_Abs
      defaultDevContainer nodePath = inl config
    /\ DockerRunConfig.Image config = "alpine:latest"
    /\ DockerRunConfig.WorkspaceFolder config = "/workspace".
Proof.
  pose proof (Build_cases LookupEnv rangeMap filepath_Base filepath_Abs
                defaultDevContainer nodePath) as HC.
  rewrite ExpandVariables_Mounts in HC.
  destruct (BuildDockerRunCommand _ _ _ _ _ _) as [config|err].
  - exists config. split; [done|].
    destruct HC as (_ & Himg & _ & _ & HWF & _).
    split; [by injection Himg|].
    rewrite HWF, ExpandVariables_WorkspaceFolder.
    pose proof (ExpandVariables_NonComposeBase LookupEnv rangeMap
                  (GetStandardVariables filepath_Base nodePath)
                  (fun _ => tt) defaultDevContainer) as HN.
    destruct (NonComposeBase (ExpandVariables _ _ _ _)) as [n|];
      [by specialize (HN ltac:(done) ltac:(done))|].
    cbn. unfold expandString.
    by rewrite expandVariableString_no_dollar.
  - by destruct HC as [[Hne _]|(_ & Himg & _)].
Qed.

(** C10.  When no descriptor is configured and the document under the
    node path cannot be loaded, [Create] does not return the load error: it
    goes on with the default descriptor (image alpine:latest, workspace
    folder /workspace), exactly as a manager configured with that descriptor
    would; without custom mounts it builds the plan of the default and hands
    its image to the validation of the docker client. *)
Theorem create_falls_back_to_default
    (m : Manager.t) (nodePath : string) (loadErr : error) :
  Manager.devContainer m = None ->
  LoadDevContainer ReadFile Unmarshal_DevContainer Unmarshal_raw
    (filepath_Join [nodePath; ".devcontainer"; "devcontainer.json"])
  = inr loadErr ->
  Create ReadFile Unmarshal_DevContainer Unmarshal_raw filepath_Join LookupEnv
    rangeMap filepath_Base filepath_Abs ValidateImage CreateContainer m nodePath
  = Create ReadFile Unmarshal_DevContainer Unmarshal_raw filepath_Join LookupEnv
      rangeMap filepath_Base filepath_Abs ValidateImage CreateContainer
      (Manager.mk (Some defaultDevContainer) (Manager.customMounts m)) nodePath
  /\ (Manager.customMounts m = [] ->
      exists config,
        BuildDockerRunCommand LookupEnv rangeMap filepath_Base filepath_Abs
          defaultDevContainer nodePath = inl config
        /\ DockerRunConfig.Image config = "alpine:latest"
        /\ DockerRunConfig.WorkspaceFolder config = "/workspace"
        /\ Create ReadFile Unmarshal_DevContainer Unmarshal_raw filepath_Join
             LookupEnv rangeMap filepath_Base filepath_Abs ValidateImage
             CreateContainer m nodePath
           = match ValidateImage "alpine:latest" with
             | Some err => inr ("invalid image: " +:+ err)
             | None =>
                 match CreateContainer config with
                 | inr err => inr ("failed to create container: " +:+ err)
                 | inl containerID => inl containerID
                 end
             end).
Proof.
  intros Hnone Hload. split.
  - unfold Create. cbv zeta. rewrite Hnone, Hload. reflexivity.
  - intros Hcm. destruct (default_builds nodePath) as (config & HB & HI & HW).
    exists config. split; [done|]. split; [done|]. split; [done|].
    unfold Create. cbv zeta. rewrite Hnone, Hload, Hcm. cbn [length Nat.ltb Nat.leb].
    by rewrite HB, HI.
Qed.

End CreateFacts.

Lemma create_falls_back_to_default_witness :
  Create Sample.ReadFile Sample.Unmarshal_DevContainer Sample.Unmarshal_raw
    Sample.filepath_Join Sample.LookupEnv Sample.rangeMap Sample.filepath_Base
    Sample.filepath_Abs Sample.ValidateImage Sample.CreateContainer
    Sample.freshManager Sample.workspace
  = Create Sample.ReadFile Sample.Unmarshal_DevContainer Sample.Unmarshal_raw
      Sample.filepath_Join Sample.LookupEnv Sample.rangeMap Sample.filepath_Base
      Sample.filepath_Abs Sample.ValidateImage Sample.CreateContainer
      (Manager.mk (Some defaultDevContainer) []) Sample.workspace.
Proof.
  refine (proj1 (create_falls_back_to_default
                   Sample.ReadFile Sample.Unmarshal_DevContainer
                   Sample.Unmarshal_raw Sample.filepath_Join Sample.LookupEnv
                   Sample.rangeMap Sample.filepath_Base Sample.filepath_Abs
                   Sample.ValidateImage Sample.CreateContainer
                   Sample.freshManager Sample.workspace
                   "failed to read devcontainer.json: open /home/u/app/.devcontainer/devcontainer.json: no such file or directory"
                   _ _)).
  - reflexivity.
  - vm_compute. reflexivity.
Defined.

(** ** The extends chain *)

Section ChainFacts.

Variable ReadFile : string -> string + error.
Variable Unmarshal_DevContainer : string -> DevContainer.v + error.
Variable Unmarshal_raw : string -> gmap string Any + error.
Variable filepath_Join : list string -> string.
Variable filepath_Dir : string -> string.

#[local] Abbreviation Load :=
  (LoadDevContainerWithExtends ReadFile Unmarshal_DevContainer Unmarshal_raw
     filepath_Join filepath_Dir).
#[local] Abbreviation target :=
  (extendsTarget ReadFile Unmarshal_DevContainer Unmarshal_raw
     filepath_Join filepath_Dir).

(** one call, in terms of the document it recurses into *)
Lemma Load_step (depth : nat) (path : string) :
  Load (S depth) path
  = match ReadFile path with
    | inr err => Returns (inr ("failed to read devcontainer.json: " +:+ err))
    | inl data =>
        match Unmarshal_raw data with
        | inr err => Returns (inr ("failed to parse devcontainer.json: " +:+ err))
        | inl raw =>
            match LoadDevContainer ReadFile Unmarshal_DevContainer Unmarshal_raw path with
            | inr err => Returns (inr err)
            | inl dc =>
                match target path with
                | Some next =>
                    match Load depth next with
                    | OutOfFuel => OutOfFuel
                    | Returns (inr err) =>
                        Returns (inr ("failed to load extends config: " +:+ err))
                    | Returns (inl baseConfig) =>
                        Returns (inl (MergeDevContainers baseConfig (Some dc)))
                    end
                | None => Returns (inl (Some dc))
                end
            end
        end
    end.
Proof.
  unfold extendsTarget. cbn [LoadDevContainerWithExtends].
  destruct (ReadFile path) as [data|]; [|done].
  destruct (Unmarshal_raw data) as [raw|]; [|done].
  destruct (LoadDevContainer _ _ _ path) as [dc|]; [|done].
  by destruct (raw !! "extends") as [[| | |e| |]|].
Qed.

Lemma target_loads (path next : string) :
  target path = Some next ->
  exists data raw dc,
    ReadFile path = inl data /\ Unmarshal_raw data = inl raw
    /\ LoadDevContainer ReadFile Unmarshal_DevContainer Unmarshal_raw path = inl dc.
Proof.
  unfold extendsTarget.
  destruct (ReadFile path) as [data|] eqn:E1; [|done].
  destruct (Unmarshal_raw data) as [raw|] eqn:E2; [|done].
  destruct (LoadDevContainer _ _ _ path) as [dc|] eqn:E3; [|done].
  intros _. by exists data, raw, dc.
Qed.

(** one call when the document extends nothing (or does not load) *)
Lemma Load_last (depth : nat) (path : string) :
  target path = None -> exists r, Load (S depth) path = Returns r.
Proof.
  intros Ht. rewrite Load_step, Ht. repeat case_match; by eexists.
Qed.

(** one call when the document extends another: it returns when the
    call on that document does *)
Lemma Load_link (depth : nat) (path next : string) :
  target path = Some next ->
  (exists r, Load (S depth) path = Returns r)
  <-> (exists r, Load depth next = Returns r).
Proof.
  intros Ht. rewrite Load_step, Ht.
  destruct (target_loads _ _ Ht) as (data & raw & dc & -> & -> & ->).
  destruct (Load depth next) as [[base|err]|].
  - split; intros _; by eexists.
  - split; intros _; by eexists.
  - split; intros [r Hr]; discriminate Hr.
Qed.

Lemma Load_more_fuel (depth : nat) (path : string) r :
  Load depth path = Returns r -> Load (S depth) path = Returns r.
Proof.
  revert path r. induction depth as [|depth IH]; intros path r; [done|].
  rewrite (Load_step (S depth)), (Load_step depth).
  destruct (ReadFile path) as [data|]; [|done].
  destruct (Unmarshal_raw data) as [raw|]; [|done].
  destruct (LoadDevContainer _ _ _ path) as [dc|]; [|done].
  destruct (target path) as [next|]; [|done].
  destruct (Load depth next) as [r'|] eqn:E; [|done].
  by rewrite (IH _ _ E).
Qed.

Lemma Load_monotone (depth depth' : nat) (path : string) r :
  depth <= depth' -> Load depth path = Returns r -> Load depth' path = Returns r.
Proof.
  induction 1 as [|depth' _ IH]; [done|]. intros H. by apply Load_more_fuel, IH.
Qed.

Lemma Load_finite_chain (path : string) (n : nat) :
  chainEnds ReadFile Unmarshal_DevContainer Unmarshal_raw
    filepath_Join filepath_Dir path n ->
  exists r, forall depth, n < depth -> Load depth path = Returns r.
Proof.
  intros Hc.
  assert (exists r, Load (S n) path = Returns r) as [r Hr].
  { induction Hc as [path Hn|path next n Ht _ IH].
    - by apply Load_last.
    - by apply (Load_link _ _ _ Ht). }
  exists r. intros depth Hd. apply (Load_monotone (S n)); [lia|done].
Qed.

Lemma Load_unbounded_chain (path : string) :
  (forall k, is_Some (chainAt ReadFile Unmarshal_DevContainer Unmarshal_raw
                        filepath_Join filepath_Dir k path)) ->
  forall depth, Load depth path = OutOfFuel.
Proof.
  intros Hk depth. revert path Hk.
  induction depth as [|depth IH]; intros path Hk; [done|].
  destruct (Hk 1) as [p Hp]. cbn [chainAt] in Hp.
  destruct (target path) as [next|] eqn:Ht; [|done].
  assert (Hnext : forall k, is_Some (chainAt ReadFile Unmarshal_DevContainer
                                       Unmarshal_raw filepath_Join
                                       filepath_Dir k next)).
  { intros k. specialize (Hk (S k)). cbn [chainAt] in Hk. by rewrite Ht in Hk. }
  specialize (IH next Hnext).
  destruct (Load (S depth) path) as [r|] eqn:E; [|done].
  destruct (proj1 (Load_link depth path next Ht)) as [r' Hr']; [by eexists|].
  rewrite IH in Hr'. discriminate Hr'.
Qed.

(** C8, as the code has it.  The resolver keeps no record of the paths it
    has visited.  When the chain of extends references from the starting
    path ends after [n] links, the resolution returns, at every recursion
    depth above [n]; when the chain never ends, as on a cycle, no recursion
    depth is enough: the call does not return. *)
Theorem extends_resolution_returns_on_finite_chains :
  (forall path n,
      chainEnds ReadFile Unmarshal_DevContainer Unmarshal_raw
        filepath_Join filepath_Dir path n ->
      exists r, forall depth, n < depth -> Load depth path = Returns r)
  /\ (forall path,
        (forall k, is_Some (chainAt ReadFile Unmarshal_DevContainer Unmarshal_raw
                              filepath_Join filepath_Dir k path)) ->
        forall depth, Load depth path = OutOfFuel).
Proof. split; [apply Load_finite_chain | apply Load_unbounded_chain]. Qed.

End ChainFacts.

Lemma extends_resolution_returns_on_finite_chains_witness :
  exists r,
    forall depth,
      1 < depth ->
      LoadDevContainerWithExtends Sample.chainReadFile
        Sample.chainUnmarshal_DevContainer Sample.chainUnmarshal_raw
        Sample.filepath_Join Sample.filepath_Dir depth Sample.leafPath
      = Returns r.
Proof.
  refine (proj1 (extends_resolution_returns_on_finite_chains
                   Sample.chainReadFile Sample.chainUnmarshal_DevContainer
                   Sample.chainUnmarshal_raw Sample.filepath_Join
                   Sample.filepath_Dir) Sample.leafPath 1 _).
  apply (chain_link _ _ _ _ _ _ Sample.basePath).
  - vm_compute. reflexivity.
  - apply chain_last. vm_compute. reflexivity.
Defined.

(** the chain of the specification: the leaf overrides one variable of
    its base and inherits the other and the image *)
Example extends_chain_merges_leaf_over_base :
  match LoadDevContainerWithExtends Sample.chainReadFile
          Sample.chainUnmarshal_DevContainer Sample.chainUnmarshal_raw
          Sample.filepath_Join Sample.filepath_Dir 2 Sample.leafPath with
  | Returns (inl (Some dc)) =>
      ContainerEnv dc = <["OVERRIDE_ME" := "leaf"]> (<["BASE_VAR" := "x"]> ∅)
      /\ ImageContainer dc = Some (ImageContainer.mk "ubuntu:22.04")
  | _ => False
  end.
Proof. vm_compute. split; reflexivity. Qed.

(** C8 as stated fails: on a document that extends its own directory the
    resolver detects nothing and fails with nothing; at no recursion depth
    does the call return. *)
Lemma cyclic_extends_never_returns :
  ~ exists depth r,
      LoadDevContainerWithExtends Sample.cycleReadFile
        Sample.cycleUnmarshal_DevContainer Sample.cycleUnmarshal_raw
        Sample.filepath_Join Sample.filepath_Dir depth Sample.cyclePath
      = Returns r.
Proof.
  intros (depth & r & H).
  rewrite Load_unbounded_chain in H; [discriminate H|].
  intros k. induction k as [|k IH]; [by eexists|].
  cbn [chainAt].
  assert (extendsTarget Sample.cycleReadFile Sample.cycleUnmarshal_DevContainer
            Sample.cycleUnmarshal_raw Sample.filepath_Join Sample.filepath_Dir
            Sample.cyclePath = Some Sample.cyclePath) as ->
    by (vm_compute; reflexivity).
  exact IH.
Qed.

(** ** What the merge writes *)

Lemma mergeEnv_descriptors (override : Store.obj) σ result σ' result' :
  Store.mergeEnv override (σ, result) = Some (σ', result') ->
  Store.descriptors σ' = Store.descriptors σ.
Proof.
  unfold Store.mergeEnv.
  destruct (Store.envAt σ (ContainerEnv override)) as [oenv|];
    cbn [mbind option_bind]; [|done].
  destruct (0 <? size oenv)%nat; [|by intros [= <- <-]].
  destruct (ContainerEnv result) as [l|] eqn:El.
  - rewrite El. cbn [mbind option_bind].
    destruct (Store.envs σ !! l); cbn [mbind option_bind]; [|done].
    by intros [= <- <-].
  - cbn [ContainerEnv set_ContainerEnv mbind option_bind].
    destruct (Store.envs _ !! _); cbn [mbind option_bind]; [|done].
    by intros [= <- <-].
Qed.

Lemma mergeNonCompose_descriptors (override : Store.obj) σ result σ' result' :
  Store.mergeNonCompose override (σ, result) = Some (σ', result') ->
  Store.descriptors σ' = Store.descriptors σ.
Proof.
  unfold Store.mergeNonCompose.
  destruct (NonComposeBase override) as [ol|]; [|by intros [= <- <-]].
  destruct (NonComposeBase result) as [rl|]; [|by intros [= <- <-]].
  destruct (Store.nonCompose σ !! ol); cbn [mbind option_bind]; [|done].
  destruct (Store.nonCompose σ !! rl); cbn [mbind option_bind]; [|done].
  by intros [= <- <-].
Qed.

(** The part of the frame that holds: the pointer returned is new, and
    the structures of the descriptors that were in the store, [base] and
    [override] among them, are what they were. *)
Lemma Store_merge_allocates σ (bl ol : Store.loc) σ' (r : option Store.loc) :
  Store.MergeDevContainers σ (Some bl) (Some ol) = Some (σ', r) ->
  exists rl,
    r = Some rl
    /\ Store.descriptors σ !! rl = None
    /\ forall l, l <> rl -> Store.descriptors σ' !! l = Store.descriptors σ !! l.
Proof.
  unfold Store.MergeDevContainers.
  destruct (Store.descriptors σ !! bl) as [b|]; cbn [mbind option_bind]; [|done].
  destruct (Store.descriptors σ !! ol) as [o|]; cbn [mbind option_bind]; [|done].
  cbv zeta.
  destruct (Store.mergeEnv o _) as [[σ1 result1]|] eqn:E1;
    cbn [mbind option_bind]; [|done].
  destruct (Store.mergeNonCompose o _) as [[σ2 result2]|] eqn:E2;
    cbn [mbind option_bind]; [|done].
  apply mergeEnv_descriptors in E1. apply mergeNonCompose_descriptors in E2.
  intros [= <- <-]. eexists. split; [reflexivity|].
  cbn [Store.descriptors Store.set_descriptors]. rewrite E2, E1. split.
  - apply not_elem_of_dom, is_fresh.
  - intros l Hl. by rewrite lookup_insert_ne.
Qed.

(** C6 fails on the code.  The comment of the function says that [base]
    is deep-copied, but [result := *base] copies the structure only.  On a
    store where base and override each have an environment map and a
    [NonComposeBase] of their own, the pointer returned is new, yet after the
    call the environment map of [base] holds the override's value for the key
    A, and the [NonComposeBase] of [base] has the override's workspace folder
    and has lost its run-args. *)
Theorem merge_writes_into_base :
  snd <$> Store.MergeDevContainers Store.sample (Some 1%positive) (Some 2%positive)
  = Some (Some 3%positive)
  /\ Store.descriptors Store.sample !! 3%positive = None
  /\ Store.envs Store.sample !! 10%positive
     = Some (<["A" := "1"]> (<["B" := "base"]> ∅))
  /\ (Store.MergeDevContainers Store.sample (Some 1%positive) (Some 2%positive)
      ≫= fun '(σ, _) => Store.envs σ !! 10%positive)
     = Some (<["A" := "2"]> (<["B" := "base"]> ∅))
  /\ Store.nonCompose Store.sample !! 20%positive
     = Some (NonComposeBase.mk ["--network"; "host"] (Some "/base") None ANil)
  /\ (Store.MergeDevContainers Store.sample (Some 1%positive) (Some 2%positive)
      ≫= fun '(σ, _) => Store.nonCompose σ !! 20%positive)
     = Some (NonComposeBase.mk [] (Some "/leaf") None ANil)
  /\ (NonComposeBase <$> Store.read Store.sample 1%positive)
     <> (Store.MergeDevContainers Store.sample (Some 1%positive) (Some 2%positive)
         ≫= fun '(σ, _) => NonComposeBase <$> Store.read σ 1%positive).
Proof.
  vm_compute. repeat split; try reflexivity. discriminate.
Qed.

(** ** The store view and the value view agree on the result *)

Lemma erase_when {E N : Type} (c : bool) (f : DevContainer.t E N -> DevContainer.t E N)
    (g : DevContainer.t () () -> DevContainer.t () ()) (x : DevContainer.t E N) :
  (forall y, erase (f y) = g (erase y)) ->
  erase (when (fun _ => c) f x) = when (fun _ => c) g (erase x).
Proof. intros H. unfold when. destruct c; [apply H | reflexivity]. Qed.

Lemma rebuild (d : Store.obj) (r : DevContainer.v)
    (env : gmap string string) (n : option NonComposeBase.t) :
  erase d = erase r ->
  env = ContainerEnv r ->
  n = NonComposeBase r ->
  DevContainer.mk (Image d) (WorkspaceFolder d) (WorkspaceMount d) env
    (ContainerUser d) (ForwardPorts d) (AppPort d) (OnCreateCommand d)
    (UpdateContentCommand d) (PostCreateCommand d) (PostStartCommand d)
    (PostAttachCommand d) (InitializeCommand d) (Mounts d) (CapAdd d)
    (SecurityOpt d) (Init d) (Privileged d) (Features d) (Name d)
    (ImageContainer d) (DockerfileContainer d) (ComposeContainer d)
    (DockerComposeFile d) (Service d) n
  = r.
Proof.
  destruct d, r. unfold erase. cbn. intros [=] -> ->. by subst.
Qed.

Lemma read_inv (σ : Store.t) (l : Store.loc) (d : DevContainer.v) :
  Store.read σ l = Some d ->
  exists od,
    Store.descriptors σ !! l = Some od
    /\ Store.envAt σ (ContainerEnv od) = Some (ContainerEnv d)
    /\ Store.nonComposeAt σ (NonComposeBase od) = Some (NonComposeBase d)
    /\ erase od = erase d.
Proof.
  unfold Store.read.
  destruct (Store.descriptors σ !! l) as [od|]; cbn [mbind option_bind]; [|done].
  destruct (Store.envAt σ (ContainerEnv od)) as [env|] eqn:Ee;
    cbn [mbind option_bind]; [|done].
  destruct (Store.nonComposeAt σ (NonComposeBase od)) as [n|] eqn:En;
    cbn [mbind option_bind]; [|done].
  intros [= <-]. by exists od.
Qed.

Lemma map_fold_insert_union (m1 m2 : gmap string string) :
  map_fold (fun k v env => <[k := v]> env) m1 m2 = m2 ∪ m1.
Proof.
  induction m2 as [|k v m2 Hk Hfold IH] using map_first_key_ind.
  - by rewrite map_fold_empty, (left_id_L ∅ (∪)).
  - rewrite map_fold_insert_first_key by done.
    by rewrite IH, insert_union_l.
Qed.

Lemma mergeEnv_spec (override : Store.obj) σ (result : Store.obj)
    (oenv benv : gmap string string) :
  Store.envAt σ (ContainerEnv override) = Some oenv ->
  Store.envAt σ (ContainerEnv result) = Some benv ->
  exists σ1 result1,
    Store.mergeEnv override (σ, result) = Some (σ1, result1)
    /\ Store.nonCompose σ1 = Store.nonCompose σ
    /\ erase result1 = erase result
    /\ NonComposeBase result1 = NonComposeBase result
    /\ Store.envAt σ1 (ContainerEnv result1)
       = Some (if (0 <? size oenv)%nat
               then map_fold (fun k v env => <[k := v]> env) benv oenv
               else benv).
Proof.
  intros Ho Hb. unfold Store.mergeEnv. rewrite Ho. cbn [mbind option_bind].
  destruct (0 <? size oenv)%nat; [|by eexists _, _].
  destruct (ContainerEnv result) as [l|] eqn:El.
  - rewrite El. cbn [mbind option_bind]. cbn [Store.envAt] in Hb. rewrite Hb.
    cbn [mbind option_bind]. eexists _, _. split; [reflexivity|].
    split; [done|]. split; [done|]. split; [done|].
    rewrite El. cbn. by rewrite lookup_insert_eq.
  - cbn [ContainerEnv set_ContainerEnv mbind option_bind Store.envs Store.set_envs].
    rewrite lookup_insert_eq. cbn [mbind option_bind].
    eexists _, _. split; [reflexivity|].
    split; [done|]. split; [done|]. split; [done|].
    cbn. rewrite lookup_insert_eq. by injection Hb as <-.
Qed.

Lemma mergeNonCompose_spec (override : Store.obj) σ (result : Store.obj)
    (on bn : option NonComposeBase.t) :
  Store.nonComposeAt σ (NonComposeBase override) = Some on ->
  Store.nonComposeAt σ (NonComposeBase result) = Some bn ->
  exists σ2 result2,
    Store.mergeNonCompose override (σ, result) = Some (σ2, result2)
    /\ Store.envs σ2 = Store.envs σ
    /\ erase result2 = erase result
    /\ ContainerEnv result2 = ContainerEnv result
    /\ Store.nonComposeAt σ2 (NonComposeBase result2)
       = Some (match on with
               | Some on =>
                   match bn with
                   | None => Some on
                   | Some bn => Some (mergeNonComposeBase on bn)
                   end
               | None => bn
               end).
Proof.
  intros Ho Hb. unfold Store.mergeNonCompose.
  destruct (NonComposeBase override) as [ol|].
  - cbn [Store.nonComposeAt] in Ho.
    destruct (Store.nonCompose σ !! ol) as [onv|] eqn:Eo; [|done].
    injection Ho as <-.
    destruct (NonComposeBase result) as [rl|] eqn:Er.
    + cbn [Store.nonComposeAt] in Hb.
      destruct (Store.nonCompose σ !! rl) as [bnv|] eqn:Eb; [|done].
      injection Hb as <-. cbn [mbind option_bind].
      eexists _, _. split; [reflexivity|].
      split; [done|]. split; [done|]. split; [done|].
      rewrite Er. cbn. by rewrite lookup_insert_eq.
    + injection Hb as <-. eexists _, _. split; [reflexivity|].
      split; [done|]. split; [done|]. split; [done|].
      cbn. by rewrite Eo.
  - injection Ho as <-. eexists _, _. split; [reflexivity|].
    split; [done|]. split; [done|]. split; [done|]. done.
Qed.

Lemma Merge_ContainerEnv (base override : DevContainer.v) :
  ContainerEnv <$> MergeDevContainers (Some base) (Some override)
  = Some (if (0 <? size (ContainerEnv override))%nat
          then map_fold (fun k v env => <[k := v]> env)
                 (ContainerEnv base) (ContainerEnv override)
          else ContainerEnv base).
Proof.
  unfold MergeDevContainers. cbv zeta.
  cbn [fmap option_fmap option_map]. f_equal.
  rewrite !(proj_when ContainerEnv) by done.
  rewrite (proj_mergeNonCompose ContainerEnv) by done.
  rewrite !(proj_when ContainerEnv) by done.
  unfold when at 1.
  destruct (0 <? size (ContainerEnv override))%nat.
  - cbn [ContainerEnv set_ContainerEnv]. by rewrite !(proj_when ContainerEnv) by done.
  - by rewrite !(proj_when ContainerEnv) by done.
Qed.

Lemma envAt_ext (σ σ' : Store.t) (p : option Store.loc) :
  Store.envs σ' = Store.envs σ -> Store.envAt σ' p = Store.envAt σ p.
Proof. intros H. unfold Store.envAt. by rewrite H. Qed.

Lemma nonComposeAt_ext (σ σ' : Store.t) (p : option Store.loc) :
  Store.nonCompose σ' = Store.nonCompose σ ->
  Store.nonComposeAt σ' p = Store.nonComposeAt σ p.
Proof. intros H. unfold Store.nonComposeAt. by rewrite H. Qed.

(** the setter of the erased descriptor that corresponds to [s v] *)
Ltac erased_setter s v :=
  lazymatch s with
  | @set_Image _ _ => constr:(@set_Image () () v)
  | @set_ImageContainer _ _ => constr:(@set_ImageContainer () () v)
  | @set_Name _ _ => constr:(@set_Name () () v)
  | @set_ForwardPorts _ _ => constr:(@set_ForwardPorts () () v)
  | @set_CapAdd _ _ => constr:(@set_CapAdd () () v)
  | @set_SecurityOpt _ _ => constr:(@set_SecurityOpt () () v)
  | @set_Features _ _ => constr:(@set_Features () () v)
  | @set_Mounts _ _ => constr:(@set_Mounts () () v)
  | @set_InitializeCommand _ _ => constr:(@set_InitializeCommand () () v)
  | @set_OnCreateCommand _ _ => constr:(@set_OnCreateCommand () () v)
  | @set_UpdateContentCommand _ _ => constr:(@set_UpdateContentCommand () () v)
  | @set_PostCreateCommand _ _ => constr:(@set_PostCreateCommand () () v)
  | @set_PostStartCommand _ _ => constr:(@set_PostStartCommand () () v)
  | @set_PostAttachCommand _ _ => constr:(@set_PostAttachCommand () () v)
  end.

Ltac push_erase :=
  repeat match goal with
         | |- context [erase (when (fun _ => ?c) (?s ?v) ?x)] =>
             let g := erased_setter s v in
             rewrite (erase_when c (s v) g x) by reflexivity
         end.

(** X18.  The pointer [MergeDevContainers] returns in the store view
    denotes the descriptor it returns in the value view. *)
Lemma Store_merge_reads_as_value (σ : Store.t) (bl ol : Store.loc)
    (base override : DevContainer.v) :
  Store.read σ bl = Some base ->
  Store.read σ ol = Some override ->
  exists σ' rl,
    Store.MergeDevContainers σ (Some bl) (Some ol) = Some (σ', Some rl)
    /\ Store.read σ' rl = MergeDevContainers (Some base) (Some override).
Proof.
  intros (bd & Hbd & Hbe & Hbn & Hbx)%read_inv (od & Hod & Hoe & Hon & Hox)%read_inv.
  unfold Store.MergeDevContainers. rewrite Hbd, Hod. cbn [mbind option_bind].
  cbv zeta.
  match goal with
  | |- context [Store.mergeEnv od (σ, ?r)] => set (r0 := r)
  end.
  assert (H0e : Store.envAt σ (ContainerEnv r0) = Some (ContainerEnv base)).
  { subst r0. by rewrite !(proj_when ContainerEnv) by done. }
  assert (H0n : NonComposeBase r0 = NonComposeBase bd).
  { subst r0. by rewrite !(proj_when NonComposeBase) by done. }
  destruct (mergeEnv_spec od σ r0 _ _ Hoe H0e)
    as (σ1 & r1 & -> & Hnc1 & Hx1 & Hn1 & He1).
  cbn [mbind option_bind].
  match goal with
  | |- context [Store.mergeNonCompose od (σ1, ?r)] => set (r2 := r)
  end.
  assert (H2e : ContainerEnv r2 = ContainerEnv r1).
  { subst r2. by rewrite !(proj_when ContainerEnv) by done. }
  assert (H2n : Store.nonComposeAt σ1 (NonComposeBase r2)
                = Some (NonComposeBase base)).
  { subst r2. rewrite !(proj_when NonComposeBase) by done.
    by rewrite Hn1, H0n, (nonComposeAt_ext σ). }
  assert (Hon1 : Store.nonComposeAt σ1 (NonComposeBase od)
                 = Some (NonComposeBase override))
    by (by rewrite (nonComposeAt_ext σ)).
  destruct (mergeNonCompose_spec od σ1 r2 _ _ Hon1 H2n)
    as (σ2 & r3 & -> & Hev2 & Hx3 & He3 & Hn3).
  cbn [mbind option_bind].
  eexists _, _. split; [reflexivity|].
  unfold Store.read.
  cbn [Store.descriptors Store.set_descriptors]. rewrite lookup_insert_eq.
  cbn [mbind option_bind].
  rewrite !(proj_when ContainerEnv), !(proj_when NonComposeBase) by done.
  rewrite (envAt_ext σ1), (nonComposeAt_ext σ2) by done.
  rewrite He3, H2e, He1, Hn3. cbn [mbind option_bind].
  pose proof (Merge_ContainerEnv base override) as HE.
  pose proof (Merge_NonComposeBase base override) as HN.
  assert (HX : erase <$> MergeDevContainers (Some base) (Some override)
               = Some (erase (when (fun _ => notNil (PostAttachCommand od))
                                (set_PostAttachCommand (PostAttachCommand od))
                                (when (fun _ => notNil (PostStartCommand od))
                                   (set_PostStartCommand (PostStartCommand od))
                                   (when (fun _ => notNil (PostCreateCommand od))
                                      (set_PostCreateCommand (PostCreateCommand od))
                                      (when (fun _ => notNil (UpdateContentCommand od))
                                         (set_UpdateContentCommand
                                            (UpdateContentCommand od))
                                         (when (fun _ => notNil (OnCreateCommand od))
                                            (set_OnCreateCommand (OnCreateCommand od))
                                            (when
                                               (fun _ => notNil (InitializeCommand od))
                                               (set_InitializeCommand
                                                  (InitializeCommand od))
                                               r3)))))))).
  { unfold MergeDevContainers. cbv zeta. cbn [fmap option_fmap option_map].
    f_equal. push_erase. rewrite Hx3. subst r2. push_erase. rewrite Hx1.
    subst r0. push_erase.
    rewrite (proj_mergeNonCompose erase) by done. push_erase.
    rewrite (proj_when erase) by done. push_erase.
    clear - Hbx Hox. destruct bd, base, od, override.
    unfold erase in Hbx, Hox. cbn in Hbx, Hox.
    injection Hbx as -> -> -> -> -> -> -> -> -> -> -> -> -> -> -> -> -> ->
      -> -> -> -> -> ->.
    injection Hox as -> -> -> -> -> -> -> -> -> -> -> -> -> -> -> -> -> ->
      -> -> -> -> -> ->.
    reflexivity. }
  destruct (MergeDevContainers (Some base) (Some override)) as [rv|];
    [|discriminate HE].
  cbn [fmap option_fmap option_map] in HE, HN, HX.
  apply Some_inj in HE, HN, HX.
  f_equal. apply rebuild; [by rewrite HX | by rewrite HE | by rewrite HN].
Qed.

(** * Properties of the further functions *)

(** ** Decimal numbers: [Itoa] and [Atoi] *)

Lemma digitsValue_acc (d : Decimal.uint) (acc : positive) :
  digitsValue (Z.pos acc) (NilEmpty.string_of_uint d)
  = Some (Z.pos (Pos.of_uint_acc d acc)).
Proof.
  revert acc. induction d; intros acc; cbn [NilEmpty.string_of_uint digitsValue Pos.of_uint_acc];
    try reflexivity.
  all: change (digitValue _) with (Some 0%Z) || change (digitValue _) with (Some 1%Z)
    || change (digitValue _) with (Some 2%Z) || change (digitValue _) with (Some 3%Z)
    || change (digitValue _) with (Some 4%Z) || change (digitValue _) with (Some 5%Z)
    || change (digitValue _) with (Some 6%Z) || change (digitValue _) with (Some 7%Z)
    || change (digitValue _) with (Some 8%Z) || change (digitValue _) with (Some 9%Z).
  all: cbv iota beta.
  all: rewrite <- IHd; f_equal; lia.
Qed.

Lemma digitsValue_uint (d : Decimal.uint) :
  digitsValue 0 (NilEmpty.string_of_uint d) = Some (Z.of_N (Pos.of_uint d)).
Proof.
  induction d; cbn [NilEmpty.string_of_uint digitsValue Pos.of_uint]; try reflexivity.
  all: change (digitValue _) with (Some 0%Z) || change (digitValue _) with (Some 1%Z)
    || change (digitValue _) with (Some 2%Z) || change (digitValue _) with (Some 3%Z)
    || change (digitValue _) with (Some 4%Z) || change (digitValue _) with (Some 5%Z)
    || change (digitValue _) with (Some 6%Z) || change (digitValue _) with (Some 7%Z)
    || change (digitValue _) with (Some 8%Z) || change (digitValue _) with (Some 9%Z).
  all: cbv iota beta.
  1: exact IHd.
  all: apply (digitsValue_acc d).
Qed.

Lemma Atoi_digits (d : Decimal.uint) :
  d <> Decimal.Nil ->
  (Z.of_N (Pos.of_uint d) <= 2 ^ 63 - 1)%Z ->
  Atoi (NilEmpty.string_of_uint d) = Some (Z.of_N (Pos.of_uint d)).
Proof.
  intros Hd Hr. unfold Atoi.
  assert (Hs : match NilEmpty.string_of_uint d with
               | String "-" r => (true, r)
               | String "+" r => (false, r)
               | _ => (false, NilEmpty.string_of_uint d)
               end = (false, NilEmpty.string_of_uint d)).
  { destruct d; reflexivity. }
  rewrite Hs.
  destruct (NilEmpty.string_of_uint d) eqn:E.
  { destruct d; try discriminate. congruence. }
  rewrite <- E, digitsValue_uint.
  destruct (andb_true_iff (- 2 ^ 63 <=? Z.of_N (Pos.of_uint d))%Z
              (Z.of_N (Pos.of_uint d) <=? 2 ^ 63 - 1)%Z) as [_ H].
  rewrite H; [reflexivity|]. split; apply Z.leb_le; lia.
Qed.

Lemma Atoi_neg_digits (d : Decimal.uint) :
  d <> Decimal.Nil ->
  (Z.of_N (Pos.of_uint d) <= 2 ^ 63)%Z ->
  Atoi (String "-" (NilEmpty.string_of_uint d)) = Some (- Z.of_N (Pos.of_uint d))%Z.
Proof.
  intros Hd Hr. unfold Atoi.
  destruct (NilEmpty.string_of_uint d) eqn:E.
  { destruct d; try discriminate. congruence. }
  rewrite <- E, digitsValue_uint.
  destruct (andb_true_iff (- 2 ^ 63 <=? - Z.of_N (Pos.of_uint d))%Z
              (- Z.of_N (Pos.of_uint d) <=? 2 ^ 63 - 1)%Z) as [_ H].
  rewrite H; [reflexivity|]. split; apply Z.leb_le; lia.
Qed.

Lemma NilZero_nonnil (d : Decimal.uint) :
  d <> Decimal.Nil -> NilZero.string_of_uint d = NilEmpty.string_of_uint d.
Proof. by destruct d. Qed.

(** [Atoi] reads back what [%d] prints. *)
Theorem Atoi_reads_back_Itoa (n : Z) :
  (- 2 ^ 63 <= n <= 2 ^ 63 - 1)%Z -> Atoi (Itoa n) = Some n.
Proof.
  intros Hn. unfold Itoa. destruct n as [|p|p]; cbn [Z.to_int NilZero.string_of_int].
  - reflexivity.
  - rewrite NilZero_nonnil by apply DecimalPos.Unsigned.to_uint_nonnil.
    rewrite Atoi_digits.
    + by rewrite DecimalPos.Unsigned.of_to.
    + apply DecimalPos.Unsigned.to_uint_nonnil.
    + rewrite DecimalPos.Unsigned.of_to. cbn [Z.of_N]. lia.
  - rewrite NilZero_nonnil by apply DecimalPos.Unsigned.to_uint_nonnil.
    rewrite Atoi_neg_digits.
    + by rewrite DecimalPos.Unsigned.of_to.
    + apply DecimalPos.Unsigned.to_uint_nonnil.
    + rewrite DecimalPos.Unsigned.of_to. cbn [Z.of_N]. lia.
Qed.

Lemma Itoa_nonempty (n : Z) :
  (- 2 ^ 63 <= n <= 2 ^ 63 - 1)%Z -> String.eqb (Itoa n) EmptyString = false.
Proof.
  intros Hn. pose proof (Atoi_reads_back_Itoa n Hn) as H.
  destruct (Itoa n); [discriminate|reflexivity].
Qed.

(** X1.  A CPU count printed from an integer is accepted exactly when the
    integer is positive, whatever the memory, storage and GPU requirements
    say. *)
Theorem HostRequirementsCheck_accepts_positive_counts
    (n : Z) (memory storage gpu : string) :
  (- 2 ^ 63 <= n <= 2 ^ 63 - 1)%Z ->
  HostRequirementsCheck
    (Some (DevContainerCommonHostRequirements.mk (Itoa n) memory storage gpu)) = None
  <-> (0 < n)%Z.
Proof.
  intros Hn. unfold HostRequirementsCheck.
  cbn [DevContainerCommonHostRequirements.CPUs].
  rewrite Itoa_nonempty, Atoi_reads_back_Itoa by done. cbn [negb].
  destruct (n <=? 0)%Z eqn:E.
  - apply Z.leb_le in E. split; [discriminate|lia].
  - apply Z.leb_gt in E. done.
Qed.

Lemma HostRequirementsCheck_accepts_positive_counts_witness :
  HostRequirementsCheck
    (Some (DevContainerCommonHostRequirements.mk (Itoa 4) "8gb" "32gb" "optional"))
  = None.
Proof.
  apply (HostRequirementsCheck_accepts_positive_counts 4 "8gb" "32gb" "optional"); lia.
Defined.

(** ** Counting one byte *)

Lemma count_byte_app (c : ascii) (a b : string) :
  Count (a +:+ b) (String c EmptyString)
  = (Count a (String c EmptyString) + Count b (String c EmptyString))%nat.
Proof.
  unfold Count. induction a as [|x a IH].
  - reflexivity.
  - change (String x a +:+ b) with (String x (a +:+ b)).
    cbn [count_from String.length Nat.sub].
    unfold HasPrefix. cbn [String.prefix].
    destruct (Ascii.ascii_dec c x) as [_|_].
    + assert (Hp : forall s, String.prefix EmptyString s = true) by (by intros []).
      rewrite !Hp, IH. reflexivity.
    + exact IH.
Qed.

Lemma count_colon_uint (d : Decimal.uint) :
  Count (NilEmpty.string_of_uint d) ":" = 0%nat.
Proof. induction d; try reflexivity; exact IHd. Qed.

Lemma count_colon_Itoa (n : Z) : Count (Itoa n) ":" = 0%nat.
Proof.
  unfold Itoa. destruct n as [|p|p]; cbn [Z.to_int NilZero.string_of_int].
  - reflexivity.
  - rewrite NilZero_nonnil by apply DecimalPos.Unsigned.to_uint_nonnil.
    apply count_colon_uint.
  - rewrite NilZero_nonnil by apply DecimalPos.Unsigned.to_uint_nonnil.
    apply (count_colon_uint (Pos.to_uint p)).
Qed.

Lemma validatePort_number (n : Z) :
  validatePort (Itoa n +:+ ":" +:+ Itoa n) = None.
Proof.
  unfold validatePort.
  rewrite count_byte_app, (count_byte_app ":" ":"), !count_colon_Itoa.
  reflexivity.
Qed.

(** ** Containment *)

Lemma HasPrefix_app (p s : string) : HasPrefix (p +:+ s) p = true.
Proof.
  unfold HasPrefix. induction p as [|c p IH].
  - by destruct s.
  - change (String c p +:+ s) with (String c (p +:+ s)). cbn [String.prefix].
    destruct (Ascii.ascii_dec c c); [exact IH|done].
Qed.

Lemma Contains_app_r (a b sub : string) :
  Contains b sub = true -> Contains (a +:+ b) sub = true.
Proof.
  intros H. induction a as [|c a IH].
  - exact H.
  - change (String c a +:+ b) with (String c (a +:+ b)). cbn [Contains].
    rewrite IH. apply orb_true_r.
Qed.

Lemma Contains_prefix (s p : string) : HasPrefix s p = true -> Contains s p = true.
Proof. intros H. destruct s; cbn [Contains]; by rewrite H. Qed.

Lemma Contains_here (p s : string) : Contains (p +:+ s) p = true.
Proof. apply Contains_prefix, HasPrefix_app. Qed.

Lemma validateMount_canonical (k : string) (src : option string) (t : string) (ro : bool) :
  validateMount (canonicalMount k src t ro) = None.
Proof.
  unfold validateMount, canonicalMount.
  rewrite Contains_here. cbn [negb].
  rewrite (Contains_app_r "type=" _ "target="); [reflexivity|].
  do 2 apply Contains_app_r.
  apply (Contains_app_r "," ("target=" +:+ _)), Contains_here.
Qed.

Lemma firstError_None {A : Type} (check : A -> option error) (l : list A) :
  Forall (fun x => check x = None) l -> firstError check l = None.
Proof. induction 1 as [|x l Hx _ IH]; [done|]. cbn [firstError]. by rewrite Hx. Qed.

Lemma declaredPorts_numeric (v : Any) (p : string) :
  numericPorts v -> p ∈ declaredPorts v ->
  exists n, p = Itoa n +:+ ":" +:+ Itoa n.
Proof.
  destruct v as [| |n| |l|]; cbn [numericPorts declaredPorts normalizePort option_list];
    try done.
  - intros _ Hp. by apply elem_of_nil in Hp.
  - intros _ Hp. apply list_elem_of_singleton in Hp. by exists n.
  - intros Hl Hp. apply list_elem_of_omap in Hp as (x & Hx & Hn).
    rewrite Forall_forall in Hl. destruct (Hl x Hx) as [n ->].
    cbn in Hn. injection Hn as <-. by exists n.
Qed.

Lemma forwardedPorts_numeric (v : Any) (p : string) :
  numericPorts v -> p ∈ forwardedPorts v ->
  exists n, p = Itoa n +:+ ":" +:+ Itoa n.
Proof.
  destruct v as [| |n| |l|]; cbn [numericPorts forwardedPorts]; try done.
  - intros _ Hp. by apply elem_of_nil in Hp.
  - intros _ Hp. by apply elem_of_nil in Hp.
  - intros Hl Hp. apply (declaredPorts_numeric (AArr l)); done.
Qed.

(** X2.  A descriptor whose mounts are all structured with a textual target and
    whose port fields hold numbers only gives a plan that [Validate]
    accepts, provided the image of the plan is not empty. *)
Theorem structured_numeric_plan_validates
    (LookupEnv : string -> option string)
    (rangeMap : gmap string string -> list (string * string))
    (filepath_Base filepath_Abs : string -> string)
    (dc : DevContainer.v) (workspaceFolder : string) (cfg : DockerRunConfig.t) :
  BuildDockerRunCommand LookupEnv rangeMap filepath_Base filepath_Abs
    dc workspaceFolder = inl cfg ->
  DockerRunConfig.Image cfg <> EmptyString ->
  Forall structuredMount (Mounts dc) ->
  numericPorts (AppPort dc) ->
  numericPorts (default ANil (NonComposeBase.AppPort <$> NonComposeBase dc)) ->
  numericPorts (ForwardPorts dc) ->
  Validate cfg = None.
Proof.
  intros HB HI HM HA HN HF.
  pose proof (Build_cases LookupEnv rangeMap filepath_Base filepath_Abs
                dc workspaceFolder) as H.
  rewrite HB in H. destruct H as (_ & _ & HP & HMs & _).
  unfold Validate.
  destruct (String.eqb_spec (DockerRunConfig.Image cfg) EmptyString) as [E|_];
    [done|].
  rewrite firstError_None.
  - apply firstError_None. rewrite HP. apply Forall_forall. intros p Hp.
    apply (proj1 (firstOccurrences_elem _ _)) in Hp. unfold portCandidates in Hp.
    assert (exists n, p = Itoa n +:+ ":" +:+ Itoa n) as [n ->].
    { apply elem_of_app in Hp as [Hp|Hp];
        [by apply (declaredPorts_numeric (AppPort dc))|].
      apply elem_of_app in Hp as [Hp|Hp];
        [|by apply (forwardedPorts_numeric (ForwardPorts dc))].
      apply (declaredPorts_numeric
               (default ANil (NonComposeBase.AppPort <$> NonComposeBase dc))); [done|].
      by destruct (NonComposeBase dc). }
    apply validatePort_number.
  - rewrite HMs, ExpandVariables_Mounts. unfold resolvedMounts.
    rewrite map_map. apply Forall_forall. intros s Hs.
    apply list_elem_of_In, in_flat_map in Hs as (mount & Hin & Hs).
    apply in_map_iff in Hin as (mount0 & <- & Hin0).
    apply list_elem_of_In in Hin0, Hs.
    rewrite Forall_forall in HM. destruct (HM mount0 Hin0) as (m & t & -> & Ht).
    rewrite (structured_mount_entry _ _ _ m t Ht) in Hs.
    apply list_elem_of_singleton in Hs as ->.
    apply validateMount_canonical.
Qed.

(** ** Command lines *)

Lemma ToDockerRunArgs_groups
    (rangeMap : gmap string string -> list (string * string))
    (c : DockerRunConfig.t) :
  ToDockerRunArgs rangeMap c
  = "run"
    :: (["--rm"; "-it"]
        ++ optionalGroup (negb (String.eqb (DockerRunConfig.Name c) EmptyString))
             ["--name"; DockerRunConfig.Name c]
        ++ optionalGroup
             (negb (String.eqb (DockerRunConfig.WorkspaceMount c) EmptyString)
              && negb (String.eqb (DockerRunConfig.WorkspaceMount c) "none"))
             ["-v"; DockerRunConfig.WorkspaceMount c]
        ++ optionalGroup
             (negb (String.eqb (DockerRunConfig.WorkspaceFolder c) EmptyString))
             ["-w"; DockerRunConfig.WorkspaceFolder c]
        ++ flat_map (fun '(k, v) => ["-e"; k +:+ "=" +:+ v])
             (rangeMap (DockerRunConfig.Environment c))
        ++ flagEach "-p" (DockerRunConfig.Ports c)
        ++ DockerRunConfig.RunArgs c
        ++ flagEach "--mount" (DockerRunConfig.Mounts c)
        ++ flagEach "--cap-add"
             (orAlias (DockerRunConfig.CapAdd c) (DockerRunConfig.Capabilities c))
        ++ flagEach "--security-opt"
             (orAlias (DockerRunConfig.SecurityOpt c) (DockerRunConfig.SecurityOpts c))
        ++ optionalGroup (DockerRunConfig.Init c) ["--init"]
        ++ optionalGroup (DockerRunConfig.Privileged c) ["--privileged"]
        ++ optionalGroup (negb (String.eqb (DockerRunConfig.User c) EmptyString))
             ["-u"; DockerRunConfig.User c])
       ++ DockerRunConfig.Image c :: DockerRunConfig.Command c.
Proof.
  unfold ToDockerRunArgs, flagEach. cbv zeta.
  rewrite !alias_choice.
  repeat first
    [ rewrite append_optional
    | rewrite fold_left_append
    | rewrite fold_left_append_pair ].
  rewrite <- !app_assoc. reflexivity.
Qed.

Lemma passedOver_nil : passedOver [].
Proof. by intros rest. Qed.

Lemma passedOver_app (a b : list string) :
  passedOver a -> passedOver b -> passedOver (a ++ b).
Proof. intros Ha Hb rest. by rewrite <- app_assoc, Ha, Hb. Qed.

Lemma passedOver_valued (flag value : string) :
  HasPrefix flag "-" = true -> flag ∈ extractedFlagsWithValues ->
  passedOver [flag; value].
Proof.
  intros Hd Hf rest. cbn [app extractFrom]. rewrite Hd.
  by rewrite (bool_decide_eq_true_2 _ Hf).
Qed.

Lemma passedOver_flag (flag : string) :
  selfContainedFlag flag -> passedOver [flag].
Proof.
  intros [Hd Hf] rest. cbn [app extractFrom]. rewrite Hd.
  by rewrite (bool_decide_eq_false_2 _ Hf).
Qed.

Lemma passedOver_flat_map {A : Type} (f : A -> list string) (l : list A) :
  (forall x, passedOver (f x)) -> passedOver (flat_map f l).
Proof.
  intros Hf. induction l as [|x l IH]; [apply passedOver_nil|].
  cbn [flat_map]. by apply passedOver_app.
Qed.

Lemma passedOver_optional (b : bool) (seg : list string) :
  passedOver seg -> passedOver (optionalGroup b seg).
Proof. destruct b; [done|intros _; apply passedOver_nil]. Qed.

Lemma passedOver_flags (l : list string) :
  Forall selfContainedFlag l -> passedOver l.
Proof.
  induction 1 as [|x l Hx _ IH]; [apply passedOver_nil|].
  apply (passedOver_app [x] l); [by apply passedOver_flag|done].
Qed.

Ltac valued := apply passedOver_valued; [reflexivity | by vm_compute].
Ltac plain := apply passedOver_flag; split; [reflexivity | by vm_compute].

Lemma extract_generated
    (rangeMap : gmap string string -> list (string * string))
    (c : DockerRunConfig.t) :
  noDash (DockerRunConfig.Image c) ->
  Forall selfContainedFlag (DockerRunConfig.RunArgs c) ->
  ExtractDockerImage (ToDockerRunArgs rangeMap c) = inl (DockerRunConfig.Image c).
Proof.
  intros HI HR. rewrite ToDockerRunArgs_groups.
  unfold ExtractDockerImage. cbn [tail].
  match goal with |- extractFrom false (?seg ++ _) = _ =>
    assert (passedOver seg) as Hseg
  end.
  { repeat first
      [ apply passedOver_app
      | apply passedOver_optional
      | apply passedOver_flat_map; intros ? ].
    all: try (by apply passedOver_flags).
    all: try valued.
    all: try plain.
    - apply (passedOver_app ["--rm"] ["-it"]); plain.
    - destruct x. valued. }
  rewrite Hseg. cbn [extractFrom]. by rewrite HI.
Qed.

(** X3.  [ExtractDockerImage] finds the image of the plan in the arguments
    [ToDockerRunArgs] generates, when the image does not start with a dash
    and every extra run-arg is a flag that carries its own value. *)
Theorem ExtractDockerImage_finds_the_image
    (rangeMap : gmap string string -> list (string * string))
    (c : DockerRunConfig.t) :
  noDash (DockerRunConfig.Image c) ->
  Forall selfContainedFlag (DockerRunConfig.RunArgs c) ->
  ExtractDockerImage (ToDockerRunArgs rangeMap c) = inl (DockerRunConfig.Image c).
Proof. apply extract_generated. Qed.

Lemma accepted_nil : accepted [].
Proof. by intros rest. Qed.

Lemma accepted_app (a b : list string) :
  accepted a -> accepted b -> accepted (a ++ b).
Proof. intros Ha Hb rest. by rewrite <- app_assoc, Ha, Hb. Qed.

Lemma accepted_valued (flag value : string) :
  HasPrefix flag "-" = true -> flag ∈ validatedFlagsWithValues ->
  noDash value -> accepted [flag; value].
Proof.
  intros Hd Hf Hv rest. cbn [app validateFrom]. rewrite Hd.
  rewrite (bool_decide_eq_true_2 _ Hf). by rewrite Hv.
Qed.

Lemma validated_extracted (flag : string) :
  flag ∈ validatedFlagsWithValues -> flag ∈ extractedFlagsWithValues.
Proof. unfold validatedFlagsWithValues, extractedFlagsWithValues. set_solver. Qed.

Lemma accepted_flag (flag : string) :
  selfContainedFlag flag -> accepted [flag].
Proof.
  intros [Hd Hf] rest. cbn [app validateFrom]. rewrite Hd.
  rewrite bool_decide_eq_false_2; [done|].
  intros H. by apply Hf, validated_extracted.
Qed.

Lemma accepted_flat_map {A : Type} (f : A -> list string) (l : list A) :
  Forall (fun x => accepted (f x)) l -> accepted (flat_map f l).
Proof.
  induction 1 as [|x l Hx _ IH]; [apply accepted_nil|].
  cbn [flat_map]. by apply accepted_app.
Qed.

Lemma accepted_optional (b : bool) (seg : list string) :
  accepted seg -> accepted (optionalGroup b seg).
Proof. destruct b; [done|intros _; apply accepted_nil]. Qed.

Lemma accepted_flags (l : list string) :
  Forall selfContainedFlag l -> accepted l.
Proof.
  induction 1 as [|x l Hx _ IH]; [apply accepted_nil|].
  apply (accepted_app [x] l); [by apply accepted_flag|done].
Qed.

Lemma accepted_flagEach (flag : string) (values : list string) :
  HasPrefix flag "-" = true -> flag ∈ validatedFlagsWithValues ->
  Forall noDash values -> accepted (flagEach flag values).
Proof.
  intros Hd Hf Hv. apply accepted_flat_map.
  eapply Forall_impl; [exact Hv|]. intros v Hn. by apply accepted_valued.
Qed.

Lemma noDash_entry (k v : string) : noDash k -> noDash (k +:+ "=" +:+ v).
Proof.
  unfold noDash, HasPrefix. destruct k as [|c k]; [done|].
  change (String c k +:+ "=" +:+ v) with (String c (k +:+ "=" +:+ v)).
  cbn [String.prefix]. destruct (Ascii.ascii_dec "-" c); [|done].
  by destruct k.
Qed.

Lemma orAlias_Forall (P : string -> Prop) (field alias : list string) :
  Forall P field -> Forall P alias -> Forall P (orAlias field alias).
Proof. by destruct field. Qed.

Lemma validate_generated
    (rangeMap : gmap string string -> list (string * string))
    (c : DockerRunConfig.t) :
  dashFree rangeMap c ->
  Forall selfContainedFlag (DockerRunConfig.RunArgs c) ->
  ValidateDockerCommand (ToDockerRunArgs rangeMap c) = None.
Proof.
  intros (HN & HW & HF & HE & HP & HM & HC & HC' & HS & HS' & HU & HI) HR.
  rewrite ToDockerRunArgs_groups.
  unfold ValidateDockerCommand. cbn [String.eqb Ascii.eqb Bool.eqb negb].
  match goal with |- context [validateFrom false (?seg ++ _)] =>
    assert (accepted seg) as Hseg
  end.
  { repeat first
      [ apply accepted_app
      | apply accepted_optional ].
    all: try (by apply accepted_flags).
    all: try (apply accepted_flagEach; [reflexivity | by vm_compute | ]).
    all: try (by apply orAlias_Forall).
    all: try (apply accepted_valued; [reflexivity | by vm_compute | done]).
    all: try (apply accepted_flag; split; [reflexivity | by vm_compute]).
    all: try done.
    all: try (by intros rest).
    apply accepted_flat_map. eapply Forall_impl; [exact HE|].
    intros [k v] Hk. apply accepted_valued; [reflexivity | by vm_compute | ].
    by apply noDash_entry. }
  rewrite Hseg. cbn [validateFrom]. by rewrite HI.
Qed.

(** [ValidateDockerCommand] accepts the arguments [ToDockerRunArgs]
    generates for a plan none of whose values starts with a dash and whose
    extra run-args are flags that carry their own values. *)
Theorem ValidateDockerCommand_accepts_generated_arguments
    (rangeMap : gmap string string -> list (string * string))
    (c : DockerRunConfig.t) :
  dashFree rangeMap c ->
  Forall selfContainedFlag (DockerRunConfig.RunArgs c) ->
  ValidateDockerCommand (ToDockerRunArgs rangeMap c) = None.
Proof. apply validate_generated. Qed.

(** X4.  [DryRunDockerCommand] accepts the arguments [ToDockerRunArgs]
    generates for a plan none of whose values starts with a dash and whose
    extra run-args are flags that carry their own values, when the image
    names a tag or a registry and is not the image the dry run treats as
    absent. *)
Theorem DryRunDockerCommand_accepts_generated_arguments
    (rangeMap : gmap string string -> list (string * string))
    (c : DockerRunConfig.t) :
  dashFree rangeMap c ->
  Forall selfContainedFlag (DockerRunConfig.RunArgs c) ->
  Contains (DockerRunConfig.Image c) "this-image-definitely-does-not-exist" = false ->
  Contains (DockerRunConfig.Image c) ":" = true
  \/ Contains (DockerRunConfig.Image c) "/" = true ->
  DryRunDockerCommand (ToDockerRunArgs rangeMap c) = None.
Proof.
  intros HD HR Hx Ht. unfold DryRunDockerCommand.
  rewrite validate_generated by done.
  rewrite extract_generated by (done || apply HD).
  rewrite ToDockerRunArgs_groups. cbn [String.eqb Ascii.eqb Bool.eqb negb].
  rewrite Hx. by destruct Ht as [-> | ->]; [|rewrite andb_false_r].
Qed.

(** ** Mount strings read back *)

Lemma splitOn_whole (c : ascii) (a : string) :
  hasByte c a = false -> splitOn c a = [a].
Proof.
  induction a as [|x a IH]; [done|]. cbn [hasByte splitOn].
  intros H. apply orb_false_iff in H as [Hx Ha]. rewrite Hx, (IH Ha). done.
Qed.

Lemma splitOn_piece (c : ascii) (a b : string) :
  hasByte c a = false -> splitOn c (a +:+ String c b) = a :: splitOn c b.
Proof.
  induction a as [|x a IH].
  - intros _. change (EmptyString +:+ String c b) with (String c b).
    cbn [splitOn]. by rewrite Ascii.eqb_refl.
  - cbn [hasByte]. intros H. apply orb_false_iff in H as [Hx Ha].
    change (String x a +:+ String c b) with (String x (a +:+ String c b)).
    cbn [splitOn]. by rewrite Hx, (IH Ha).
Qed.

Lemma hasByte_app (c : ascii) (a b : string) :
  hasByte c (a +:+ b) = hasByte c a || hasByte c b.
Proof.
  induction a as [|x a IH]; [done|].
  change (String x a +:+ b) with (String x (a +:+ b)). cbn [hasByte].
  by rewrite IH, orb_assoc.
Qed.

Lemma splitOn_canonical (k : string) (src : option string) (t : string) (ro : bool) :
  hasByte "," k = false ->
  (forall s, src = Some s -> hasByte "," s = false) ->
  hasByte "," t = false ->
  splitOn "," (canonicalMount k src t ro)
  = ["type=" +:+ k]
    ++ match src with Some s => ["source=" +:+ s] | None => [] end
    ++ ["target=" +:+ t]
    ++ (if ro then ["readonly"] else []).
Proof.
  intros Hk Hs Ht. unfold canonicalMount.
  assert (Htail : splitOn "," ("target=" +:+ t +:+ (if ro then ",readonly" else EmptyString))
                  = ["target=" +:+ t] ++ (if ro then ["readonly"] else [])).
  { destruct ro.
    - rewrite <- append_assoc.
      rewrite (splitOn_piece "," ("target=" +:+ t) "readonly")
        by (by rewrite hasByte_app, Ht).
      reflexivity.
    - rewrite append_empty_r. apply splitOn_whole. by rewrite hasByte_app, Ht. }
  destruct src as [s|].
  - transitivity
      (splitOn ","
         (("type=" +:+ k)
          +:+ String "," (("source=" +:+ s)
                          +:+ String "," ("target=" +:+ t
                                          +:+ (if ro then ",readonly" else EmptyString))))).
    { reflexivity. }
    rewrite splitOn_piece by (by rewrite hasByte_app, Hk).
    rewrite splitOn_piece by (by rewrite hasByte_app, (Hs s eq_refl)).
    by rewrite Htail.
  - transitivity
      (splitOn ","
         (("type=" +:+ k)
          +:+ String "," ("target=" +:+ t
                          +:+ (if ro then ",readonly" else EmptyString)))).
    { reflexivity. }
    rewrite splitOn_piece by (by rewrite hasByte_app, Hk).
    by rewrite Htail.
Qed.

Lemma mountOfString_canonical (k : string) (src : option string) (t : string) (ro : bool) :
  hasByte "," k = false ->
  (forall s, src = Some s -> hasByte "," s = false) ->
  hasByte "," t = false ->
  mountOfString (canonicalMount k src t ro)
  = DockerMount.mk
      (if String.eqb k "volume" then "volume"
       else if String.eqb k "tmpfs" then "tmpfs" else "bind")
      (default EmptyString src) t ro.
Proof.
  intros Hk Hs Ht. unfold mountOfString. rewrite splitOn_canonical by done.
  destruct src as [s|], ro; vm_compute; reflexivity.
Qed.

Lemma mountOfString_structured (m : gmap string Any) (t : string) :
  getString m "target" = Some t ->
  hasByte "," (default "bind" (getString m "type")) = false ->
  hasByte "," (default EmptyString (getString m "source")) = false ->
  hasByte "," t = false ->
  mountOfString (buildMountStringFromMap m)
  = DockerMount.mk
      (let k := default "bind" (getString m "type") in
       if String.eqb k "volume" then "volume"
       else if String.eqb k "tmpfs" then "tmpfs" else "bind")
      (default EmptyString (getString m "source"))
      t
      (default false (getBool m "readonly")).
Proof.
  intros Htgt Hk Hs Ht.
  rewrite (buildMountStringFromMap_canonical m t Htgt).
  apply mountOfString_canonical; [done| |done].
  intros s Hsrc. by rewrite Hsrc in Hs.
Qed.

Lemma hostMounts_error (l : list string) (err : error) :
  fold_left addHostMount l (inr err) = inr err.
Proof. by induction l. Qed.

Lemma hostMounts_ok (l : list string) (acc : list DockerMount.t) :
  Forall (fun s => DockerMount.Target (mountOfString s) <> EmptyString) l ->
  fold_left addHostMount l (inl acc) = inl (acc ++ map mountOfString l).
Proof.
  intros H. revert acc. induction H as [|s l Hs _ IH]; intros acc.
  - by rewrite app_nil_r.
  - cbn [fold_left map addHostMount]. cbv zeta.
    destruct (String.eqb_spec (DockerMount.Target (mountOfString s)) EmptyString);
      [done|].
    by rewrite IH, <- app_assoc.
Qed.

(** X6.  [CreateContainer] refuses the plan at the first mount string that
    gives no target, and names that string. *)
Theorem engine_refuses_first_mount_without_target
    (c : DockerRunConfig.t) (before : list string) (mountStr : string)
    (after : list string) :
  DockerRunConfig.Mounts c = before ++ mountStr :: after ->
  Forall (fun s => DockerMount.Target (mountOfString s) <> EmptyString) before ->
  DockerMount.Target (mountOfString mountStr) = EmptyString ->
  hostConfigMounts c
  = inr ("mount target is empty for mount string: " +:+ mountStr).
Proof.
  intros HM Hb Hs. unfold hostConfigMounts. rewrite HM.
  rewrite fold_left_app, (hostMounts_ok before []) by done.
  cbn [fold_left addHostMount]. cbv zeta. rewrite Hs. cbn [String.eqb].
  by rewrite hostMounts_error.
Qed.

Lemma mountOfString_without_target (m : gmap string Any) :
  getString m "target" = None ->
  hasByte "," (default "bind" (getString m "type")) = false ->
  hasByte "," (default EmptyString (getString m "source")) = false ->
  DockerMount.Target (mountOfString (buildMountStringFromMap m)) = EmptyString.
Proof.
  intros Htgt Hk Hs. unfold buildMountStringFromMap. rewrite Htgt. cbv zeta.
  unfold mountOfString.
  set (k := match getString m "type" with Some t => t | None => "bind" end) in *.
  assert (Hk' : hasByte "," k = false) by (subst k; by destruct (getString m "type")).
  clearbody k. clear Hk.
  destruct (getString m "source") as [s|]; cbn [default id] in Hs.
  - destruct (getBool m "readonly") as [[]|].
    + transitivity
        (DockerMount.Target
           (dockerMountOf
              (fold_left mountPart
                 (splitOn ","
                    (("type=" +:+ k)
                     +:+ String "," (("source=" +:+ s) +:+ String "," "readonly")))
                 (∅, false)))); [by rewrite ?append_assoc|].
      rewrite !splitOn_piece by (by rewrite hasByte_app, ?Hk', ?Hs).
      vm_compute. reflexivity.
    + transitivity
        (DockerMount.Target
           (dockerMountOf
              (fold_left mountPart
                 (splitOn "," (("type=" +:+ k) +:+ String "," ("source=" +:+ s)))
                 (∅, false)))); [by rewrite ?append_assoc|].
      rewrite splitOn_piece by (by rewrite hasByte_app, ?Hk').
      rewrite splitOn_whole by (by rewrite hasByte_app, ?Hs).
      vm_compute. reflexivity.
    + transitivity
        (DockerMount.Target
           (dockerMountOf
              (fold_left mountPart
                 (splitOn "," (("type=" +:+ k) +:+ String "," ("source=" +:+ s)))
                 (∅, false)))); [by rewrite ?append_assoc|].
      rewrite splitOn_piece by (by rewrite hasByte_app, ?Hk').
      rewrite splitOn_whole by (by rewrite hasByte_app, ?Hs).
      vm_compute. reflexivity.
  - destruct (getBool m "readonly") as [[]|].
    + transitivity
        (DockerMount.Target
           (dockerMountOf
              (fold_left mountPart
                 (splitOn "," (("type=" +:+ k) +:+ String "," "readonly"))
                 (∅, false)))); [by rewrite ?append_assoc|].
      rewrite splitOn_piece by (by rewrite hasByte_app, ?Hk').
      vm_compute. reflexivity.
    + rewrite splitOn_whole by (by rewrite hasByte_app, ?Hk').
      vm_compute. reflexivity.
    + rewrite splitOn_whole by (by rewrite hasByte_app, ?Hk').
      vm_compute. reflexivity.
Qed.

(** X5.  The mount the engine is given for a structured mount is the mount
    that was declared: [CreateContainer] reads back the type, the source,
    the target and the read-only flag from the text
    [buildMountStringFromMap] writes, when none of the three texts holds a
    comma.  A type other than volume and tmpfs is read as bind.  A
    structured mount declared without a target gives the engine an empty
    target. *)
Theorem engine_reads_back_structured_mount (m : gmap string Any) :
  hasByte "," (default "bind" (getString m "type")) = false ->
  hasByte "," (default EmptyString (getString m "source")) = false ->
  match getString m "target" with
  | Some t =>
      hasByte "," t = false ->
      mountOfString (buildMountStringFromMap m)
      = DockerMount.mk
          (let k := default "bind" (getString m "type") in
           if String.eqb k "volume" then "volume"
           else if String.eqb k "tmpfs" then "tmpfs" else "bind")
          (default EmptyString (getString m "source"))
          t
          (default false (getBool m "readonly"))
  | None =>
      DockerMount.Target (mountOfString (buildMountStringFromMap m)) = EmptyString
  end.
Proof.
  intros Hk Hs. destruct (getString m "target") as [t|] eqn:Ht.
  - intros Hc. by apply mountOfString_structured.
  - by apply mountOfString_without_target.
Qed.

(** ** Lifecycle scripts *)

Lemma processCommand_lookup (name : string) (cmd : Any)
    (commands : gmap string LifecycleCommand.t) (k : string) :
  processCommand name cmd commands !! k
  = if decide (name = k)
    then match recorded cmd with Some c => Some c | None => commands !! k end
    else commands !! k.
Proof.
  unfold processCommand, recorded.
  destruct cmd; cbn [notNil]; try (by destruct (decide _)).
  all: destruct (ParseLifecycleCommand _) as [[c|]|]; try (by destruct (decide _)).
  all: destruct (decide (name = k)) as [->|Hne];
    [by rewrite lookup_insert_eq | by rewrite lookup_insert_ne].
Qed.

Lemma ProcessLifecycleCommands_lookup (dc : DevContainer.v) :
  exists commands,
    ProcessLifecycleCommands dc = inl commands
    /\ commands !! "initializeCommand" = recorded (InitializeCommand dc)
    /\ commands !! "onCreateCommand" = recorded (OnCreateCommand dc)
    /\ commands !! "updateContentCommand" = recorded (UpdateContentCommand dc)
    /\ commands !! "postCreateCommand" = recorded (PostCreateCommand dc)
    /\ commands !! "postStartCommand" = recorded (PostStartCommand dc)
    /\ commands !! "postAttachCommand" = recorded (PostAttachCommand dc).
Proof.
  eexists. split; [reflexivity|].
  repeat split; rewrite !processCommand_lookup; cbn [decide]; 
    repeat (destruct (decide _) as [?|?]; try discriminate; try congruence);
    rewrite ?lookup_empty; by destruct (recorded _).
Qed.

Lemma writeCommand_extends (commands : gmap string LifecycleCommand.t)
    (ending script name : string) :
  exists w, writeCommand commands ending script name = script +:+ w.
Proof.
  unfold writeCommand. destruct (commands !! name) as [cmd|].
  - destruct (negb _).
    + eexists. by rewrite append_assoc.
    + by eexists.
  - exists EmptyString. by rewrite append_empty_r.
Qed.

Lemma writeCommands_extend (commands : gmap string LifecycleCommand.t)
    (ending : string) (order : list string) (script : string) :
  exists w, fold_left (writeCommand commands ending) order script = script +:+ w.
Proof.
  revert script. induction order as [|name order IH]; intros script.
  - exists EmptyString. by rewrite append_empty_r.
  - cbn [fold_left].
    destruct (writeCommand_extends commands ending script name) as [w ->].
    destruct (IH (script +:+ w)) as [w' ->].
    eexists. by rewrite append_assoc.
Qed.

(** X7.  [GetLifecycleScript] fails for an unknown phase and for nothing
    else: whatever the lifecycle commands of the descriptor hold, the four
    phases create, start, attach and the empty phase give a script, and the
    script starts with the shell header. *)
Theorem GetLifecycleScript_fails_only_on_unknown_phase
    (dc : DevContainer.v) (phase : string) :
  if bool_decide (phase ∈ ["create"; "start"; "attach"; EmptyString])
  then exists script,
         GetLifecycleScript dc phase = inl script
         /\ HasPrefix script scriptHeader = true
  else GetLifecycleScript dc phase = inr ("unknown phase: " +:+ phase).
Proof.
  unfold GetLifecycleScript.
  destruct (ProcessLifecycleCommands_lookup dc) as (commands & -> & _).
  cbv zeta. fold scriptHeader.
  destruct (String.eqb_spec phase "create") as [->|H1].
  { rewrite bool_decide_eq_true_2 by set_solver.
    destruct (writeCommands_extend commands LF
                ["initializeCommand"; "onCreateCommand"; "updateContentCommand";
                 "postCreateCommand"] scriptHeader) as [w ->].
    eexists. split; [reflexivity|apply HasPrefix_app]. }
  destruct (String.eqb_spec phase "start") as [->|H2].
  { rewrite bool_decide_eq_true_2 by set_solver.
    destruct (writeCommand_extends commands LF scriptHeader "postStartCommand") as [w ->].
    eexists. split; [reflexivity|apply HasPrefix_app]. }
  destruct (String.eqb_spec phase "attach") as [->|H3].
  { rewrite bool_decide_eq_true_2 by set_solver.
    destruct (writeCommand_extends commands LF scriptHeader "postAttachCommand") as [w ->].
    eexists. split; [reflexivity|apply HasPrefix_app]. }
  destruct (String.eqb_spec phase EmptyString) as [->|H4].
  { rewrite bool_decide_eq_true_2 by set_solver.
    destruct (writeCommands_extend commands (LF +:+ LF)
                ["initializeCommand"; "onCreateCommand"; "updateContentCommand";
                 "postCreateCommand"; "postStartCommand"; "postAttachCommand"]
                scriptHeader) as [w ->].
    eexists. split; [reflexivity|apply HasPrefix_app]. }
  rewrite bool_decide_eq_false_2; [done|].
  rewrite !elem_of_cons, elem_of_nil. naive_solver.
Qed.

Lemma parseArgs_rejects (v : list Any) (args : list string) :
  Exists (fun item => forall s, item <> AStr s) v ->
  exists err, parseArgs args v = inr err.
Proof.
  intros H. revert args. induction H as [x v Hx|x v _ IH]; intros args.
  - destruct x; cbn [parseArgs]; try by eexists. by destruct (Hx s).
  - destruct x; cbn [parseArgs]; try by eexists. apply IH.
Qed.

Lemma malformed_rejected (cmd : Any) :
  malformed cmd -> exists err, ParseLifecycleCommand cmd = inr err.
Proof.
  destruct cmd as [| | | |v|]; cbn [malformed ParseLifecycleCommand]; try done;
    try by eexists.
  intros H. destruct (parseArgs_rejects v [] H) as [err ->]. by eexists.
Qed.

Lemma start_script (dc : DevContainer.v) :
  GetLifecycleScript dc "start"
  = inl (match recorded (PostStartCommand dc) with
         | Some cmd =>
             scriptHeader +:+ "# postStartCommand" +:+ LF
             +:+ scriptLine (ToShellCommand (Some cmd))
         | None => scriptHeader
         end).
Proof.
  unfold GetLifecycleScript.
  destruct (ProcessLifecycleCommands_lookup dc) as (commands & -> & _ & _ & _ & _ & HS & _).
  cbv zeta. fold scriptHeader. cbn [String.eqb Ascii.eqb Bool.eqb].
  unfold writeCommand. rewrite HS. destruct (recorded _) as [cmd|]; [|done].
  unfold scriptLine.
  destruct (String.eqb _ EmptyString); reflexivity.
Qed.

(** X8.  A lifecycle command that [ParseLifecycleCommand] rejects (a
    number, a boolean, an array with an element that is not a string) is
    left out of the script without an error. *)
Theorem malformed_command_is_left_out_silently
    (dc : DevContainer.v) (cmd : Any) :
  malformed cmd ->
  (exists err, ParseLifecycleCommand cmd = inr err)
  /\ GetLifecycleScript (set_PostStartCommand cmd dc) "start" = inl scriptHeader.
Proof.
  intros H. split; [by apply malformed_rejected|].
  rewrite start_script. unfold recorded.
  replace (PostStartCommand (set_PostStartCommand cmd dc)) with cmd by (by destruct dc).
  by destruct (malformed_rejected cmd H) as [err ->].
Qed.

Lemma parseArgs_strings (l args : list string) :
  parseArgs args (map AStr l) = inl (args ++ l).
Proof.
  revert args. induction l as [|s l IH]; intros args; cbn [map parseArgs].
  - by rewrite app_nil_r.
  - by rewrite IH, <- app_assoc.
Qed.

(** X9.  The start script by the form of the post-start command: a string
    is written as it is; an array of strings is written as its arguments
    joined by spaces, an argument with a space between double quotes; of an
    object only a comment is written, never its commands. *)
Theorem start_script_by_command_form (dc : DevContainer.v) :
  (forall s,
      GetLifecycleScript (set_PostStartCommand (AStr s) dc) "start"
      = inl (scriptHeader +:+ "# postStartCommand" +:+ LF +:+ scriptLine s))
  /\ (forall args,
        GetLifecycleScript (set_PostStartCommand (AArr (map AStr args)) dc) "start"
        = inl (scriptHeader +:+ "# postStartCommand" +:+ LF
               +:+ scriptLine (Join (map quoted args) " ")))
  /\ (forall m,
        GetLifecycleScript (set_PostStartCommand (AMap m) dc) "start"
        = inl (scriptHeader +:+ "# postStartCommand" +:+ LF
               +:+ "# Multiple commands:" +:+ LF)).
Proof.
  split; [|split].
  - intros s. rewrite start_script.
    replace (PostStartCommand (set_PostStartCommand (AStr s) dc)) with (AStr s)
      by (by destruct dc).
    reflexivity.
  - intros args. rewrite start_script.
    replace (PostStartCommand (set_PostStartCommand (AArr (map AStr args)) dc))
      with (AArr (map AStr args)) by (by destruct dc).
    unfold recorded. cbn [ParseLifecycleCommand]. rewrite parseArgs_strings.
    cbn [app]. do 4 f_equal. unfold ToShellCommand.
    cbn [LifecycleCommand.Type_ LifecycleCommand.Args String.eqb Ascii.eqb Bool.eqb].
    destruct args as [|a args]; [reflexivity|]. reflexivity.
  - intros m. rewrite start_script.
    replace (PostStartCommand (set_PostStartCommand (AMap m) dc)) with (AMap m)
      by (by destruct dc).
    reflexivity.
Qed.

Lemma writeCommand_section (commands : gmap string LifecycleCommand.t)
    (script name : string) (cmd : Any) :
  commands !! name = recorded cmd ->
  writeCommand commands LF script name = script +:+ scriptSection name cmd.
Proof.
  intros H. unfold writeCommand, scriptSection. rewrite H.
  destruct (recorded cmd) as [c|]; [|by rewrite append_empty_r].
  unfold scriptLine. destruct (String.eqb _ EmptyString); cbn [negb].
  - by rewrite append_empty_r.
  - by rewrite !append_assoc.
Qed.

Lemma create_script (dc : DevContainer.v) :
  GetLifecycleScript dc "create"
  = inl (scriptHeader
         +:+ scriptSection "initializeCommand" (InitializeCommand dc)
         +:+ scriptSection "onCreateCommand" (OnCreateCommand dc)
         +:+ scriptSection "updateContentCommand" (UpdateContentCommand dc)
         +:+ scriptSection "postCreateCommand" (PostCreateCommand dc)).
Proof.
  unfold GetLifecycleScript.
  destruct (ProcessLifecycleCommands_lookup dc)
    as (commands & -> & HI & HO & HU & HP & _ & _).
  cbv zeta. fold scriptHeader. cbn [String.eqb Ascii.eqb Bool.eqb fold_left].
  rewrite (writeCommand_section _ _ _ _ HI), (writeCommand_section _ _ _ _ HO),
    (writeCommand_section _ _ _ _ HU), (writeCommand_section _ _ _ _ HP).
  by rewrite !append_assoc.
Qed.

(** X10.  The create script holds the initialize, on-create,
    update-content and post-create commands in this order, and nothing of
    the post-start and post-attach commands. *)
Theorem create_script_order (dc : DevContainer.v) :
  (forall a b c d,
      GetLifecycleScript
        (set_InitializeCommand (AStr a)
           (set_OnCreateCommand (AStr b)
              (set_UpdateContentCommand (AStr c)
                 (set_PostCreateCommand (AStr d) dc)))) "create"
      = inl (scriptHeader
             +:+ ("# initializeCommand" +:+ LF +:+ scriptLine a)
             +:+ ("# onCreateCommand" +:+ LF +:+ scriptLine b)
             +:+ ("# updateContentCommand" +:+ LF +:+ scriptLine c)
             +:+ ("# postCreateCommand" +:+ LF +:+ scriptLine d)))
  /\ (forall start attach,
        GetLifecycleScript
          (set_PostStartCommand start (set_PostAttachCommand attach dc)) "create"
        = GetLifecycleScript dc "create").
Proof.
  split.
  - intros a b c d. rewrite create_script. by destruct dc.
  - intros start attach. rewrite !create_script. by destruct dc.
Qed.

(** ** More of the merge *)

Lemma map_fold_insert_over {V : Type} (m1 m2 : gmap string V) :
  map_fold (fun k v acc => <[k := v]> acc) m1 m2 = m2 ∪ m1.
Proof.
  induction m2 as [|k v m2 Hk Hfold IH] using map_first_key_ind.
  - by rewrite map_fold_empty, (left_id_L ∅ (∪)).
  - rewrite map_fold_insert_first_key by done.
    by rewrite IH, insert_union_l.
Qed.

Lemma lookup_over {V : Type} (o b : gmap string V) (k : string) :
  (o ∪ b) !! k = match o !! k with Some v => Some v | None => b !! k end.
Proof.
  destruct (o !! k) as [v|] eqn:E.
  - by apply lookup_union_Some_l.
  - by rewrite lookup_union_r.
Qed.

(** X11.  [mergeRemoteEnv] gives nil only for two nil maps.  Otherwise every
    key of the override has the override's value, a nil value included, and
    every other key has the value of the base. *)
Theorem mergeRemoteEnv_override_wins
    (base override : option (gmap string (option string))) :
  match mergeRemoteEnv base override with
  | None => base = None /\ override = None
  | Some result =>
      (is_Some base \/ is_Some override)
      /\ forall k,
           result !! k
           = match default ∅ override !! k with
             | Some v => Some v
             | None => default ∅ base !! k
             end
  end.
Proof.
  unfold mergeRemoteEnv.
  destruct base as [b|], override as [o|]; cbn [default]; try done.
  all: split; [naive_solver|]; intros k.
  all: rewrite ?map_fold_empty, ?map_fold_insert_over, ?map_fold_empty.
  all: rewrite ?(right_id_L ∅ (∪)), ?lookup_over, ?lookup_empty.
  all: by destruct (_ !! k).
Qed.

(** X12.  [mergeFeatures] of two feature sets: each of the three named
    features is the override's unless the override leaves it empty, and the
    additional properties are those of both, the override's value winning
    for a key both have. *)
Theorem mergeFeatures_override_wins (base override : DevContainerCommonFeatures.t) :
  exists result,
    mergeFeatures (Some base) (Some override) = Some result
    /\ DevContainerCommonFeatures.Fish result
       = (if String.eqb (DevContainerCommonFeatures.Fish override) EmptyString
          then DevContainerCommonFeatures.Fish base
          else DevContainerCommonFeatures.Fish override)
    /\ DevContainerCommonFeatures.Gradle result
       = (if String.eqb (DevContainerCommonFeatures.Gradle override) EmptyString
          then DevContainerCommonFeatures.Gradle base
          else DevContainerCommonFeatures.Gradle override)
    /\ DevContainerCommonFeatures.Maven result
       = (if String.eqb (DevContainerCommonFeatures.Maven override) EmptyString
          then DevContainerCommonFeatures.Maven base
          else DevContainerCommonFeatures.Maven override)
    /\ forall k,
         DevContainerCommonFeatures.AdditionalProperties result !! k
         = match DevContainerCommonFeatures.AdditionalProperties override !! k with
           | Some v => Some v
           | None => DevContainerCommonFeatures.AdditionalProperties base !! k
           end.
Proof.
  eexists. split; [reflexivity|].
  cbn [DevContainerCommonFeatures.Fish DevContainerCommonFeatures.Gradle
       DevContainerCommonFeatures.Maven DevContainerCommonFeatures.AdditionalProperties].
  repeat split; try by destruct (String.eqb _ EmptyString).
  intros k. by rewrite !map_fold_insert_over, (right_id_L ∅ (∪)), lookup_over.
Qed.

Ltac over_merge F :=
  repeat first
    [ rewrite (proj_when F) by done
    | rewrite (proj_mergeNonCompose F) by done ].

Section MergedCommands.

Variables base override : DevContainer.v.

Lemma merged_result :
  exists result, MergeDevContainers (Some base) (Some override) = Some result.
Proof. by eexists. Qed.

Lemma merged_Features result :
  MergeDevContainers (Some base) (Some override) = Some result ->
  Features result = mergeFeatures (Features base) (Features override).
Proof.
  intros H. apply Some_inj in H. subst result.
  over_merge (@Features (gmap string string) (option NonComposeBase.t)).
  unfold when at 1.
  match goal with |- Features (if ?c then _ else _) = _ => destruct c eqn:Ec end.
  - reflexivity.
  - over_merge (@Features (gmap string string) (option NonComposeBase.t)).
    apply orb_false_iff in Ec as [Eb Eo].
    apply bool_decide_eq_false_1 in Eb, Eo.
    destruct (Features base); [by destruct Eb|].
    destruct (Features override); [by destruct Eo|]. done.
Qed.

Ltac merged_command F :=
  let H := fresh in
  intros H; apply Some_inj in H; subst;
  over_merge F; unfold when at 1;
  match goal with |- F (if ?c then _ else _) = _ => destruct c end;
  [reflexivity | over_merge F; reflexivity].

Lemma merged_InitializeCommand result :
  MergeDevContainers (Some base) (Some override) = Some result ->
  InitializeCommand result
  = if notNil (InitializeCommand override)
    then InitializeCommand override else InitializeCommand base.
Proof. merged_command (@InitializeCommand (gmap string string) (option NonComposeBase.t)). Qed.

Lemma merged_OnCreateCommand result :
  MergeDevContainers (Some base) (Some override) = Some result ->
  OnCreateCommand result
  = if notNil (OnCreateCommand override)
    then OnCreateCommand override else OnCreateCommand base.
Proof. merged_command (@OnCreateCommand (gmap string string) (option NonComposeBase.t)). Qed.

Lemma merged_UpdateContentCommand result :
  MergeDevContainers (Some base) (Some override) = Some result ->
  UpdateContentCommand result
  = if notNil (UpdateContentCommand override)
    then UpdateContentCommand override else UpdateContentCommand base.
Proof.
  merged_command (@UpdateContentCommand (gmap string string) (option NonComposeBase.t)).
Qed.

Lemma merged_PostCreateCommand result :
  MergeDevContainers (Some base) (Some override) = Some result ->
  PostCreateCommand result
  = if notNil (PostCreateCommand override)
    then PostCreateCommand override else PostCreateCommand base.
Proof. merged_command (@PostCreateCommand (gmap string string) (option NonComposeBase.t)). Qed.

Lemma merged_PostStartCommand result :
  MergeDevContainers (Some base) (Some override) = Some result ->
  PostStartCommand result
  = if notNil (PostStartCommand override)
    then PostStartCommand override else PostStartCommand base.
Proof. merged_command (@PostStartCommand (gmap string string) (option NonComposeBase.t)). Qed.

Lemma merged_PostAttachCommand result :
  MergeDevContainers (Some base) (Some override) = Some result ->
  PostAttachCommand result
  = if notNil (PostAttachCommand override)
    then PostAttachCommand override else PostAttachCommand base.
Proof. merged_command (@PostAttachCommand (gmap string string) (option NonComposeBase.t)). Qed.

End MergedCommands.

(** X13.  In a merge each of the six lifecycle commands is the override's
    when the override has one and the base's otherwise, and the features
    are those [mergeFeatures] gives. *)
Theorem merge_takes_override_commands (base override : DevContainer.v) :
  exists result,
    MergeDevContainers (Some base) (Some override) = Some result
    /\ InitializeCommand result
       = (if notNil (InitializeCommand override)
          then InitializeCommand override else InitializeCommand base)
    /\ OnCreateCommand result
       = (if notNil (OnCreateCommand override)
          then OnCreateCommand override else OnCreateCommand base)
    /\ UpdateContentCommand result
       = (if notNil (UpdateContentCommand override)
          then UpdateContentCommand override else UpdateContentCommand base)
    /\ PostCreateCommand result
       = (if notNil (PostCreateCommand override)
          then PostCreateCommand override else PostCreateCommand base)
    /\ PostStartCommand result
       = (if notNil (PostStartCommand override)
          then PostStartCommand override else PostStartCommand base)
    /\ PostAttachCommand result
       = (if notNil (PostAttachCommand override)
          then PostAttachCommand override else PostAttachCommand base)
    /\ Features result = mergeFeatures (Features base) (Features override).
Proof.
  destruct (merged_result base override) as [result H]. exists result.
  split; [done|].
  split; [by apply merged_InitializeCommand|].
  split; [by apply merged_OnCreateCommand|].
  split; [by apply merged_UpdateContentCommand|].
  split; [by apply merged_PostCreateCommand|].
  split; [by apply merged_PostStartCommand|].
  split; [by apply merged_PostAttachCommand|].
  by apply merged_Features.
Qed.

(** X14.  In a merge the container environment has the entries of both
    descriptors, and for a key both define, the value of the override. *)
Theorem merge_environment_per_key (base override : DevContainer.v) :
  exists result,
    MergeDevContainers (Some base) (Some override) = Some result
    /\ ContainerEnv result = ContainerEnv override ∪ ContainerEnv base
    /\ forall k,
         ContainerEnv result !! k
         = match ContainerEnv override !! k with
           | Some v => Some v
           | None => ContainerEnv base !! k
           end.
Proof.
  destruct (merged_result base override) as [result H]. exists result.
  split; [done|].
  pose proof (Merge_ContainerEnv base override) as HE. rewrite H in HE.
  apply Some_inj in HE.
  assert (ContainerEnv result = ContainerEnv override ∪ ContainerEnv base) as ->.
  { rewrite HE. destruct (0 <? size (ContainerEnv override))%nat eqn:Es.
    - apply map_fold_insert_over.
    - apply Nat.ltb_ge in Es. assert (size (ContainerEnv override) = 0%nat) as E0 by lia.
      apply map_size_empty_iff in E0. by rewrite E0, (left_id_L ∅ (∪)). }
  split; [done|]. intros k. apply lookup_over.
Qed.

Lemma when_same {A : Type} (c : A -> bool) (f : A -> A) (x : A) :
  f x = x -> when c f x = x.
Proof. intros H. unfold when. by destruct (c x). Qed.

Lemma mergeFeatures_self (f : option DevContainerCommonFeatures.t) :
  mergeFeatures f f = f.
Proof.
  destruct f as [[fish gradle maven props]|]; [|done].
  unfold mergeFeatures.
  cbn [DevContainerCommonFeatures.Fish DevContainerCommonFeatures.Gradle
       DevContainerCommonFeatures.Maven DevContainerCommonFeatures.AdditionalProperties].
  rewrite !map_fold_insert_over, (right_id_L ∅ (∪)), (idemp_L (∪)).
  by destruct (negb (fish =? "")), (negb (gradle =? "")), (negb (maven =? "")).
Qed.

Lemma mergeNonComposeBase_self (n : NonComposeBase.t) : mergeNonComposeBase n n = n.
Proof.
  destruct n as [args wf wm ap]. unfold mergeNonComposeBase, when.
  cbn [NonComposeBase.WorkspaceFolder NonComposeBase.WorkspaceMount
       NonComposeBase.AppPort NonComposeBase.RunArgs].
  destruct (bool_decide (is_Some wf)), (bool_decide (is_Some wm)), (notNil ap);
    reflexivity.
Qed.

(** X15.  Merging with nothing, with an empty override or with the
    descriptor itself changes nothing. *)
Theorem merge_neutral_cases (d : DevContainer.v) :
  MergeDevContainers None (Some d) = Some d
  /\ MergeDevContainers (Some d) None = Some d
  /\ MergeDevContainers (Some d) (Some DevContainer.zero) = Some d
  /\ MergeDevContainers (Some d) (Some d) = Some d.
Proof.
  split; [done|]. split; [done|]. split.
  - unfold MergeDevContainers. cbv zeta. f_equal.
    destruct d. unfold when, mergeNonCompose.
    cbn [DevContainer.zero Image ImageContainer Name ContainerEnv ForwardPorts
         CapAdd SecurityOpt Features Mounts NonComposeBase InitializeCommand
         OnCreateCommand UpdateContentCommand PostCreateCommand PostStartCommand
         PostAttachCommand String.eqb negb notNil length Nat.ltb Nat.leb].
    rewrite map_size_empty. cbn [Nat.ltb Nat.leb].
    rewrite (bool_decide_eq_false_2 (is_Some None)) by (by intros [? ?]).
    rewrite orb_false_r.
    destruct Features0 as [f|]; [|done].
    rewrite bool_decide_eq_true_2 by (by eexists). reflexivity.
  - unfold MergeDevContainers. cbv zeta. f_equal.
    repeat (rewrite (when_same _ _ d); [|by destruct d]).
    rewrite (when_same _ _ d).
    2:{ destruct d. cbn [ContainerEnv set_ContainerEnv].
        by rewrite map_fold_insert_over, (idemp_L (∪)). }
    repeat (rewrite (when_same _ _ d); [|by destruct d]).
    rewrite (when_same _ _ d).
    2:{ rewrite mergeFeatures_self. by destruct d. }
    repeat (rewrite (when_same _ _ d); [|by destruct d]).
    assert (mergeNonCompose d d = d) as ->.
    { unfold mergeNonCompose. destruct (NonComposeBase d) as [n|] eqn:En; [|done].
      rewrite mergeNonComposeBase_self.
      destruct d; cbn in En; by rewrite En. }
    by repeat (rewrite (when_same _ _ d); [|by destruct d]).
Qed.

(** ** What the merge leaves alone, and what it writes *)

Lemma mergeEnv_envs (override : Store.obj) σ (result : Store.obj) σ1 result1
    (oenv : gmap string string) :
  Store.envAt σ (ContainerEnv override) = Some oenv ->
  Store.mergeEnv override (σ, result) = Some (σ1, result1) ->
  Store.nonCompose σ1 = Store.nonCompose σ
  /\ Store.envAt σ1 (ContainerEnv override) = Some oenv
  /\ forall l renv,
       ContainerEnv result = Some l -> Store.envs σ !! l = Some renv ->
       Store.envs σ1 !! l
       = Some (if (0 <? size oenv)%nat then oenv ∪ renv else renv).
Proof.
  intros Ho. unfold Store.mergeEnv. rewrite Ho. cbn [mbind option_bind].
  destruct (0 <? size oenv)%nat eqn:Es.
  2:{ intros [= <- <-]. by repeat split. }
  assert (exists oe, ContainerEnv override = Some oe /\ Store.envs σ !! oe = Some oenv)
    as (oe & Hoe & Hoenv).
  { destruct (ContainerEnv override) as [oe|]; [by exists oe|].
    cbn in Ho. injection Ho as <-. by rewrite map_size_empty in Es. }
  destruct (ContainerEnv result) as [l|] eqn:El.
  - rewrite El. cbn [mbind option_bind].
    destruct (Store.envs σ !! l) as [renv|] eqn:Er; cbn [mbind option_bind]; [|done].
    intros [= <- <-]. split; [done|]. split.
    + rewrite Hoe. cbn [Store.envAt Store.envs Store.set_envs].
      destruct (decide (l = oe)) as [->|Hne].
      * rewrite lookup_insert_eq. rewrite Hoenv in Er. injection Er as <-.
        by rewrite map_fold_insert_over, (idemp_L (∪)).
      * by rewrite lookup_insert_ne.
    + intros l' renv' [= <-] Hr'. rewrite Er in Hr'. injection Hr' as <-.
      cbn [Store.envs Store.set_envs].
      by rewrite lookup_insert_eq, map_fold_insert_over.
  - cbn [ContainerEnv set_ContainerEnv mbind option_bind Store.envs Store.set_envs].
    rewrite lookup_insert_eq. cbn [mbind option_bind].
    intros [= <- <-]. split; [done|]. split; [|done].
    rewrite Hoe. cbn [Store.envAt Store.envs Store.set_envs].
    assert (fresh (dom (Store.envs σ)) <> oe) as Hne.
    { intros E. apply (is_fresh (dom (Store.envs σ))). rewrite E.
      apply elem_of_dom. by eexists. }
    by rewrite !lookup_insert_ne.
Qed.

Lemma mergeNonCompose_nonCompose (override : Store.obj) σ (result : Store.obj)
    σ2 result2 (on : option NonComposeBase.t) :
  Store.nonComposeAt σ (NonComposeBase override) = Some on ->
  Store.mergeNonCompose override (σ, result) = Some (σ2, result2) ->
  Store.envs σ2 = Store.envs σ
  /\ Store.nonComposeAt σ2 (NonComposeBase override) = Some on.
Proof.
  intros Ho. unfold Store.mergeNonCompose.
  destruct (NonComposeBase override) as [ol|]; [|by intros [= <- <-]].
  cbn [Store.nonComposeAt] in Ho.
  destruct (Store.nonCompose σ !! ol) as [onv|] eqn:Eo; [|done].
  injection Ho as <-.
  destruct (NonComposeBase result) as [rl|].
  2:{ intros [= <- <-]. split; [done|]. cbn. by rewrite Eo. }
  cbn [mbind option_bind].
  destruct (Store.nonCompose σ !! rl) as [rn|] eqn:Er; cbn [mbind option_bind]; [|done].
  intros [= <- <-]. split; [done|].
  cbn [Store.nonComposeAt Store.nonCompose Store.set_nonCompose].
  destruct (decide (rl = ol)) as [->|Hne].
  - rewrite lookup_insert_eq. rewrite Eo in Er. injection Er as <-.
    by rewrite mergeNonComposeBase_self.
  - by rewrite lookup_insert_ne, Eo.
Qed.

Lemma Store_merge_steps σ (bl ol : Store.loc) σ' (r : option Store.loc)
    (bd od : Store.obj) (oenv : gmap string string) (on : option NonComposeBase.t) :
  Store.descriptors σ !! bl = Some bd ->
  Store.descriptors σ !! ol = Some od ->
  Store.envAt σ (ContainerEnv od) = Some oenv ->
  Store.nonComposeAt σ (NonComposeBase od) = Some on ->
  Store.MergeDevContainers σ (Some bl) (Some ol) = Some (σ', r) ->
  Store.descriptors σ' !! bl = Some bd
  /\ Store.descriptors σ' !! ol = Some od
  /\ Store.envAt σ' (ContainerEnv od) = Some oenv
  /\ Store.nonComposeAt σ' (NonComposeBase od) = Some on
  /\ forall e benv,
       ContainerEnv bd = Some e -> Store.envs σ !! e = Some benv ->
       Store.envs σ' !! e
       = Some (if (0 <? size oenv)%nat then oenv ∪ benv else benv).
Proof.
  intros Hbd Hod Hoe Hon HM.
  destruct (Store_merge_allocates _ _ _ _ _ HM) as (rl & -> & Hfresh & Hdesc).
  assert (bl <> rl) as Hb by (intros ->; by rewrite Hfresh in Hbd).
  assert (ol <> rl) as Ho by (intros ->; by rewrite Hfresh in Hod).
  rewrite !Hdesc by done. split; [done|]. split; [done|].
  revert HM. unfold Store.MergeDevContainers.
  rewrite Hbd, Hod. cbn [mbind option_bind]. cbv zeta.
  match goal with
  | |- context [Store.mergeEnv od (σ, ?x)] => set (r0 := x)
  end.
  assert (H0e : ContainerEnv r0 = ContainerEnv bd).
  { subst r0. by rewrite !(proj_when ContainerEnv) by done. }
  destruct (Store.mergeEnv od (σ, r0)) as [[σ1 r1]|] eqn:E1;
    cbn [mbind option_bind]; [|done].
  destruct (mergeEnv_envs od σ r0 σ1 r1 oenv Hoe E1) as (Hnc1 & Hoe1 & Hbase).
  destruct (Store.mergeNonCompose od _) as [[σ2 r2]|] eqn:E2;
    cbn [mbind option_bind]; [|done].
  assert (Hon1 : Store.nonComposeAt σ1 (NonComposeBase od) = Some on)
    by (by rewrite (nonComposeAt_ext σ)).
  destruct (mergeNonCompose_nonCompose od σ1 _ σ2 r2 on Hon1 E2) as (Hev2 & Hon2).
  intros [= <- _].
  split; [by rewrite (envAt_ext σ2), (envAt_ext σ1)|].
  split; [by rewrite (nonComposeAt_ext σ2)|].
  intros e benv He Hbenv.
  cbn [Store.envs Store.set_descriptors]. rewrite Hev2.
  apply Hbase; [by rewrite H0e|done].
Qed.

(** X16.  [MergeDevContainers] leaves the override as it was: the
    descriptor, the environment map and the [NonComposeBase] the override
    pointer denotes read the same after the call as before, even where
    they are shared with the base. *)
Theorem merge_leaves_override_as_it_was
    σ (bl ol : Store.loc) σ' (r : option Store.loc) (override : DevContainer.v) :
  Store.read σ ol = Some override ->
  Store.MergeDevContainers σ (Some bl) (Some ol) = Some (σ', r) ->
  Store.read σ' ol = Some override.
Proof.
  intros Hread HM.
  destruct (read_inv _ _ _ Hread) as (od & Hod & Hoe & Hon & Hox).
  assert (exists bd, Store.descriptors σ !! bl = Some bd) as [bd Hbd].
  { revert HM. unfold Store.MergeDevContainers.
    destruct (Store.descriptors σ !! bl); [by eexists|done]. }
  destruct (Store_merge_steps _ _ _ _ _ _ _ _ _ Hbd Hod Hoe Hon HM)
    as (_ & Hod' & Hoe' & Hon' & _).
  unfold Store.read. rewrite Hod'. cbn [mbind option_bind].
  rewrite Hoe', Hon'. cbn [mbind option_bind].
  f_equal. by apply rebuild.
Qed.

(** X17.  When the base has an environment map of its own and the override
    defines at least one variable, [MergeDevContainers] writes every entry
    of the override into the map of the base. *)
Theorem merge_writes_override_environment_into_base
    σ (bl ol : Store.loc) σ' (r : option Store.loc)
    (bd : Store.obj) (e : Store.loc) (benv : gmap string string)
    (override : DevContainer.v) :
  Store.descriptors σ !! bl = Some bd ->
  ContainerEnv bd = Some e ->
  Store.envs σ !! e = Some benv ->
  Store.read σ ol = Some override ->
  ContainerEnv override <> ∅ ->
  Store.MergeDevContainers σ (Some bl) (Some ol) = Some (σ', r) ->
  Store.envs σ' !! e = Some (ContainerEnv override ∪ benv).
Proof.
  intros Hbd He Hbenv Hread Hne HM.
  destruct (read_inv _ _ _ Hread) as (od & Hod & Hoe & Hon & Hox).
  destruct (Store_merge_steps _ _ _ _ _ _ _ _ _ Hbd Hod Hoe Hon HM)
    as (_ & _ & _ & _ & Hw).
  rewrite (Hw e benv He Hbenv).
  destruct (0 <? size (ContainerEnv override))%nat eqn:Es; [done|].
  apply Nat.ltb_ge in Es.
  assert (size (ContainerEnv override) = 0%nat) as E0 by lia.
  by apply map_size_empty_iff in E0.
Qed.

(** ** References to the host environment *)

Lemma span_stop (p : ascii -> bool) (a : string) (c : ascii) (b : string) :
  allBytes p a = true -> p c = false ->
  span p (a +:+ String c b) = (a, String c b).
Proof.
  intros Ha Hc. induction a as [|x a IH].
  - change (EmptyString +:+ String c b) with (String c b). cbn [span]. by rewrite Hc.
  - cbn [allBytes] in Ha. apply andb_true_iff in Ha as [Hx Ha].
    change (String x a +:+ String c b) with (String x (a +:+ String c b)).
    cbn [span]. by rewrite Hx, (IH Ha).
Qed.

Lemma length_app (a b : string) :
  String.length (a +:+ b) = (String.length a + String.length b)%nat.
Proof.
  induction a as [|x a IH]; [done|].
  change (String x a +:+ b) with (String x (a +:+ b)). cbn [String.length]. by rewrite IH.
Qed.

Lemma substring_prefix (a b : string) :
  String.substring 0 (String.length a) (a +:+ b) = a.
Proof.
  induction a as [|x a IH].
  - by destruct b.
  - change (String x a +:+ b) with (String x (a +:+ b)).
    cbn [String.length String.substring]. by rewrite IH.
Qed.

Lemma resolve_from_skip (LookupEnv : string -> option string) (a b : string) :
  resolve_from LookupEnv (String.length a) (a +:+ b) = resolve_from LookupEnv 0 b.
Proof.
  induction a as [|x a IH]; [done|].
  change (String x a +:+ b) with (String x (a +:+ b)). exact IH.
Qed.

Lemma matchLocalEnv_reference (name : string) (def : option string) (rest : string) :
  name <> EmptyString ->
  allBytes nameByte name = true ->
  (forall d, def = Some d -> allBytes defaultByte d = true) ->
  matchLocalEnv (reference name def +:+ rest)
  = Some (name, default EmptyString def, String.length (reference name def)).
Proof.
  intros Hne Hname Hdef. unfold matchLocalEnv, reference.
  destruct def as [d|].
  - assert (("${localEnv:" +:+ name +:+ (":" +:+ d) +:+ "}") +:+ rest
            = "${localEnv:" +:+ (name +:+ String ":" (d +:+ String "}" rest))) as ->.
    { by rewrite !append_assoc. }
    rewrite (HasPrefix_app "${localEnv:").
    change (drop_bytes 11 ("${localEnv:" +:+ ?x)) with x.
    rewrite span_stop by done.
    destruct (String.eqb_spec name EmptyString) as [|_]; [done|].
    rewrite span_stop by (done || by apply Hdef). cbn [default].
    do 2 f_equal.
    change ("${localEnv:" +:+ name +:+ (":" +:+ d) +:+ "}")
      with ("${localEnv:" +:+ (name +:+ String ":" (d +:+ "}"))).
    rewrite (length_app "${localEnv:"), (length_app name).
    cbn [String.length]. rewrite (length_app d). cbn [String.length]. lia.
  - assert (("${localEnv:" +:+ name +:+ EmptyString +:+ "}") +:+ rest
            = "${localEnv:" +:+ (name +:+ String "}" rest)) as ->.
    { by rewrite !append_assoc. }
    rewrite (HasPrefix_app "${localEnv:").
    change (drop_bytes 11 ("${localEnv:" +:+ ?x)) with x.
    rewrite span_stop by done.
    destruct (String.eqb_spec name EmptyString) as [|_]; [done|].
    cbn [default]. do 2 f_equal.
    change ("${localEnv:" +:+ name +:+ EmptyString +:+ "}")
      with ("${localEnv:" +:+ (name +:+ "}")).
    rewrite (length_app "${localEnv:"), (length_app name).
    cbn [String.length]. lia.
Qed.

Lemma resolve_reference (LookupEnv : string -> option string)
    (name : string) (def : option string) (rest : string) :
  name <> EmptyString ->
  allBytes nameByte name = true ->
  (forall d, def = Some d -> allBytes defaultByte d = true) ->
  resolveLocalEnvVars LookupEnv (reference name def +:+ rest)
  = ((resolveMatch LookupEnv (reference name def) name (default EmptyString def)).1
     +:+ (resolveLocalEnvVars LookupEnv rest).1,
     (resolveMatch LookupEnv (reference name def) name (default EmptyString def)).2
     ++ (resolveLocalEnvVars LookupEnv rest).2).
Proof.
  intros Hne Hname Hdef. unfold resolveLocalEnvVars.
  assert (exists tail, reference name def = String "$" tail) as [tail Ht].
  { unfold reference. by eexists. }
  pose proof (matchLocalEnv_reference name def rest Hne Hname Hdef) as HM.
  pose proof (substring_prefix (reference name def) rest) as HS.
  pose proof (resolve_from_skip LookupEnv tail rest) as HK.
  rewrite Ht in HM, HS |- *.
  change (String "$" tail +:+ rest) with (String "$" (tail +:+ rest)) in *.
  cbn [resolve_from]. rewrite HM. rewrite HS.
  cbn [String.length Nat.sub]. rewrite Nat.sub_0_r, HK.
  destruct (resolveMatch _ _ _ _) as [repl miss].
  by destruct (resolve_from LookupEnv 0 rest) as [out missing].
Qed.

(** X19.  A reference to a host variable, with or without a default, at the
    start of a text: it is replaced by the value of the variable when that
    is set and not empty, otherwise by the default when there is one that
    is not empty, and otherwise it stays as it is and the name is reported
    missing; the rest of the text is resolved after it. *)
Theorem resolveLocalEnvVars_at_a_reference
    (LookupEnv : string -> option string)
    (name : string) (def : option string) (rest : string) :
  name <> EmptyString ->
  allBytes nameByte name = true ->
  (forall d, def = Some d -> allBytes defaultByte d = true) ->
  let value := default EmptyString (LookupEnv name) in
  let fallback := default EmptyString def in
  let resolved := resolveLocalEnvVars LookupEnv rest in
  resolveLocalEnvVars LookupEnv (reference name def +:+ rest)
  = if negb (String.eqb value EmptyString) then (value +:+ resolved.1, resolved.2)
    else if negb (String.eqb fallback EmptyString)
    then (fallback +:+ resolved.1, resolved.2)
    else (reference name def +:+ resolved.1, name :: resolved.2).
Proof.
  intros Hne Hname Hdef. cbv zeta. rewrite resolve_reference by done.
  unfold resolveMatch.
  destruct (LookupEnv name) as [val|]; cbn [default id].
  - destruct (negb (val =? "")); [done|].
    by destruct (negb (String.eqb _ EmptyString)).
  - cbn [String.eqb negb]. by destruct (negb (String.eqb _ EmptyString)).
Qed.

(** ** Expansion of the workspace variables *)

(** X20.  A text without a dollar sign is left as it is by the expansion
    of the workspace variables and by the resolution of host references,
    which reports nothing missing. *)
Theorem text_without_dollar_is_left_alone
    (LookupEnv : string -> option string)
    (rangeMap : gmap string string -> list (string * string))
    (vars : gmap string string) (s : string) :
  hasByte "$" s = false ->
  expandVariableString LookupEnv rangeMap s vars = s
  /\ resolveLocalEnvVars LookupEnv s = (s, []).
Proof.
  intros H. split.
  - by apply expandVariableString_no_dollar.
  - by apply resolve_from_no_dollar.
Qed.

Lemma standard_variables_listed (filepath_Base : string -> string) (ws : string)
    (l : list (string * string)) :
  l ≡ₚ [("localWorkspaceFolder", ws);
        ("localWorkspaceFolderBasename", filepath_Base ws);
        ("containerWorkspaceFolder", "/workspaces/" +:+ filepath_Base ws);
        ("containerWorkspaceFolderBasename", filepath_Base ws)] ->
  l ≡ₚ map_to_list (GetStandardVariables filepath_Base ws).
Proof.
  intros ->. unfold GetStandardVariables. cbv zeta.
  rewrite !map_to_list_insert, map_to_list_empty; [done|..].
  all: by rewrite ?lookup_insert_ne by done.
Qed.

(** X21.  The unbraced form of a variable is replaced in the order in
    which the variables are visited, and one standard variable is named by
    a prefix of another: the text $localWorkspaceFolderBasename becomes the
    base name when that variable is visited first, and the workspace folder
    followed by the word Basename when localWorkspaceFolder is.  Both
    orders are orders of the entries of the map of standard variables. *)
Theorem unbraced_variable_depends_on_range_order
    (LookupEnv : string -> option string)
    (filepath_Base : string -> string) (ws : string) :
  hasByte "$" ws = false ->
  hasByte "$" (filepath_Base ws) = false ->
  let vars := GetStandardVariables filepath_Base ws in
  let basename := filepath_Base ws in
  let longFirst :=
    [("localWorkspaceFolderBasename", basename);
     ("localWorkspaceFolder", ws);
     ("containerWorkspaceFolder", "/workspaces/" +:+ basename);
     ("containerWorkspaceFolderBasename", basename)] in
  let shortFirst :=
    [("localWorkspaceFolder", ws);
     ("localWorkspaceFolderBasename", basename);
     ("containerWorkspaceFolder", "/workspaces/" +:+ basename);
     ("containerWorkspaceFolderBasename", basename)] in
  longFirst ≡ₚ map_to_list vars
  /\ shortFirst ≡ₚ map_to_list vars
  /\ (forall rangeMap,
        rangeMap vars = longFirst ->
        expandVariableString LookupEnv rangeMap "$localWorkspaceFolderBasename" vars
        = basename)
  /\ (forall rangeMap,
        rangeMap vars = shortFirst ->
        expandVariableString LookupEnv rangeMap "$localWorkspaceFolderBasename" vars
        = ws +:+ "Basename").
Proof.
  intros Hws Hbase. cbv zeta.
  split; [apply standard_variables_listed; apply perm_swap|].
  split; [by apply standard_variables_listed|].
  split.
  - intros rangeMap Hr. unfold expandVariableString. rewrite Hr.
    cbn [fold_left].
    change (ReplaceAll
              (ReplaceAll "$localWorkspaceFolderBasename"
                 ("${" +:+ "localWorkspaceFolderBasename" +:+ "}") (filepath_Base ws))
              ("$" +:+ "localWorkspaceFolderBasename") (filepath_Base ws))
      with (filepath_Base ws +:+ EmptyString).
    rewrite append_empty_r.
    apply (expandVariableString_no_dollar LookupEnv
             (fun _ => [("localWorkspaceFolder", ws);
                        ("containerWorkspaceFolder", "/workspaces/" +:+ filepath_Base ws);
                        ("containerWorkspaceFolderBasename", filepath_Base ws)])
             (GetStandardVariables filepath_Base ws)).
    done.
  - intros rangeMap Hr. unfold expandVariableString. rewrite Hr.
    cbn [fold_left].
    change (ReplaceAll
              (ReplaceAll "$localWorkspaceFolderBasename"
                 ("${" +:+ "localWorkspaceFolder" +:+ "}") ws)
              ("$" +:+ "localWorkspaceFolder") ws)
      with (ws +:+ "Basename").
    apply (expandVariableString_no_dollar LookupEnv
             (fun _ => [("localWorkspaceFolderBasename", filepath_Base ws);
                        ("containerWorkspaceFolder", "/workspaces/" +:+ filepath_Base ws);
                        ("containerWorkspaceFolderBasename", filepath_Base ws)])
             (GetStandardVariables filepath_Base ws)).
    by rewrite hasByte_app, Hws.
Qed.

(** ** The rest of the plan *)

Section PlanFacts.

Variable LookupEnv : string -> option string.
Variable rangeMap : gmap string string -> list (string * string).
Variable filepath_Base : string -> string.
Variable filepath_Abs : string -> string.

#[local] Abbreviation Build' :=
  (BuildDockerRunCommand LookupEnv rangeMap filepath_Base filepath_Abs).
#[local] Abbreviation Expanded' dc ws :=
  (ExpandVariables LookupEnv rangeMap (GetStandardVariables filepath_Base ws) dc).
#[local] Abbreviation expand ws :=
  (expandString LookupEnv rangeMap (GetStandardVariables filepath_Base ws)).

Lemma ExpandVariables_WorkspaceMount (vars : gmap string string) (dc : DevContainer.v) :
  WorkspaceMount (ExpandVariables LookupEnv rangeMap vars dc)
  = if negb (String.eqb (WorkspaceMount dc) EmptyString)
    then expandString LookupEnv rangeMap vars (WorkspaceMount dc)
    else WorkspaceMount dc.
Proof.
  unfold ExpandVariables. cbv zeta.
  unfold when at 1.
  rewrite !(proj_when WorkspaceMount) by done.
  cbn [WorkspaceMount set_ContainerEnv set_WorkspaceMount].
  rewrite (proj_expandNonComposeBase _ _ _ WorkspaceMount) by done.
  cbn [WorkspaceMount set_Mounts].
  rewrite ?(proj_when WorkspaceMount) by done.
  destruct (negb (String.eqb (WorkspaceMount dc) EmptyString)); [done|].
  rewrite !(proj_when WorkspaceMount) by done.
  cbn [WorkspaceMount set_ContainerEnv].
  rewrite (proj_expandNonComposeBase _ _ _ WorkspaceMount) by done.
  cbn [WorkspaceMount set_Mounts].
  rewrite ?(proj_when WorkspaceMount) by done. reflexivity.
Qed.

Lemma ExpandVariables_NonComposeBase_value (vars : gmap string string)
    (dc : DevContainer.v) :
  NonComposeBase (ExpandVariables LookupEnv rangeMap vars dc)
  = NonComposeBase (expandNonComposeBase LookupEnv rangeMap vars dc).
Proof.
  unfold ExpandVariables. cbv zeta.
  rewrite !(proj_when NonComposeBase) by done.
  cbn [NonComposeBase set_ContainerEnv].
  unfold expandNonComposeBase.
  cbn [NonComposeBase set_Mounts].
  rewrite ?(proj_when NonComposeBase) by done.
  destruct (NonComposeBase dc) as [n|] eqn:E.
  - reflexivity.
  - cbn [NonComposeBase set_Mounts].
    by rewrite ?(proj_when NonComposeBase) by done.
Qed.


Lemma ExpandVariables_NonComposeBase_mount (vars : gmap string string)
    (dc : DevContainer.v) :
  NonComposeBase (ExpandVariables LookupEnv rangeMap vars dc)
    ≫= NonComposeBase.WorkspaceMount
  = expandString LookupEnv rangeMap vars
      <$> (NonComposeBase dc ≫= NonComposeBase.WorkspaceMount).
Proof.
  rewrite ExpandVariables_NonComposeBase_value. unfold expandNonComposeBase.
  destruct (NonComposeBase dc) as [[args wf wm ap]|] eqn:E; [|by rewrite E].
  cbn [NonComposeBase set_NonComposeBase mbind option_bind
       NonComposeBase.WorkspaceMount NonComposeBase.WorkspaceFolder].
  by destruct wm, wf.
Qed.

Lemma Build_rest dc ws cfg :
  Build' dc ws = inl cfg ->
  DockerRunConfig.WorkspaceMount cfg
  = match NonComposeBase (Expanded' dc ws) ≫= NonComposeBase.WorkspaceMount with
    | Some w => w
    | None =>
        if negb (String.eqb (WorkspaceMount (Expanded' dc ws)) EmptyString)
        then WorkspaceMount (Expanded' dc ws)
        else "type=bind,source=" +:+ filepath_Abs ws +:+ ",target="
             +:+ DockerRunConfig.WorkspaceFolder cfg
    end
  /\ DockerRunConfig.CapAdd cfg = CapAdd dc
  /\ DockerRunConfig.Capabilities cfg = CapAdd dc
  /\ DockerRunConfig.SecurityOpt cfg = SecurityOpt dc
  /\ DockerRunConfig.SecurityOpts cfg = SecurityOpt dc
  /\ DockerRunConfig.Init cfg = default false (Init dc)
  /\ DockerRunConfig.Privileged cfg = default false (Privileged dc)
  /\ DockerRunConfig.User cfg = default EmptyString (ContainerUser dc)
  /\ DockerRunConfig.Name cfg = default EmptyString (Name dc)
  /\ DockerRunConfig.Command cfg = []
  /\ DockerRunConfig.RunArgs cfg
     = default [] (NonComposeBase.RunArgs <$> NonComposeBase dc).
Proof.
  unfold BuildDockerRunCommand.
  rewrite resolveMounts_spec. cbv zeta. cbn iota.
  set (dcx := Expanded' dc ws).
  destruct (0 <? length _)%nat; [done|].
  cbn [ImageContainer Image NonComposeBase WorkspaceMount WorkspaceFolder
       ContainerEnv ForwardPorts AppPort Mounts Init Privileged ContainerUser
       Name CapAdd SecurityOpt set_Mounts].
  destruct (match ImageContainer dcx with
            | Some ic => Some (ImageContainer.Image ic)
            | None => if negb (Image dcx =? "") then Some (Image dcx) else None
            end) as [img|]; [|done].
  intros [= <-].
  cbn [DockerRunConfig.WorkspaceMount DockerRunConfig.WorkspaceFolder
       DockerRunConfig.CapAdd DockerRunConfig.Capabilities
       DockerRunConfig.SecurityOpt DockerRunConfig.SecurityOpts
       DockerRunConfig.Init DockerRunConfig.Privileged DockerRunConfig.User
       DockerRunConfig.Name DockerRunConfig.Command DockerRunConfig.RunArgs].
  split; [done|].
  unfold dcx.
  rewrite (ExpandVariables_frame _ _ _ CapAdd),
    (ExpandVariables_frame _ _ _ SecurityOpt),
    (ExpandVariables_frame _ _ _ Init),
    (ExpandVariables_frame _ _ _ Privileged),
    (ExpandVariables_frame _ _ _ ContainerUser),
    (ExpandVariables_frame _ _ _ Name) by done.
  repeat split; try done.
  - destruct (ContainerUser dc) as [u|]; [|done]. cbn [default].
    by destruct (String.eqb_spec u EmptyString).
  - destruct (Name dc) as [n|]; [|done]. cbn [default].
    by destruct (String.eqb_spec n EmptyString).
  - pose proof (ExpandVariables_NonComposeBase LookupEnv rangeMap
                  (GetStandardVariables filepath_Base ws)
                  NonComposeBase.RunArgs dc
                  (fun _ _ => eq_refl) (fun _ _ => eq_refl)) as H.
    destruct (NonComposeBase (Expanded' dc ws)) as [n|],
      (NonComposeBase dc) as [n'|]; cbn in H |- *; try done.
    by injection H.
Qed.

End PlanFacts.

(** X22.  What the plan takes over as it is declared: the image (of the
    image selector if there is one, else the image field), the capability
    and security-option lists (each also under its alias), the init and
    privileged flags, the user, the name and the extra run-args.  No
    variable is expanded in any of them, and the plan has no command. *)
Theorem plan_takes_settings_as_declared
    (LookupEnv : string -> option string)
    (rangeMap : gmap string string -> list (string * string))
    (filepath_Base filepath_Abs : string -> string)
    (dc : DevContainer.v) (workspaceFolder : string) (cfg : DockerRunConfig.t) :
  BuildDockerRunCommand LookupEnv rangeMap filepath_Base filepath_Abs
    dc workspaceFolder = inl cfg ->
  DockerRunConfig.Image cfg
  = match ImageContainer dc with
    | Some ic => ImageContainer.Image ic
    | None => Image dc
    end
  /\ DockerRunConfig.CapAdd cfg = CapAdd dc
  /\ DockerRunConfig.Capabilities cfg = CapAdd dc
  /\ DockerRunConfig.SecurityOpt cfg = SecurityOpt dc
  /\ DockerRunConfig.SecurityOpts cfg = SecurityOpt dc
  /\ DockerRunConfig.Init cfg = default false (Init dc)
  /\ DockerRunConfig.Privileged cfg = default false (Privileged dc)
  /\ DockerRunConfig.User cfg = default EmptyString (ContainerUser dc)
  /\ DockerRunConfig.Name cfg = default EmptyString (Name dc)
  /\ DockerRunConfig.RunArgs cfg
     = default [] (NonComposeBase.RunArgs <$> NonComposeBase dc)
  /\ DockerRunConfig.Command cfg = [].
Proof.
  intros HB.
  pose proof (Build_cases LookupEnv rangeMap filepath_Base filepath_Abs
                dc workspaceFolder) as H.
  rewrite HB in H. destruct H as (_ & HI & _).
  destruct (Build_rest _ _ _ _ _ _ _ HB)
    as (_ & H1 & H2 & H3 & H4 & H5 & H6 & H7 & H8 & H9 & H10).
  split; [|by repeat split].
  unfold selectedImage in HI. destruct (ImageContainer dc); [by injection HI|].
  destruct (negb (Image dc =? "")); [by injection HI|done].
Qed.



Lemma applyCustomMounts_fields (customMounts : list ApiMount.t) (dc : DevContainer.v) :
  WorkspaceMount (applyCustomMounts customMounts dc) = "none"
  /\ NonComposeBase (applyCustomMounts customMounts dc) = NonComposeBase dc
  /\ WorkspaceFolder (applyCustomMounts customMounts dc)
     = if String.eqb (WorkspaceFolder dc) EmptyString then "/workspace"
       else WorkspaceFolder dc.
Proof.
  unfold applyCustomMounts. cbv zeta.
  rewrite (proj_when WorkspaceMount), (proj_when NonComposeBase) by done.
  split; [done|]. split; [done|].
  unfold when. cbn [WorkspaceFolder set_WorkspaceMount set_Mounts].
  by destruct (String.eqb (WorkspaceFolder dc) EmptyString).
Qed.

(** X25.  After mounts are injected the plan has no workspace mount, unless
    [NonComposeBase] declares one: the workspace mount of the plan is then
    the text none, for which [CreateContainer] adds no mount; a workspace
    mount of [NonComposeBase] still takes precedence. *)
Theorem injection_suppresses_the_workspace_mount
    (LookupEnv : string -> option string)
    (rangeMap : gmap string string -> list (string * string))
    (filepath_Base filepath_Abs : string -> string)
    (customMounts : list ApiMount.t)
    (dc : DevContainer.v) (workspaceFolder : string) (cfg : DockerRunConfig.t) :
  BuildDockerRunCommand LookupEnv rangeMap filepath_Base filepath_Abs
    (applyCustomMounts customMounts dc) workspaceFolder = inl cfg ->
  DockerRunConfig.WorkspaceMount cfg
  = match NonComposeBase dc ≫= NonComposeBase.WorkspaceMount with
    | Some w =>
        expandString LookupEnv rangeMap
          (GetStandardVariables filepath_Base workspaceFolder) w
    | None => "none"
    end
  /\ (NonComposeBase dc ≫= NonComposeBase.WorkspaceMount = None ->
      hostConfigMounts cfg
      = fold_left addHostMount (DockerRunConfig.Mounts cfg) (inl [])).
Proof.
  intros HB.
  destruct (Build_rest _ _ _ _ _ _ _ HB) as (HM & _).
  rewrite ExpandVariables_NonComposeBase_mount, ExpandVariables_WorkspaceMount in HM.
  destruct (applyCustomMounts_fields customMounts dc) as (HW & HN & _).
  rewrite HW, HN in HM. cbn [String.eqb Ascii.eqb Bool.eqb negb] in HM.
  change (expandString LookupEnv rangeMap ?v "none")
    with (expandVariableString LookupEnv rangeMap "none" v) in HM.
  rewrite (expandVariableString_no_dollar LookupEnv rangeMap _ "none") in HM by done.
  assert (DockerRunConfig.WorkspaceMount cfg
          = match NonComposeBase dc ≫= NonComposeBase.WorkspaceMount with
            | Some w =>
                expandString LookupEnv rangeMap
                  (GetStandardVariables filepath_Base workspaceFolder) w
            | None => "none"
            end) as HWM.
  { rewrite HM. by destruct (NonComposeBase dc ≫= NonComposeBase.WorkspaceMount). }
  split; [done|]. intros Hnone. rewrite Hnone in HWM.
  unfold hostConfigMounts. rewrite HWM.
  by destruct (fold_left addHostMount _ _).
Qed.

(** ** Removing duplicates *)

Lemma filter_other (x : string) (l : list string) :
  x ∉ l -> filter (fun y => y <> x) l = l.
Proof.
  induction l as [|y l IH]; [done|].
  intros [Hxy Hx]%not_elem_of_cons.
  rewrite filter_cons_True by done. f_equal. by apply IH.
Qed.

Lemma firstOccurrences_NoDup_id (l : list string) :
  NoDup l -> firstOccurrences l = l.
Proof.
  induction 1 as [|x l Hx _ IH]; [done|].
  cbn [firstOccurrences]. rewrite IH. f_equal. by apply filter_other.
Qed.

(** X26.  [uniqueStrings] keeps the first occurrence of every string, in
    the order of the input: its result has no duplicates, has the members
    of the input, is a subsequence of it, and is not changed by a second
    pass. *)
Theorem uniqueStrings_keeps_first_occurrences (l : list string) :
  NoDup (uniqueStrings l)
  /\ (forall s, s ∈ uniqueStrings l <-> s ∈ l)
  /\ sublist (uniqueStrings l) l
  /\ uniqueStrings (uniqueStrings l) = uniqueStrings l
  /\ (NoDup l -> uniqueStrings l = l).
Proof.
  rewrite !uniqueStrings_spec.
  split; [apply firstOccurrences_NoDup|].
  split; [intros s; apply firstOccurrences_elem|].
  split; [apply firstOccurrences_sublist|].
  split; [apply firstOccurrences_NoDup_id, firstOccurrences_NoDup|].
  apply firstOccurrences_NoDup_id.
Qed.

(** ** Loading *)

Section LoadFacts.

Variable ReadFile : string -> string + error.
Variable Unmarshal_DevContainer : string -> DevContainer.v + error.
Variable Unmarshal_raw : string -> gmap string Any + error.
Variable filepath_Join : list string -> string.
Variable filepath_Dir : string -> string.

#[local] Abbreviation Load' :=
  (LoadDevContainerWithExtends ReadFile Unmarshal_DevContainer Unmarshal_raw
     filepath_Join filepath_Dir).
#[local] Abbreviation LoadOne :=
  (LoadDevContainer ReadFile Unmarshal_DevContainer Unmarshal_raw).

Lemma loadRunArgs_strings (l : list Any) (acc : list string) :
  fold_left
    (fun args arg => match arg with AStr s => args ++ [s] | _ => args end) l acc
  = acc ++ omap (fun arg => match arg with AStr s => Some s | _ => None end) l.
Proof.
  revert acc. induction l as [|x l IH]; intros acc; [by rewrite app_nil_r|].
  cbn [fold_left omap]. rewrite IH. destruct x; try done.
  cbn [list_omap]. by rewrite <- app_assoc.
Qed.

Lemma LoadDevContainer_fields (path data : string) (raw : gmap string Any)
    (dc : DevContainer.v) :
  ReadFile path = inl data ->
  Unmarshal_raw data = inl raw ->
  LoadOne path = inl dc ->
  (Image dc <> EmptyString ->
   ImageContainer dc = Some (ImageContainer.mk (Image dc)))
  /\ (DockerComposeFile dc <> ANil ->
      ComposeContainer dc
      = Some (ComposeContainer.mk (DockerComposeFile dc) (Service dc)))
  /\ (forall runArgs,
        raw !! "runArgs" = Some (AArr runArgs) ->
        NonComposeBase.RunArgs <$> NonComposeBase dc
        = Some (omap (fun arg => match arg with AStr s => Some s | _ => None end)
                  runArgs)).
Proof.
  intros HR HU. unfold LoadDevContainer. rewrite HR.
  destruct (Unmarshal_DevContainer data) as [dc0|]; [|done]. rewrite HU.
  intros [= <-].
  set (dc1 := loadRunArgs raw dc0).
  split; [|split].
  - rewrite !(proj_when Image), (proj_when ImageContainer) by done.
    unfold when. intros Hi.
    destruct (String.eqb_spec (Image dc1) EmptyString); [done|].
    by destruct dc1.
  - rewrite !(proj_when DockerComposeFile), !(proj_when Service) by done.
    unfold when at 1. intros Hc.
    rewrite !(proj_when DockerComposeFile) by done.
    destruct (DockerComposeFile dc1) eqn:E; try done.
    all: cbn [notNil ComposeContainer set_ComposeContainer].
    all: by rewrite ?(proj_when Service) by done.
  - intros runArgs Hr.
    rewrite !(proj_when NonComposeBase) by done.
    subst dc1. unfold loadRunArgs. rewrite Hr.
    cbn [NonComposeBase set_NonComposeBase fmap option_fmap option_map].
    by rewrite loadRunArgs_strings.
Qed.

End LoadFacts.

(** X27.  What [LoadDevContainer] adds to the decoded document when the raw
    decoding succeeds: a non-empty image becomes the image selector, a
    compose file becomes the compose selector, and the strings of an array
    under the key runArgs become the run-args, in their order; an element
    that is not a string is dropped. *)
Theorem loaded_document_selectors_and_run_args
    (ReadFile : string -> string + error)
    (Unmarshal_DevContainer : string -> DevContainer.v + error)
    (Unmarshal_raw : string -> gmap string Any + error)
    (path data : string) (raw : gmap string Any) (dc : DevContainer.v) :
  ReadFile path = inl data ->
  Unmarshal_raw data = inl raw ->
  LoadDevContainer ReadFile Unmarshal_DevContainer Unmarshal_raw path = inl dc ->
  (Image dc <> EmptyString ->
   ImageContainer dc = Some (ImageContainer.mk (Image dc)))
  /\ (DockerComposeFile dc <> ANil ->
      ComposeContainer dc
      = Some (ComposeContainer.mk (DockerComposeFile dc) (Service dc)))
  /\ (forall runArgs,
        raw !! "runArgs" = Some (AArr runArgs) ->
        NonComposeBase.RunArgs <$> NonComposeBase dc
        = Some (omap (fun arg => match arg with AStr s => Some s | _ => None end)
                  runArgs)).
Proof. apply LoadDevContainer_fields. Qed.


(** ** Mount injection, once more *)

Lemma keepExisting_filter (targets : gset string) (existing : list Any) :
  keepExisting targets existing
  = filter (fun em =>
              match em with
              | AMap m =>
                  match getString m "target" with
                  | Some tgt =>
                      negb (String.eqb tgt EmptyString)
                      && bool_decide (tgt ∈ targets)
                  | None => false
                  end
              | _ => false
              end = false) existing.
Proof. unfold keepExisting. by rewrite keepExisting_from. Qed.

Lemma injected_are_overridden (customMounts l : list ApiMount.t) :
  Forall (fun mount => ApiMount.Target mount <> EmptyString) customMounts ->
  l ⊆ customMounts ->
  filter (fun em => overridden customMounts em = false) (map customObject l) = [].
Proof.
  intros Hc. induction l as [|m l IH]; intros Hall; [done|].
  cbn [map]. rewrite filter_cons_False.
  - apply IH. intros m' Hm'. apply Hall. by right.
  - unfold overridden.
    destruct (customObject_target m) as (mp & -> & ->).
    rewrite Forall_forall in Hc.
    pose proof (Hc m (Hall m (list_elem_of_here _ _))) as Hne.
    destruct (String.eqb_spec (ApiMount.Target m) EmptyString); [done|].
    cbn [negb andb]. rewrite bool_decide_eq_true_2; [done|].
    apply list_elem_of_fmap. exists m. split; [done|]. apply Hall. by left.
Qed.

Lemma applyCustomMounts_fixed (customMounts : list ApiMount.t) (d : DevContainer.v) :
  Mounts (applyCustomMounts customMounts d) = Mounts d ->
  WorkspaceMount d = "none" ->
  WorkspaceFolder d <> EmptyString ->
  applyCustomMounts customMounts d = d.
Proof.
  unfold applyCustomMounts. cbv zeta.
  rewrite (proj_when Mounts) by done. cbn [Mounts set_WorkspaceMount set_Mounts].
  intros -> HW HF. unfold when.
  cbn [WorkspaceFolder set_WorkspaceMount set_Mounts].
  destruct (String.eqb_spec (WorkspaceFolder d) EmptyString); [done|].
  destruct d; cbn in HW |- *. by rewrite HW.
Qed.

(** X29.  Injecting the same mounts a second time changes nothing, when
    every injected mount has a target. *)
Theorem injection_is_idempotent
    (customMounts : list ApiMount.t) (dc : DevContainer.v) :
  Forall (fun mount => ApiMount.Target mount <> EmptyString) customMounts ->
  applyCustomMounts customMounts (applyCustomMounts customMounts dc)
  = applyCustomMounts customMounts dc.
Proof.
  intros Hc.
  assert (HM : Mounts (applyCustomMounts customMounts (applyCustomMounts customMounts dc))
               = Mounts (applyCustomMounts customMounts dc)).
  { rewrite !applyCustomMounts_Mounts.
    rewrite filter_app, list_filter_filter, injected_are_overridden by done.
    rewrite app_nil_r. f_equal. apply list_filter_iff. tauto. }
  destruct (applyCustomMounts_fields customMounts dc) as (HW & HN & HF).
  apply applyCustomMounts_fixed; [done|done|].
  rewrite HF. by destruct (String.eqb_spec (WorkspaceFolder dc) EmptyString).
Qed.

(** ** Two renderings of a structured mount *)

(** X30.  A structured mount with a type, a target and no empty source is
    rendered to the same canonical text by [buildMountStringFromMap] and by
    [parseMounts] followed by [buildMountStringFromMount], except for the
    read-only flag: the first reads it under the key readonly, the second
    under the key readOnly. *)
Theorem mount_renderings_read_different_keys
    (m : gmap string Any) (k t : string) :
  getString m "type" = Some k ->
  getString m "target" = Some t ->
  getString m "source" <> Some EmptyString ->
  buildMountStringFromMap m
  = canonicalMount k (getString m "source") t (default false (getBool m "readonly"))
  /\ map buildMountStringFromMount (parseMounts (AArr [AMap m]))
     = [canonicalMount k (getString m "source") t
          (default false (getBool m "readOnly"))].
Proof.
  intros Hk Ht Hs. split.
  - rewrite (buildMountStringFromMap_canonical m t Ht). by rewrite Hk.
  - unfold parseMounts. cbn [fold_left app map]. rewrite Hk, Ht. f_equal.
    unfold buildMountStringFromMount, canonicalMount.
    destruct (getString m "source") as [s|].
    + destruct (String.eqb_spec s EmptyString) as [->|Hne]; [done|].
      destruct (getBool m "readOnly") as [[]|];
        cbn [Mount.Type_ Mount.Source Mount.Target Mount.ReadOnly default];
        destruct (String.eqb_spec s EmptyString); try done;
        cbn [negb]; rewrite ?append_assoc, ?append_empty_r; reflexivity.
    + destruct (getBool m "readOnly") as [[]|];
        cbn [Mount.Type_ Mount.Source Mount.Target Mount.ReadOnly default
             String.eqb negb];
        rewrite ?append_assoc, ?append_empty_r; reflexivity.
Qed.

(** ** The properties at concrete descriptors *)

Lemma service_builds :
  Sample.Build Example.service Sample.workspace = inl Example.servicePlan.
Proof. vm_compute. reflexivity. Qed.

Lemma injected_builds :
  Sample.Build (applyCustomMounts [Sample.injectedData] Sample.declaredData)
    Sample.workspace
  = inl Example.injectedPlan.
Proof. vm_compute. reflexivity. Qed.

Lemma structured_numeric_plan_validates_witness :
  Validate Example.servicePlan = None.
Proof.
  pose proof service_builds as HB.
  refine (structured_numeric_plan_validates _ _ _ _ _ _ _ HB _ _ _ _ _).
  - discriminate.
  - constructor; [|constructor]. eexists _, _. split; reflexivity.
  - exact I.
  - exact I.
  - constructor; [|constructor]. by exists 8080%Z.
Defined.

Lemma ExtractDockerImage_finds_the_image_witness :
  ExtractDockerImage (ToDockerRunArgs Sample.rangeMap Example.servicePlan)
  = inl "node:18".
Proof.
  apply (ExtractDockerImage_finds_the_image Sample.rangeMap Example.servicePlan).
  - reflexivity.
  - constructor; [|constructor]. split; [reflexivity | by vm_compute].
Defined.

Lemma DryRunDockerCommand_accepts_generated_arguments_witness :
  DryRunDockerCommand (ToDockerRunArgs Sample.rangeMap Example.servicePlan) = None.
Proof.
  apply (DryRunDockerCommand_accepts_generated_arguments
           Sample.rangeMap Example.servicePlan).
  - unfold dashFree. vm_compute. repeat split; repeat constructor.
  - constructor; [|constructor]. split; [reflexivity | by vm_compute].
  - reflexivity.
  - left. reflexivity.
Defined.

Lemma engine_reads_back_structured_mount_witness :
  mountOfString (buildMountStringFromMap Example.cacheMount)
  = DockerMount.mk "volume" "cache" "/cache" true.
Proof.
  exact (engine_reads_back_structured_mount Example.cacheMount eq_refl eq_refl eq_refl).
Defined.

Lemma engine_refuses_first_mount_without_target_witness :
  hostConfigMounts Example.targetlessPlan
  = inr "mount target is empty for mount string: type=bind,source=/b".
Proof.
  apply (engine_refuses_first_mount_without_target Example.targetlessPlan
           ["type=bind,source=/a,target=/a"] "type=bind,source=/b" ["type=tmpfs"]).
  - reflexivity.
  - repeat constructor. discriminate.
  - reflexivity.
Defined.

Lemma malformed_command_is_left_out_silently_witness :
  GetLifecycleScript
    (set_PostStartCommand (AArr [AStr "npm"; ANum 1]) Example.service) "start"
  = inl scriptHeader.
Proof.
  apply (malformed_command_is_left_out_silently
           Example.service (AArr [AStr "npm"; ANum 1])).
  right. left. discriminate.
Defined.

Lemma merge_leaves_override_as_it_was_witness :
  match Store.MergeDevContainers Store.sample (Some 1%positive) (Some 2%positive) with
  | Some (σ', _) => Store.read σ' 2%positive = Some Example.storedOverride
  | None => False
  end.
Proof.
  assert (HR : Store.read Store.sample 2%positive = Some Example.storedOverride)
    by (vm_compute; reflexivity).
  destruct (Store.MergeDevContainers Store.sample (Some 1%positive) (Some 2%positive))
    as [[σ' r]|] eqn:HM.
  - exact (merge_leaves_override_as_it_was _ _ _ _ _ _ HR HM).
  - vm_compute in HM. discriminate HM.
Defined.

Lemma merge_writes_override_environment_into_base_witness :
  match Store.MergeDevContainers Store.sample (Some 1%positive) (Some 2%positive) with
  | Some (σ', _) =>
      Store.envs σ' !! 10%positive
      = Some (<["A" := "2"]> ∅ ∪ <["A" := "1"]> (<["B" := "base"]> ∅))
  | None => False
  end.
Proof.
  assert (HR : Store.read Store.sample 2%positive = Some Example.storedOverride)
    by (vm_compute; reflexivity).
  destruct (Store.MergeDevContainers Store.sample (Some 1%positive) (Some 2%positive))
    as [[σ' r]|] eqn:HM.
  - refine (merge_writes_override_environment_into_base _ _ _ _ _ _ 10%positive
              _ _ _ _ _ HR _ HM).
    + vm_compute. reflexivity.
    + reflexivity.
    + vm_compute. reflexivity.
    + intros H. apply (f_equal (fun m => m !! "A")) in H. vm_compute in H. discriminate H.
  - vm_compute in HM. discriminate HM.
Defined.

Lemma Store_merge_reads_as_value_witness :
  exists σ' rl,
    Store.MergeDevContainers Store.sample (Some 1%positive) (Some 2%positive)
    = Some (σ', Some rl)
    /\ Store.read σ' rl
       = MergeDevContainers (Some Example.storedBase) (Some Example.storedOverride).
Proof.
  apply (Store_merge_reads_as_value Store.sample 1%positive 2%positive
           Example.storedBase Example.storedOverride).
  - vm_compute. reflexivity.
  - vm_compute. reflexivity.
Defined.

Lemma resolveLocalEnvVars_at_a_reference_witness :
  resolveLocalEnvVars Sample.LookupEnv "${localEnv:HOME}/x" = ("/home/u/x", [])
  /\ resolveLocalEnvVars Sample.LookupEnv "${localEnv:NOPE:/tmp}/x" = ("/tmp/x", [])
  /\ resolveLocalEnvVars Sample.LookupEnv "${localEnv:NOPE}/x"
     = ("${localEnv:NOPE}/x", ["NOPE"]).
Proof.
  split; [|split].
  - refine (resolveLocalEnvVars_at_a_reference Sample.LookupEnv "HOME" None "/x" _ _ _).
    + discriminate.
    + reflexivity.
    + discriminate.
  - refine (resolveLocalEnvVars_at_a_reference Sample.LookupEnv "NOPE" (Some "/tmp")
              "/x" _ _ _).
    + discriminate.
    + reflexivity.
    + intros d [= <-]. reflexivity.
  - refine (resolveLocalEnvVars_at_a_reference Sample.LookupEnv "NOPE" None "/x" _ _ _).
    + discriminate.
    + reflexivity.
    + discriminate.
Defined.

Lemma text_without_dollar_is_left_alone_witness :
  expandVariableString Sample.LookupEnv Sample.rangeMap "/workspace"
    (GetStandardVariables Sample.filepath_Base Sample.workspace)
  = "/workspace".
Proof.
  apply (text_without_dollar_is_left_alone Sample.LookupEnv Sample.rangeMap
           (GetStandardVariables Sample.filepath_Base Sample.workspace) "/workspace").
  reflexivity.
Defined.

Lemma unbraced_variable_depends_on_range_order_witness :
  expandVariableString Sample.LookupEnv
    (fun _ => [("localWorkspaceFolder", "/home/u/app");
               ("localWorkspaceFolderBasename", "app");
               ("containerWorkspaceFolder", "/workspaces/app");
               ("containerWorkspaceFolderBasename", "app")])
    "$localWorkspaceFolderBasename"
    (GetStandardVariables Sample.filepath_Base "/home/u/app")
  = "/home/u/appBasename".
Proof.
  destruct (unbraced_variable_depends_on_range_order Sample.LookupEnv
              Sample.filepath_Base "/home/u/app" eq_refl eq_refl)
    as (_ & _ & _ & H).
  exact (H _ eq_refl).
Defined.

Lemma plan_takes_settings_as_declared_witness :
  DockerRunConfig.Image Example.servicePlan = "node:18"
  /\ DockerRunConfig.RunArgs Example.servicePlan = ["--network=host"].
Proof.
  pose proof service_builds as HB.
  destruct (plan_takes_settings_as_declared _ _ _ _ _ _ _ HB)
    as (HI & _ & _ & _ & _ & _ & _ & _ & _ & HR & _).
  split; [exact HI | exact HR].
Defined.



Lemma injection_suppresses_the_workspace_mount_witness :
  DockerRunConfig.WorkspaceMount Example.injectedPlan = "none".
Proof.
  pose proof injected_builds as HB.
  exact (proj1 (injection_suppresses_the_workspace_mount _ _ _ _ _ _ _ _ HB)).
Defined.

Lemma uniqueStrings_keeps_first_occurrences_witness :
  uniqueStrings ["HOME"; "USER"] = ["HOME"; "USER"].
Proof.
  destruct (uniqueStrings_keeps_first_occurrences ["HOME"; "USER"])
    as (_ & _ & _ & _ & H).
  apply H. apply (bool_decide_unpack _). vm_compute. reflexivity.
Defined.

Lemma loaded_document_selectors_and_run_args_witness :
  ImageContainer Example.loadedBase = Some (ImageContainer.mk "ubuntu:22.04").
Proof.
  assert (HL : LoadDevContainer Sample.chainReadFile Sample.chainUnmarshal_DevContainer
                 Sample.chainUnmarshal_raw Sample.basePath
               = inl Example.loadedBase)
    by (vm_compute; reflexivity).
  refine (proj1 (loaded_document_selectors_and_run_args
                   Sample.chainReadFile Sample.chainUnmarshal_DevContainer
                   Sample.chainUnmarshal_raw Sample.basePath "base" ∅
                   Example.loadedBase _ _ HL) _).
  - reflexivity.
  - reflexivity.
  - discriminate.
Defined.


Lemma injection_is_idempotent_witness :
  applyCustomMounts [Sample.injectedData]
    (applyCustomMounts [Sample.injectedData] Sample.declaredData)
  = applyCustomMounts [Sample.injectedData] Sample.declaredData.
Proof.
  apply (injection_is_idempotent [Sample.injectedData] Sample.declaredData).
  constructor; [|constructor]. discriminate.
Defined.

Lemma mount_renderings_read_different_keys_witness :
  buildMountStringFromMap Example.cacheMount
  = "type=volume,source=cache,target=/cache,readonly"
  /\ map buildMountStringFromMount (parseMounts (AArr [AMap Example.cacheMount]))
     = ["type=volume,source=cache,target=/cache"].
Proof.
  refine (mount_renderings_read_different_keys Example.cacheMount "volume" "/cache"
            _ _ _).
  - reflexivity.
  - reflexivity.
  - discriminate.
Defined.
